(** * vivaldi-history: normalisation, aggregation and multi-source merge

    A shallow embedding of [export_vivaldi_history.py] and
    [merge_timeline_data.py].  Python values are modelled as follows:
    - [str] is [string] (a sequence of bytes, UTF-8 for non-ASCII text);
    - [int] is [Z] where the code does bit arithmetic, [nat] where it counts;
    - [float] is an IEEE-754 binary64 number, a [spec_float] of precision 53
      with the operations of [SpecFloat], rounded to nearest even;
    - a [dict] that is only looked up is a [gmap]; a [Counter], whose
      insertion order is observable through [most_common], is an association
      list in insertion order; a [set] is a [gset];
    - a call that may raise returns a [Result]. *)

From Stdlib Require Import ZArith Ascii SpecFloat.
From stdpp Require Import base numbers list strings gmap sorting pretty.

(** ** Exceptions *)

Inductive Exn : Type :=
| ValueError
| IndexError
| KeyError
| OverflowError.

Inductive Result (A : Type) : Type :=
| Ok (a : A)
| Raise (e : Exn).
Arguments Ok {A} a.
Arguments Raise {A} e.

Global Instance Result_ret : MRet Result := λ A a, Ok a.
Global Instance Result_bind : MBind Result := λ A B k m,
  match m with
  | Ok a => k a
  | Raise e => Raise e
  end.

(** [try: m except Exception: d] *)
Definition try_except {A} (m : Result A) (d : A) : A :=
  match m with
  | Ok a => a
  | Raise _ => d
  end.

(** Truth value of a Python [int] and of a Python [str]. *)
Definition truthy (z : Z) : bool := negb (z =? 0)%Z.
Definition nonempty (s : string) : bool :=
  match s with
  | EmptyString => false
  | String _ _ => true
  end.

(** ** TransitionDecoder: [decode_transition] *)

Definition core_map : gmap Z string :=
  list_to_map
    [ (0, "link"); (1, "typed"); (2, "auto_bookmark"); (3, "auto_subframe");
      (4, "manual_subframe"); (5, "generated"); (6, "auto_toplevel");
      (7, "form_submit"); (8, "reload"); (9, "keyword");
      (10, "keyword_generated") ]%Z.

(** [qualifiers.append(q)] guarded by [if transition & mask]. *)
Definition append_if (transition mask : Z) (q : string)
    (qualifiers : list string) : list string :=
  if truthy (Z.land transition mask) then qualifiers ++ [q] else qualifiers.

Definition decode_transition (transition : Z) : string * list string :=
  let core := Z.land transition 0xFF%Z in
  let core_name := default ("unknown_" +:+ pretty core) (core_map !! core) in
  let qualifiers := [] in
  let qualifiers := append_if transition 0x01000000%Z "chain_start" qualifiers in
  let qualifiers := append_if transition 0x02000000%Z "chain_end" qualifiers in
  let qualifiers := append_if transition 0x04000000%Z "client_redirect" qualifiers in
  let qualifiers := append_if transition 0x08000000%Z "server_redirect" qualifiers in
  let qualifiers := append_if transition 0x10000000%Z "is_redirect" qualifiers in
  let qualifiers := append_if transition 0x20000000%Z "from_address_bar" qualifiers in
  let qualifiers := append_if transition 0x40000000%Z "home_page" qualifiers in
  let qualifiers := append_if transition 0x80000000%Z "user_gesture" qualifiers in
  (core_name, qualifiers).

(** The tables of §4.2, written as the specification lists them. *)
Definition core_names : list string :=
  [ "link"; "typed"; "auto_bookmark"; "auto_subframe"; "manual_subframe";
    "generated"; "auto_toplevel"; "form_submit"; "reload"; "keyword";
    "keyword_generated" ].

Definition qualifier_masks : list (Z * string) :=
  [ (0x01000000, "chain_start"); (0x02000000, "chain_end");
    (0x04000000, "client_redirect"); (0x08000000, "server_redirect");
    (0x10000000, "is_redirect"); (0x20000000, "from_address_bar");
    (0x40000000, "home_page"); (0x80000000, "user_gesture") ]%Z.

(** ** Python built-ins used by the two scripts *)

(** [needle in hay] on strings. *)
Fixpoint contains (needle hay : string) : bool :=
  String.prefix needle hay ||
  match hay with
  | EmptyString => false
  | String _ hay' => contains needle hay'
  end.

(** [s.startswith(p)] *)
Definition startswith (s p : string) : bool := String.prefix p s.

(** [s.replace(c, new)] for a one-character [c]. *)
Fixpoint str_replace (c : ascii) (new : string) (s : string) : string :=
  match s with
  | EmptyString => EmptyString
  | String a s' =>
      if decide (a = c) then new +:+ str_replace c new s'
      else String a (str_replace c new s')
  end.

(** [l[i]] and [d[k]], which raise when the index or the key is missing. *)
Definition list_getitem {A} (l : list A) (i : nat) : Result A :=
  match l !! i with
  | Some x => Ok x
  | None => Raise IndexError
  end.

Definition dict_getitem {A} (d : gmap string A) (k : string) : Result A :=
  match d !! k with
  | Some x => Ok x
  | None => Raise KeyError
  end.

(** [k in d] *)
Definition dict_contains {A} (d : gmap string A) (k : string) : bool :=
  bool_decide (is_Some (d !! k)).

(** [d.setdefault(k, v)] *)
Definition setdefault {A} (k : string) (v : A) (d : gmap string A)
    : gmap string A :=
  match d !! k with
  | Some _ => d
  | None => <[k := v]> d
  end.

(** [d[k].append(x)] on a [defaultdict(list)] *)
Definition dict_append {A} (k : string) (x : A) (d : gmap string (list A))
    : gmap string (list A) :=
  <[k := default [] (d !! k) ++ [x]]> d.

(** [len({x for x in l})] *)
Definition len_set (l : list string) : nat :=
  size (list_to_set l : gset string).

(** [sorted(d.items())]: the keys of a dict are distinct, so the order is the
    order of the keys. *)
Definition key_le {A} (a b : string * A) : Prop := String.le a.1 b.1.
Global Instance key_le_dec {A} : RelDecision (@key_le A).
Proof. intros a b. unfold key_le. apply _. Defined.

Definition sorted_items {A} (d : gmap string A) : list (string * A) :=
  merge_sort key_le (map_to_list d).

(** *** [collections.Counter]

    A [Counter] is a dict, and a dict keeps its keys in the order of their
    first insertion; [most_common] makes that order observable. *)
Definition Counter := list (string * nat).

(** [ctr[k] += c] *)
Fixpoint counter_add (k : string) (c : nat) (ctr : Counter) : Counter :=
  match ctr with
  | [] => [(k, c)]
  | (k', c') :: rest =>
      if decide (k = k') then (k', c' + c) :: rest
      else (k', c') :: counter_add k c rest
  end.

(** [ctr[k]], which is 0 for a missing key. *)
Fixpoint counter_get (k : string) (ctr : Counter) : nat :=
  match ctr with
  | [] => 0
  | (k', c) :: rest => if decide (k = k') then c else counter_get k rest
  end.

(** [Counter(keys)] *)
Definition counter_of (keys : list string) : Counter :=
  foldl (λ ctr k, counter_add k 1 ctr) [] keys.

(** [sorted(ctr.items(), key=itemgetter(1), reverse=True)]: a stable sort, so
    items of equal count keep the order of the dict. *)
Fixpoint insert_desc (x : string * nat) (l : Counter) : Counter :=
  match l with
  | [] => [x]
  | y :: l' =>
      if decide (x.2 < y.2) then y :: insert_desc x l' else x :: y :: l'
  end.

Definition sort_desc (ctr : Counter) : Counter := foldr insert_desc [] ctr.

(** [ctr.most_common(n)], that is [heapq.nlargest(n, ctr.items(), key)]. *)
Definition most_common (n : nat) (ctr : Counter) : Counter :=
  take n (sort_desc ctr).

(** ** Ranking, as §4.5 states it

    A counted sequence is given by its slots, one per input record: [Some k]
    when the record counts for the key [k], [None] when it counts for
    nothing. *)

(** The key a string counts for: the empty string counts for nothing. *)
Definition truthy_str (s : string) : option string :=
  if nonempty s then Some s else None.

(** Position of the first slot holding [k]. *)
Fixpoint first_seen (k : string) (slots : list (option string)) : nat :=
  match slots with
  | [] => 0
  | s :: slots' => if decide (s = Some k) then 0 else S (first_seen k slots')
  end.

(** Number of slots holding [k]. *)
Definition times_seen (k : string) (slots : list (option string)) : nat :=
  length (filter (λ s, s = Some k) slots).

(** Descending count, ties broken by first occurrence. *)
Definition ranks_before (slots : list (option string)) (a b : string * nat)
    : Prop :=
  b.2 < a.2 ∨ (a.2 = b.2 ∧ first_seen a.1 slots < first_seen b.1 slots).

(** [full] lists every key of the sequence once, with its count over the
    whole sequence, in ranking order. *)
Definition full_ranking (slots : list (option string))
    (full : list (string * nat)) : Prop :=
  NoDup full.*1
  ∧ (∀ k c, (k, c) ∈ full ↔ Some k ∈ slots ∧ c = times_seen k slots)
  ∧ StronglySorted (ranks_before slots) full.

(** [top] is the ranking cut after [cap] entries. *)
Definition ranked (slots : list (option string)) (cap : nat)
    (top : list (string * nat)) : Prop :=
  ∃ full, full_ranking slots full ∧ top = take cap full.

(** What holds of the counter built from the keys of a slot sequence: its
    keys are the keys seen, in the order of their first occurrence, each with
    the number of times it was seen. *)
Definition counter_inv (slots : list (option string)) (ctr : Counter) : Prop :=
  NoDup ctr.*1
  ∧ (∀ k, k ∈ ctr.*1 ↔ Some k ∈ slots)
  ∧ (∀ k, counter_get k ctr = times_seen k slots)
  ∧ StronglySorted (λ a b, first_seen a slots < first_seen b slots) ctr.*1.

(** ** Python floats

    A Python [float] is a binary64 number; every operation returns the
    nearest representable number, ties to even. *)
Definition float : Type := spec_float.

Definition float_prec : Z := 53.
Definition float_emax : Z := 1024.

(** An integer as an unrounded number. *)
Definition exact_int (n : Z) : spec_float :=
  match n with
  | Z0 => S754_zero false
  | Zpos p => S754_finite false p 0
  | Zneg p => S754_finite true p 0
  end.

(** [float(n)] *)
Definition float_of_int (n : Z) : float :=
  binary_normalize float_prec float_emax n 0 false.

(** [a / b] on two [int]s, for [b] other than 0: the quotient is rounded
    once. *)
Definition int_truediv (a b : Z) : float :=
  SFdiv float_prec float_emax (exact_int a) (exact_int b).

Definition float_add (x y : float) : float := SFadd float_prec float_emax x y.
Definition float_sub (x y : float) : float := SFsub float_prec float_emax x y.
Definition float_mul (x y : float) : float := SFmul float_prec float_emax x y.

(** [int(x)]: truncation towards zero. *)
Definition int_of_float (x : float) : Result Z :=
  match x with
  | S754_zero _ => Ok 0%Z
  | S754_finite s m e =>
      let magnitude :=
        match e with
        | Zneg k => (Zpos m `div` 2 ^ Zpos k)%Z
        | _ => (Zpos m * 2 ^ e)%Z
        end in
      Ok (if s then (- magnitude)%Z else magnitude)
  | S754_infinity _ => Raise OverflowError
  | S754_nan => Raise ValueError
  end.

(** ** The standard library calls, as an interface *)

(** Result of [urllib.parse.urlparse]. *)
Record ParseResult := {
  scheme : string;
  netloc : string;
  path : string;
  params : string;
  query : string;
  fragment : string }.

(** A [datetime.datetime] in UTC. *)
Record datetime := {
  year : N;
  month : N;
  day : N;
  hour : N;
  minute : N;
  second : N;
  microsecond : N }.

(** [urlparse] and [datetime.fromisoformat] raise [ValueError] on input they
    reject; [parse_qs] returns a dict from parameter names to the non-empty
    list of their values; [str_lower] is [str.lower];
    [fromtimestamp x] is [datetime.fromtimestamp(x, tz=timezone.utc)]. *)
Class PyLib := {
  urlparse : string → Result ParseResult;
  parse_qs : string → gmap string (list string);
  str_lower : string → string;
  fromisoformat : string → Result datetime;
  fromtimestamp : float → Result datetime }.

(** [datetime.weekday()]: Monday is 0.  *)
Definition is_leap (y : N) : bool :=
  bool_decide (y `mod` 4 = 0)%N &&
  (negb (bool_decide (y `mod` 100 = 0)%N) || bool_decide (y `mod` 400 = 0)%N).

Definition days_in_month (y m : N) : N :=
  match m with
  | 2 => if is_leap y then 29 else 28
  | 4 | 6 | 9 | 11 => 30
  | _ => 31
  end%N.

Definition days_before_year (y : N) : N :=
  let y' := (y - 1)%N in
  (y' * 365 + y' `div` 4 - y' `div` 100 + y' `div` 400)%N.

Definition days_before_month (y m : N) : N :=
  foldr N.add 0%N (days_in_month y <$> (N.of_nat <$> seq 1 (N.to_nat m - 1))).

Definition toordinal (dt : datetime) : N :=
  (days_before_year (year dt) + days_before_month (year dt) (month dt)
   + day dt)%N.

Definition weekday (dt : datetime) : nat :=
  N.to_nat ((toordinal dt + 6) `mod` 7)%N.

(** [dt.timestamp()] of an aware UTC [datetime]:
    [(dt - datetime(1970, 1, 1, tzinfo=timezone.utc)).total_seconds()], the
    microseconds of the difference divided by [10**6]. *)
Definition unix_microseconds (dt : datetime) : Z :=
  (((Z.of_N (toordinal dt) - 719163) * 86400
    + Z.of_N (hour dt) * 3600 + Z.of_N (minute dt) * 60 + Z.of_N (second dt))
   * 1000000 + Z.of_N (microsecond dt))%Z.

Definition timestamp_of (dt : datetime) : float :=
  int_truediv (unix_microseconds dt) 1000000.

(** [str(dt.date())] *)
Definition zfill (width : nat) (s : string) : string :=
  String.string_of_list_ascii
    (replicate (width - String.length s) "0"%char) +:+ s.

Definition format_date (dt : datetime) : string :=
  zfill 4 (pretty (year dt)) +:+ "-" +:+ zfill 2 (pretty (month dt))
    +:+ "-" +:+ zfill 2 (pretty (day dt)).

(** ** Data model *)

(** One visit, as [build_records] emits it; [source] is the tag that
    [merge_daily] adds. *)
Record VisitRecord := {
  url : string;
  title : string;
  timestamp : string;
  domain : string;
  transition_type : string;
  transition_qualifiers : list string;
  transition_raw : Z;
  source : option string }.

Record DailySummary := {
  ds_date : string;
  ds_visits : nat;
  ds_unique_urls : nat }.

(** An entry of [top_urls]. *)
Record TopUrl := {
  tu_url : string;
  tu_visit_count : nat;
  tu_title : option string }.

(** The per-period aggregate; [top_domains] and [top_search_queries] hold
    (name, count) pairs, [weekday_distribution] is a dict in insertion order. *)
Record Aggregate := {
  agg_period : string;
  agg_total_visits : nat;
  agg_unique_urls : nat;
  agg_top_domains : list (string * nat);
  agg_top_urls : list TopUrl;
  agg_daily_summary : list DailySummary;
  agg_hourly_distribution : list nat;
  agg_weekday_distribution : list (string * nat);
  agg_top_search_queries : list (string * nat) }.

(** The per-date file. *)
Record DailyPayload := {
  dp_date : string;
  dp_total_visits : nat;
  dp_unique_urls : nat;
  dp_visits : list VisitRecord }.

(** ** export_vivaldi_history.py *)

Definition engine_hosts : gmap string string :=
  list_to_map
    [ ("www.google.com", "q"); ("google.com", "q"); ("www.bing.com", "q");
      ("bing.com", "q"); ("duckduckgo.com", "q"); ("www.duckduckgo.com", "q");
      ("search.brave.com", "q"); ("search.yahoo.com", "p");
      ("yahoo.com", "p") ].

Section Exporter.
Context {pylib : PyLib}.

Definition chrome_time_to_datetime (chrome_ts : Z) : Result datetime :=
  let unix_ts :=
    float_sub (int_truediv chrome_ts 1000000) (float_of_int 11644473600) in
  fromtimestamp unix_ts.

Definition datetime_to_chrome_time (dt : datetime) : Result Z :=
  let unix_ts := timestamp_of dt in
  int_of_float
    (float_mul (float_add unix_ts (float_of_int 11644473600))
               (float_of_int 1000000)).

Definition extract_domain (url : string) : Result string :=
  Ok (try_except (p ← urlparse url; mret (str_lower (netloc p))) "").

Definition extract_search_query (url : string) : Result (option string) :=
  parsed ← urlparse url;
  let host := str_lower (netloc parsed) in
  let path := str_lower (path parsed) in
  if dict_contains engine_hosts host
     && (contains "search" path || startswith host "duckduckgo")
  then
    let params := parse_qs (query parsed) in
    key ← dict_getitem engine_hosts host;
    if dict_contains params key
       && bool_decide (default [] (params !! key) ≠ [])
    then
      values ← dict_getitem params key;
      q ← list_getitem values 0;
      mret (Some q)
    else mret None
  else mret None.

(** The condition of §4.3 under which extraction fires, on a parsed url:
    the host is in the engine table and the path contains "search" or the
    host starts with "duckduckgo". *)
Definition search_gate (parsed : ParseResult) : bool :=
  dict_contains engine_hosts (str_lower (netloc parsed))
  && (contains "search" (str_lower (path parsed))
      || startswith (str_lower (netloc parsed)) "duckduckgo").

(** [datetime.fromisoformat(r["timestamp"].replace("Z", "+00:00"))] *)
Definition record_datetime (r : VisitRecord) : Result datetime :=
  fromisoformat (str_replace "Z" "+00:00" (timestamp r)).

Definition group_by_date (records : list VisitRecord)
    : gmap string (list VisitRecord) :=
  foldl (λ by_date r, dict_append (String.substring 0 10 (timestamp r)) r by_date)
        ∅ records.

(** [hours[i] += 1] *)
Definition list_incr (l : list nat) (i : nat) : Result (list nat) :=
  v ← list_getitem l i;
  mret (<[i := v + 1]> l).

Fixpoint hourly_loop (records : list VisitRecord) (hours : list nat)
    : Result (list nat) :=
  match records with
  | [] => mret hours
  | r :: records' =>
      dt ← record_datetime r;
      hours ← list_incr hours (N.to_nat (hour dt));
      hourly_loop records' hours
  end.

Definition hourly_distribution (records : list VisitRecord)
    : Result (list nat) :=
  hourly_loop records (replicate 24 0).

Definition weekday_names : list string :=
  ["Mon"; "Tue"; "Wed"; "Thu"; "Fri"; "Sat"; "Sun"].

(** [counts[k] += 1] on a plain dict, kept in insertion order. *)
Fixpoint dict_incr (k : string) (counts : list (string * nat))
    : Result (list (string * nat)) :=
  match counts with
  | [] => Raise KeyError
  | (k', c) :: rest =>
      if decide (k = k') then mret ((k', c + 1) :: rest)
      else rest ← dict_incr k rest; mret ((k', c) :: rest)
  end.

Fixpoint weekday_loop (records : list VisitRecord)
    (counts : list (string * nat)) : Result (list (string * nat)) :=
  match records with
  | [] => mret counts
  | r :: records' =>
      dt ← record_datetime r;
      name ← list_getitem weekday_names (weekday dt);
      counts ← dict_incr name counts;
      weekday_loop records' counts
  end.

Definition weekday_distribution (records : list VisitRecord)
    : Result (list (string * nat)) :=
  weekday_loop records ((λ n, (n, 0)) <$> weekday_names).

(** The per-date summary lines, shared by [build_daily_files] and
    [build_aggregate]. *)
Definition summary_of (dv : string * list VisitRecord) : DailySummary :=
  {| ds_date := dv.1;
     ds_visits := length dv.2;
     ds_unique_urls := len_set (url <$> dv.2) |}.

Definition build_daily_files (by_date : gmap string (list VisitRecord))
    : list DailySummary * list DailyPayload :=
  let items := sorted_items by_date in
  (summary_of <$> items,
   (λ dv, {| dp_date := dv.1;
             dp_total_visits := length dv.2;
             dp_unique_urls := len_set (url <$> dv.2);
             dp_visits := dv.2 |}) <$> items).

(** The title dict of [build_aggregate]. *)
Definition title_step (url_to_title : gmap string string) (r : VisitRecord)
    : gmap string string :=
  if nonempty (url r) && nonempty (title r)
  then setdefault (url r) (title r) url_to_title
  else url_to_title.

(** [q for q in (extract_search_query(r["url"]) for r in records) if q] *)
Definition truthy_query (q : option string) : option string :=
  match q with
  | Some s => if nonempty s then Some s else None
  | None => None
  end.

(** The slots of the three counted sequences of [build_aggregate]. *)
Definition domain_slot (r : VisitRecord) : option string :=
  truthy_str (domain r).
Definition url_slot (r : VisitRecord) : option string :=
  truthy_str (url r).
Definition query_slot (r : VisitRecord) : option string :=
  match extract_search_query (url r) with
  | Ok q => truthy_query q
  | Raise _ => None
  end.

(** The first non-empty title among the records of a url. *)
Definition first_title (u : string) (records : list VisitRecord)
    : option string :=
  title <$> head (filter (λ r, url r = u ∧ title r ≠ "") records).

Definition build_aggregate (records : list VisitRecord)
    (by_date : gmap string (list VisitRecord))
    (period_start period_end : datetime) : Result Aggregate :=
  let total_visits := length records in
  let unique_urls := len_set (url <$> records) in
  let domain_counts := counter_of (filter (λ d, nonempty d) (domain <$> records)) in
  let url_counts := counter_of (filter (λ u, nonempty u) (url <$> records)) in
  let top_domains := most_common 20 domain_counts in
  let url_to_title := foldl title_step ∅ records in
  let top_urls :=
    (λ uc, {| tu_url := uc.1; tu_visit_count := uc.2;
              tu_title := url_to_title !! uc.1 |})
      <$> most_common 50 url_counts in
  let daily_summary := summary_of <$> sorted_items by_date in
  queries ← mapM (λ r, extract_search_query (url r)) records;
  let search_queries := counter_of (omap truthy_query queries) in
  let top_search_queries := most_common 50 search_queries in
  hourly ← hourly_distribution records;
  weekdays ← weekday_distribution records;
  mret {| agg_period := format_date period_start +:+ " to " +:+ format_date period_end;
          agg_total_visits := total_visits;
          agg_unique_urls := unique_urls;
          agg_top_domains := top_domains;
          agg_top_urls := top_urls;
          agg_daily_summary := daily_summary;
          agg_hourly_distribution := hourly;
          agg_weekday_distribution := weekdays;
          agg_top_search_queries := top_search_queries |}.

End Exporter.

(** ** merge_timeline_data.py *)

(** The merged aggregate: [periods] replaces [period]. *)
Record MergedAggregate := {
  m_periods : list string;
  m_total_visits : nat;
  m_unique_urls : nat;
  m_top_domains : list (string * nat);
  m_top_urls : list TopUrl;
  m_daily_summary : list DailySummary;
  m_hourly_distribution : list nat;
  m_weekday_distribution : list (string * nat);
  m_top_search_queries : list (string * nat) }.

(** [v["source"] = source_name] *)
Definition tag_source (source_name : string) (v : VisitRecord) : VisitRecord :=
  {| url := url v; title := title v; timestamp := timestamp v;
     domain := domain v; transition_type := transition_type v;
     transition_qualifiers := transition_qualifiers v;
     transition_raw := transition_raw v; source := Some source_name |}.

(** A source of [merge_daily]: its name and the payloads of the files
    [sorted(daily_dir.glob("history_*.json"))], or [None] when the source has
    no [daily] directory. *)
Definition DailySource : Type := string * option (list DailyPayload).

Definition load_payload (source_name : string)
    (by_date : gmap string (list VisitRecord)) (payload : DailyPayload)
    : gmap string (list VisitRecord) :=
  foldl (λ by_date v, dict_append (dp_date payload) (tag_source source_name v) by_date)
        by_date (dp_visits payload).

Definition load_source (by_date : gmap string (list VisitRecord))
    (src : DailySource) : gmap string (list VisitRecord) :=
  match src.2 with
  | None => by_date
  | Some files => foldl (load_payload src.1) by_date files
  end.

(** The concatenated, source-tagged record list of a date: the visits of the
    payloads of that date, source by source and file by file. *)
Definition tagged_visits (date : string) (sources : list DailySource)
    : list VisitRecord :=
  src ← sources;
  payload ← default [] src.2;
  if decide (dp_date payload = date) then tag_source src.1 <$> dp_visits payload
  else [].

Definition merged_unique_urls (visits : list VisitRecord) : nat :=
  len_set (filter (λ u, nonempty u) (url <$> visits)).

(** Returns [daily_summary] and the payloads written under [merge/daily]. *)
Definition merge_daily (sources : list DailySource)
    : list DailySummary * list DailyPayload :=
  let by_date := foldl load_source ∅ sources in
  let items := sorted_items by_date in
  ((λ dv, {| ds_date := dv.1; ds_visits := length dv.2;
             ds_unique_urls := merged_unique_urls dv.2 |}) <$> items,
   (λ dv, {| dp_date := dv.1; dp_total_visits := length dv.2;
             dp_unique_urls := merged_unique_urls dv.2;
             dp_visits := dv.2 |}) <$> items).

(** The accumulators of [merge_aggregate]. *)
Record MergeState := {
  ms_total_visits : nat;
  ms_unique_urls : gset string;
  ms_domain_counts : Counter;
  ms_url_counts : Counter;
  ms_url_to_title : gmap string string;
  ms_hourly : list nat;
  ms_weekday_counts : Counter;
  ms_top_search_queries : Counter;
  ms_periods : list string }.

Definition merge_init : MergeState :=
  {| ms_total_visits := 0; ms_unique_urls := ∅; ms_domain_counts := [];
     ms_url_counts := []; ms_url_to_title := ∅; ms_hourly := replicate 24 0;
     ms_weekday_counts := []; ms_top_search_queries := []; ms_periods := [] |}.

(** The body of [for item in data.get("top_urls", [])], on the three
    accumulators it touches. *)
Definition merge_top_url
    (acc : Counter * gmap string string * gset string) (item : TopUrl)
    : Counter * gmap string string * gset string :=
  let '(url_counts, url_to_title, unique_urls) := acc in
  if nonempty (tu_url item) then
    let url_counts := counter_add (tu_url item) (tu_visit_count item) url_counts in
    let url_to_title :=
      match tu_title item with
      | Some t => if nonempty t then setdefault (tu_url item) t url_to_title
                  else url_to_title
      | None => url_to_title
      end in
    (url_counts, url_to_title, {[ tu_url item ]} ∪ unique_urls)
  else acc.

(** [for i, v in enumerate(dist): if i < 24: hourly[i] += v] *)
Definition merge_hourly (hourly dist : list nat) : list nat :=
  foldl (λ hourly iv, if decide (iv.1 < 24) then alter (λ h, h + iv.2) iv.1 hourly
                      else hourly)
        hourly (imap pair dist).

Definition merge_query (ctr : Counter) (item : string * nat) : Counter :=
  if nonempty item.1 then counter_add item.1 item.2 ctr else ctr.

(** One iteration of [for path in aggregate_files]. *)
Definition merge_file (st : MergeState) (data : Aggregate) : MergeState :=
  let '(url_counts, url_to_title, unique_urls) :=
    foldl merge_top_url
      (ms_url_counts st, ms_url_to_title st, ms_unique_urls st)
      (agg_top_urls data) in
  {| ms_total_visits := ms_total_visits st + agg_total_visits data;
     ms_periods := ms_periods st ++ [agg_period data];
     ms_domain_counts :=
       foldl (λ ctr item, counter_add item.1 item.2 ctr)
             (ms_domain_counts st) (agg_top_domains data);
     ms_url_counts := url_counts;
     ms_url_to_title := url_to_title;
     ms_unique_urls := unique_urls;
     ms_hourly := merge_hourly (ms_hourly st) (agg_hourly_distribution data);
     ms_weekday_counts :=
       foldl (λ ctr item, counter_add item.1 item.2 ctr)
             (ms_weekday_counts st) (agg_weekday_distribution data);
     ms_top_search_queries :=
       foldl merge_query (ms_top_search_queries st)
             (agg_top_search_queries data) |}.

(** [sources] lists, per source in the order of the [sources] dict, the
    aggregates loaded from [sorted(source_dir.glob("aggregate_*weeks.json"))]. *)
Definition merge_aggregate (sources : list (list Aggregate))
    (daily_summary : list DailySummary) : MergedAggregate :=
  let st := foldl (λ st files, foldl merge_file st files) merge_init sources in
  {| m_periods := filter (λ p, nonempty p) (ms_periods st);
     m_total_visits := ms_total_visits st;
     m_unique_urls := size (ms_unique_urls st);
     m_top_domains := most_common 20 (ms_domain_counts st);
     m_top_urls :=
       (λ uc, {| tu_url := uc.1; tu_visit_count := uc.2;
                 tu_title := ms_url_to_title st !! uc.1 |})
         <$> most_common 50 (ms_url_counts st);
     m_daily_summary := daily_summary;
     m_hourly_distribution := ms_hourly st;
     m_weekday_distribution := ms_weekday_counts st;
     m_top_search_queries := most_common 50 (ms_top_search_queries st) |}.

(** The urls that the merge can see: the non-empty urls listed in the
    [top_urls] of the source aggregates. *)
Definition listed_urls (sources : list (list Aggregate)) : list string :=
  filter (λ u, nonempty u) (tu_url <$> (concat sources ≫= agg_top_urls)).

(** The urls that a source saw: the non-empty urls of its records. *)
Definition seen_urls (records : list VisitRecord) : list string :=
  filter (λ u, nonempty u) (url <$> records).

(** ** A concrete standard library

    An executable instance of [PyLib], used to run the scripts on concrete
    inputs.  It follows CPython's [urllib.parse] and [datetime] on ASCII
    input: [urlsplit]'s stripping of control characters and its NFKC and
    bracketed-host checks are left out, and [fromisoformat] accepts the
    shape that [isoformat] prints for a UTC instant,
    [YYYY-MM-DD?HH:MM:SS[.ffffff]+00:00]. *)
Module Py.

Definition is_upper (c : ascii) : bool :=
  (65 <=? nat_of_ascii c) && (nat_of_ascii c <=? 90).
Definition is_lower (c : ascii) : bool :=
  (97 <=? nat_of_ascii c) && (nat_of_ascii c <=? 122).
Definition is_digit (c : ascii) : bool :=
  (48 <=? nat_of_ascii c) && (nat_of_ascii c <=? 57).

Definition lower_char (c : ascii) : ascii :=
  if is_upper c then ascii_of_nat (nat_of_ascii c + 32) else c.

Fixpoint lower (s : string) : string :=
  match s with
  | EmptyString => EmptyString
  | String c s' => String (lower_char c) (lower s')
  end.

Fixpoint has_char (c : ascii) (s : string) : bool :=
  match s with
  | EmptyString => false
  | String a s' => bool_decide (a = c) || has_char c s'
  end.

Fixpoint all_chars (P : ascii → bool) (s : string) : bool :=
  match s with
  | EmptyString => true
  | String a s' => P a && all_chars P s'
  end.

(** The prefix before the first character satisfying [P], and the rest
    from that character on. *)
Fixpoint break_at (P : ascii → bool) (s : string) : string * string :=
  match s with
  | EmptyString => (EmptyString, EmptyString)
  | String a s' =>
      if P a then (EmptyString, s)
      else let '(l, r) := break_at P s' in (String a l, r)
  end.

Definition tail (s : string) : string :=
  match s with
  | EmptyString => EmptyString
  | String _ s' => s'
  end.

(** [s.split(c, 1)] when [c in s]. *)
Definition split1 (c : ascii) (s : string) : string * string :=
  let '(l, r) := break_at (λ a, bool_decide (a = c)) s in (l, tail r).

(** [s.split(c)] *)
Fixpoint split (c : ascii) (s : string) : list string :=
  match s with
  | EmptyString => [EmptyString]
  | String a s' =>
      if decide (a = c) then EmptyString :: split c s'
      else match split c s' with
           | [] => [String a EmptyString]
           | w :: ws => String a w :: ws
           end
  end.

Definition scheme_char (c : ascii) : bool :=
  is_upper c || is_lower c || is_digit c
  || bool_decide (c = "+"%char) || bool_decide (c = "-"%char)
  || bool_decide (c = "."%char).

Definition uses_params : list string :=
  [""; "ftp"; "hdl"; "prospero"; "http"; "imap"; "https"; "shttp"; "rtsp";
   "rtspu"; "sip"; "sips"; "mms"; "sftp"; "tel"].

(** [_splitparams]: the parameters of the last path segment. *)
Fixpoint splitparams (url : string) : string * string :=
  match url with
  | EmptyString => (EmptyString, EmptyString)
  | String a url' =>
      if has_char "/" url then
        let '(p, q) := splitparams url' in (String a p, q)
      else if has_char ";" url then split1 ";" url
      else (url, EmptyString)
  end.

Definition urlparse (url : string) : Result ParseResult :=
  (* the scheme *)
  let '(pre, rest) := break_at (λ a, bool_decide (a = ":"%char)) url in
  let '(scheme, url) :=
    match pre, rest with
    | String c _, String _ rest' =>
        if (is_upper c || is_lower c) && all_chars scheme_char pre
        then (lower pre, rest') else (EmptyString, url)
    | _, _ => (EmptyString, url)
    end in
  (* the network location *)
  netloc_url ←
    (if String.prefix "//" url then
       let '(netloc, url) :=
         break_at (λ a, bool_decide (a = "/"%char) || bool_decide (a = "?"%char)
                        || bool_decide (a = "#"%char))
                  (tail (tail url)) in
       if xorb (has_char "[" netloc) (has_char "]" netloc)
       then Raise ValueError
       else Ok (netloc, url)
     else Ok (EmptyString, url));
  let '(netloc, url) := netloc_url in
  let '(url, fragment) :=
    if has_char "#" url then split1 "#" url else (url, EmptyString) in
  let '(url, query) :=
    if has_char "?" url then split1 "?" url else (url, EmptyString) in
  let '(url, params) :=
    if bool_decide (scheme ∈ uses_params) && has_char ";" url
    then splitparams url else (url, EmptyString) in
  Ok {| scheme := scheme; netloc := netloc; path := url; params := params;
        query := query; fragment := fragment |}.

(** [unquote], on bytes. *)
Definition hex_value (c : ascii) : option nat :=
  let n := nat_of_ascii c in
  if is_digit c then Some (n - 48)
  else if (65 <=? n) && (n <=? 70) then Some (n - 55)
  else if (97 <=? n) && (n <=? 102) then Some (n - 87)
  else None.

Fixpoint unquote (s : string) : string :=
  match s with
  | EmptyString => EmptyString
  | String c s' =>
      match s' with
      | String h (String l s'') =>
          match (if decide (c = "%"%char) then hex_value h else None),
                hex_value l with
          | Some x, Some y => String (ascii_of_nat (16 * x + y)) (unquote s'')
          | _, _ => String c (unquote s')
          end
      | _ => String c (unquote s')
      end
  end.

(** [parse_qsl] with its defaults: blank values are dropped. *)
Definition parse_field (name_value : string) : option (string * string) :=
  if has_char "=" name_value then
    let '(name, value) := split1 "=" name_value in
    if nonempty value
    then Some (unquote (str_replace "+" " " name),
               unquote (str_replace "+" " " value))
    else None
  else None.

Definition parse_qs (qs : string) : gmap string (list string) :=
  foldl (λ d nv, dict_append nv.1 nv.2 d) ∅ (omap parse_field (split "&" qs)).

(** The decimal number written by exactly [n] digits. *)
Definition number (n : nat) (cs : list ascii) : option N :=
  if bool_decide (length cs = n) && forallb is_digit cs
  then Some (foldl (λ acc c, 10 * acc + (N_of_ascii c - 48))%N 0%N cs)
  else None.

Definition field (cs : list ascii) (pos len : nat) : option N :=
  number len (take len (drop pos cs)).

Definition check (P : Prop) `{!Decision P} : option unit :=
  if decide P then Some () else None.

Definition sep (cs : list ascii) (pos : nat) (c : ascii) : option unit :=
  check (cs !! pos = Some c).

Definition parse_iso (s : string) : option datetime :=
  let cs := String.list_ascii_of_string s in
  y ← field cs 0 4; _ ← sep cs 4 "-"%char;
  m ← field cs 5 2; _ ← sep cs 7 "-"%char;
  d ← field cs 8 2; _ ← cs !! 10;
  hh ← field cs 11 2; _ ← sep cs 13 ":"%char;
  mm ← field cs 14 2; _ ← sep cs 16 ":"%char;
  ss ← field cs 17 2;
  us ← (if decide (drop 19 cs = String.list_ascii_of_string "+00:00")
        then Some 0%N
        else _ ← sep cs 19 "."%char;
             _ ← check (drop 26 cs = String.list_ascii_of_string "+00:00");
             field cs 20 6);
  _ ← check (1 ≤ y ∧ 1 ≤ m ≤ 12 ∧ 1 ≤ d ≤ days_in_month y m)%N;
  _ ← check (hh < 24 ∧ mm < 60 ∧ ss < 60)%N;
  Some {| year := y; month := m; day := d; hour := hh; minute := mm;
          second := ss; microsecond := us |}.

Definition fromisoformat (s : string) : Result datetime :=
  match parse_iso s with
  | Some dt => Ok dt
  | None => Raise ValueError
  end.

(** [round(x)] to an [int], ties to even. *)
Definition round_half_even (x : float) : Result Z :=
  match x with
  | S754_finite s m (Zneg k) =>
      let q := (Zpos m `div` 2 ^ Zpos k)%Z in
      let r := (Zpos m `mod` 2 ^ Zpos k)%Z in
      let magnitude :=
        match (2 * r ?= 2 ^ Zpos k)%Z with
        | Lt => q
        | Gt => (q + 1)%Z
        | Eq => if Z.even q then q else (q + 1)%Z
        end in
      Ok (if s then (- magnitude)%Z else magnitude)
  | _ => int_of_float x
  end.

(** [_ord2ymd]: the date of a proleptic Gregorian ordinal. *)
Fixpoint month_of (y : N) (months : list N) (n : N) : N * N :=
  match months with
  | [] => (12, n + 1)%N
  | m :: months' =>
      if (n <? days_in_month y m)%N then (m, (n + 1)%N)
      else month_of y months' (n - days_in_month y m)%N
  end.

Definition ord2ymd (ordinal : N) : N * N * N :=
  let n := (ordinal - 1)%N in
  let n400 := (n `div` 146097)%N in
  let n := (n `mod` 146097)%N in
  let n100 := (n `div` 36524)%N in
  let n := (n `mod` 36524)%N in
  let n4 := (n `div` 1461)%N in
  let n := (n `mod` 1461)%N in
  let n1 := (n `div` 365)%N in
  let n := (n `mod` 365)%N in
  let y := (n400 * 400 + 1 + n100 * 100 + n4 * 4 + n1)%N in
  if bool_decide (n1 = 4%N) || bool_decide (n100 = 4%N)
  then ((y - 1)%N, 12%N, 31%N)
  else
    let '(m, d) := month_of y (N.of_nat <$> seq 1 11) n in
    (y, m, d).

(** [datetime.fromtimestamp(x, tz=timezone.utc)]: the fraction of [x] is
    scaled to microseconds and rounded to even, the seconds are split by
    [gmtime]; a year outside 1 ... 9999 is an error. *)
Definition fromtimestamp (x : float) : Result datetime :=
  intpart ← int_of_float x;
  let frac := float_sub x (float_of_int intpart) in
  us ← round_half_even (float_mul frac (float_of_int 1000000));
  let '(sec, us) :=
    if (1000000 <=? us)%Z then ((intpart + 1)%Z, (us - 1000000)%Z)
    else if (us <? 0)%Z then ((intpart - 1)%Z, (us + 1000000)%Z)
    else (intpart, us) in
  let days := (sec `div` 86400 + 719163)%Z in
  let rest := (sec `mod` 86400)%Z in
  if (1 <=? days)%Z && (days <=? 3652059)%Z then
    let '(y, m, d) := ord2ymd (Z.to_N days) in
    Ok {| year := y; month := m; day := d;
          hour := Z.to_N (rest `div` 3600);
          minute := Z.to_N ((rest `mod` 3600) `div` 60);
          second := Z.to_N (rest `mod` 60);
          microsecond := Z.to_N us |}
  else Raise ValueError.

Definition lib : PyLib :=
  Build_PyLib urlparse parse_qs lower fromisoformat fromtimestamp.

End Py.

(** ** Sample inputs *)
Module Sample.

Definition visit (u t ts : string) : VisitRecord :=
  {| url := u; title := t; timestamp := ts;
     domain := try_except (extract_domain (pylib := Py.lib) u) "";
     transition_type := "link"; transition_qualifiers := [];
     transition_raw := 0; source := None |}.

(** Two urls visited twice each, the one seen first being the later one in
    alphabetical order, and a search. *)
Definition records : list VisitRecord :=
  [ visit "https://z.example/" "Z first" "2024-01-01T10:00:00Z";
    visit "https://a.example/" "" "2024-01-01T11:30:00Z";
    visit "https://a.example/" "A first" "2024-01-01T15:00:00Z";
    visit "https://z.example/" "Z later" "2024-01-02T09:00:00Z";
    visit "https://search.brave.com/search?q=rust" "" "2024-01-02T09:05:00Z" ].

Definition period_start : datetime :=
  {| year := 2023; month := 12; day := 15; hour := 12; minute := 0;
     second := 0; microsecond := 0 |}.

Definition period_end : datetime :=
  {| year := 2024; month := 1; day := 5; hour := 12; minute := 0;
     second := 0; microsecond := 0 |}.

(** The aggregate of [records]. *)
Definition aggregate : Aggregate :=
  {| agg_period := "2023-12-15 to 2024-01-05";
     agg_total_visits := 5;
     agg_unique_urls := 3;
     agg_top_domains :=
       [("z.example", 2); ("a.example", 2); ("search.brave.com", 1)];
     agg_top_urls :=
       [ {| tu_url := "https://z.example/"; tu_visit_count := 2;
            tu_title := Some "Z first" |};
         {| tu_url := "https://a.example/"; tu_visit_count := 2;
            tu_title := Some "A first" |};
         {| tu_url := "https://search.brave.com/search?q=rust";
            tu_visit_count := 1; tu_title := None |} ];
     agg_daily_summary :=
       [ {| ds_date := "2024-01-01"; ds_visits := 3; ds_unique_urls := 2 |};
         {| ds_date := "2024-01-02"; ds_visits := 2; ds_unique_urls := 2 |} ];
     agg_hourly_distribution :=
       [0; 0; 0; 0; 0; 0; 0; 0; 0; 2; 1; 1; 0; 0; 0; 1; 0; 0; 0; 0; 0; 0; 0; 0];
     agg_weekday_distribution :=
       [("Mon", 3); ("Tue", 2); ("Wed", 0); ("Thu", 0); ("Fri", 0);
        ("Sat", 0); ("Sun", 0)];
     agg_top_search_queries := [("rust", 1)] |}.

(** Two instants one microsecond apart. *)
Definition instant : datetime :=
  {| year := 2024; month := 1; day := 1; hour := 10; minute := 0;
     second := 0; microsecond := 0 |}.

Definition next_instant : datetime :=
  {| year := 2024; month := 1; day := 1; hour := 10; minute := 0;
     second := 0; microsecond := 1 |}.

(** 51 records, each with a url of its own. *)
Definition many_records : list VisitRecord :=
  (λ n : nat, visit ("https://example.com/" +:+ pretty n) ""
                "2024-01-01T10:00:00Z") <$> seq 0 51.

(** The same url visited once under each of two sources on one date. *)
Definition daily_sources : list DailySource :=
  [ ("vivaldi",
     Some [ {| dp_date := "2024-01-01"; dp_total_visits := 2;
               dp_unique_urls := 2;
               dp_visits :=
                 [ visit "https://x.example/" "X" "2024-01-01T10:00:00Z";
                   visit "https://y.example/" "Y" "2024-01-01T11:00:00Z" ] |} ]);
    ("chrome",
     Some [ {| dp_date := "2024-01-01"; dp_total_visits := 1;
               dp_unique_urls := 1;
               dp_visits :=
                 [ visit "https://x.example/" "X" "2024-01-01T12:00:00Z" ] |} ]);
    ("brave", None) ].

End Sample.

(** ** Further notions used to state what the scripts compute *)

(** The date a record is filed under: [r["timestamp"][:10]]. *)
Definition record_date (r : VisitRecord) : string :=
  String.substring 0 10 (timestamp r).

(** The order of [sorted] on distinct strings. *)
Definition str_lt (a b : string) : Prop := String.le a b ∧ a ≠ b.

(** The total that a merged counter holds for a key: the counts of the
    items of that key, added up. *)
Definition weight_of (k : string) (items : list (string * nat)) : nat :=
  sum_list (snd <$> filter (λ it, it.1 = k) items).

(** [full] lists every key of [items] once, with its total, by descending
    total, ties broken by the position of the first item of the key. *)
Definition merged_ranking (items full : list (string * nat)) : Prop :=
  NoDup full.*1
  ∧ (∀ k c, (k, c) ∈ full ↔ k ∈ items.*1 ∧ c = weight_of k items)
  ∧ StronglySorted (ranks_before (Some <$> items.*1)) full.

(** What holds of a counter to which the items were added in order. *)
Definition merged_inv (items : list (string * nat)) (ctr : Counter) : Prop :=
  NoDup ctr.*1
  ∧ (∀ k, k ∈ ctr.*1 ↔ k ∈ items.*1)
  ∧ (∀ k, counter_get k ctr = weight_of k items)
  ∧ StronglySorted
      (λ a b, first_seen a (Some <$> items.*1)
              < first_seen b (Some <$> items.*1)) ctr.*1.

Section ExporterNotions.
Context {pylib : PyLib}.

(** The hour and the weekday a record is counted under, when its timestamp
    is accepted. *)
Definition record_hour (r : VisitRecord) : option nat :=
  match record_datetime r with
  | Ok dt => Some (N.to_nat (hour dt))
  | Raise _ => None
  end.

Definition record_weekday (r : VisitRecord) : option nat :=
  match record_datetime r with
  | Ok dt => Some (weekday dt)
  | Raise _ => None
  end.

End ExporterNotions.

(** The (url, count) pairs of the [top_urls] entries the merge counts: the
    entries with a non-empty url. *)
Definition url_items (items : list TopUrl) : list (string * nat) :=
  filter (λ it, nonempty it.1) ((λ tu, (tu_url tu, tu_visit_count tu)) <$> items).

(** The (query, count) pairs the merge counts. *)
Definition query_items (items : list (string * nat)) : list (string * nat) :=
  filter (λ it, nonempty it.1) items.

(** The non-empty title an entry carries for the url [u], if any. *)
Definition title_for (u : string) (item : TopUrl) : option string :=
  if decide (tu_url item = u) then
    match tu_title item with
    | Some t => if nonempty t then Some t else None
    | None => None
    end
  else None.

(** The first non-empty title listed for [u]. *)
Definition listed_title (u : string) (items : list TopUrl) : option string :=
  head (omap (title_for u) items).

(** Every visit that [merge_daily] reads: the visits of all the payloads of
    all the sources that have a [daily] directory. *)
Definition input_visits (sources : list DailySource) : list VisitRecord :=
  src ← sources; payload ← default [] src.2; dp_visits payload.

(** ** The input for the language model *)

(** An entry of [daily_summaries] in [llm_input.json]; [le_date] is what
    [entry.get("date")] gives, [None] for an entry without a date. *)
Record LlmEntry := {
  le_date : option string;
  le_urls_visited : list string;
  le_titles : list string;
  le_top_domains : list string }.

(** [list({x for x in l})]: the distinct elements of [l], in an order that
    the language leaves open. *)
Class SetOrder := {
  list_of_set : list string → list string;
  list_of_set_NoDup l : NoDup (list_of_set l);
  list_of_set_elem l x : x ∈ list_of_set l ↔ x ∈ l }.

(** One such order: that of the first occurrences. *)
Definition first_occurrence_order : SetOrder :=
  {| list_of_set := remove_dups;
     list_of_set_NoDup := NoDup_remove_dups;
     list_of_set_elem l x := elem_of_remove_dups l x |}.

Section LlmExporter.
Context {order : SetOrder}.

Definition build_llm_input (by_date : gmap string (list VisitRecord))
    : list LlmEntry :=
  (λ dv : string * list VisitRecord,
     let visits := dv.2 in
     let urls := list_of_set (filter (λ u, nonempty u) (url <$> visits)) in
     let titles := list_of_set (filter (λ t, nonempty t) (title <$> visits)) in
     let domain_counts :=
       counter_of (filter (λ d, nonempty d) (domain <$> visits)) in
     let top_domains := (most_common 10 domain_counts).*1 in
     {| le_date := Some dv.1;
        le_urls_visited := urls;
        le_titles := titles;
        le_top_domains := top_domains |})
    <$> sorted_items by_date.

End LlmExporter.

(** The bucket that [merge_llm_input] keeps for a date. *)
Record LlmBucket := {
  lb_urls : gset string;
  lb_titles : gset string;
  lb_domains : Counter }.

(** The [defaultdict] factory. *)
Definition llm_bucket_new : LlmBucket :=
  {| lb_urls := ∅; lb_titles := ∅; lb_domains := [] |}.

(** The two [update]s and the counting loop for one entry. *)
Definition llm_bucket_add (b : LlmBucket) (entry : LlmEntry) : LlmBucket :=
  {| lb_urls := lb_urls b ∪ list_to_set (le_urls_visited entry);
     lb_titles := lb_titles b ∪ list_to_set (le_titles entry);
     lb_domains :=
       foldl (λ ctr d, counter_add d 1 ctr) (lb_domains b)
             (le_top_domains entry) |}.

Definition llm_load_entry (by_date : gmap string LlmBucket)
    (entry : LlmEntry) : gmap string LlmBucket :=
  match le_date entry with
  | Some date =>
      if nonempty date
      then <[date := llm_bucket_add (default llm_bucket_new (by_date !! date))
                                    entry]> by_date
      else by_date
  | None => by_date
  end.

(** A source of [merge_llm_input]: the [daily_summaries] of its
    [llm_input.json], or [None] when it has no such file. *)
Definition llm_load_source (by_date : gmap string LlmBucket)
    (src : option (list LlmEntry)) : gmap string LlmBucket :=
  match src with
  | None => by_date
  | Some entries => foldl llm_load_entry by_date entries
  end.

(** [sorted(s)] on a set of strings. *)
Definition sorted_set (s : gset string) : list string :=
  merge_sort String.le (elements s).

Definition merge_llm_input (sources : list (option (list LlmEntry)))
    : list LlmEntry :=
  let by_date := foldl llm_load_source ∅ sources in
  (λ db : string * LlmBucket,
     {| le_date := Some db.1;
        le_urls_visited := sorted_set (lb_urls db.2);
        le_titles := sorted_set (lb_titles db.2);
        le_top_domains := (most_common 10 (lb_domains db.2)).*1 |})
    <$> sorted_items by_date.

(** The entries that [merge_llm_input] reads, and those of a date. *)
Definition llm_entries (sources : list (option (list LlmEntry)))
    : list LlmEntry :=
  src ← sources; default [] src.

Definition dated (d : string) (entries : list LlmEntry) : list LlmEntry :=
  filter (λ e, le_date e = Some d) entries.

(** Two sources that list the same date, and one without [llm_input.json]. *)
Definition sample_llm_sources : list (option (list LlmEntry)) :=
  [ Some [ {| le_date := Some "2024-01-01";
              le_urls_visited := ["https://b.example/"; "https://a.example/"];
              le_titles := ["B"];
              le_top_domains := ["b.example"; "a.example"] |};
           {| le_date := None;
              le_urls_visited := ["https://lost.example/"];
              le_titles := [];
              le_top_domains := ["lost.example"] |} ];
    None;
    Some [ {| le_date := Some "2024-01-01";
              le_urls_visited := ["https://a.example/"; "https://c.example/"];
              le_titles := ["A"; "B"];
              le_top_domains := ["a.example"; "c.example"] |} ] ].

Definition sample_llm_merged : LlmEntry :=
  {| le_date := Some "2024-01-01";
     le_urls_visited :=
       ["https://a.example/"; "https://b.example/"; "https://c.example/"];
     le_titles := ["A"; "B"];
     le_top_domains := ["a.example"; "b.example"; "c.example"] |}.

(** ** RecordNormalizer: [build_records]

    A row is [dict(r)] for an [sqlite3.Row] of the join of [urls] and
    [visits]: the column aliases [url_<c>] and [visit_<c>] mapped to their
    values.  The history database declares its columns INTEGER or
    LONGVARCHAR, so a value is [None], an [int] or a [str]. *)
Inductive PyVal : Type :=
| PNone
| PInt (z : Z)
| PStr (s : string).

Definition Row : Type := gmap string PyVal.

(** [r.get(k)] *)
Definition row_get (r : Row) (k : string) : PyVal := default PNone (r !! k).

(** Truth value of a row value, and [v or d]. *)
Definition val_truthy (v : PyVal) : bool :=
  match v with
  | PNone => false
  | PInt z => truthy z
  | PStr s => nonempty s
  end.

Definition val_or (v d : PyVal) : PyVal := if val_truthy v then v else d.

(** What building a record can raise: what the library calls raise, and
    [TypeError] where an operand of [/] or [&] is not an [int]. *)
Inductive RowExn : Type :=
| TypeError
| Library (e : Exn).

Inductive Outcome (A : Type) : Type :=
| Built (a : A)
| Fails (e : RowExn).
Arguments Built {A} a.
Arguments Fails {A} e.

Global Instance Outcome_ret : MRet Outcome := λ A a, Built a.
Global Instance Outcome_bind : MBind Outcome := λ A B k m,
  match m with
  | Built a => k a
  | Fails e => Fails e
  end.

Definition lift {A} (m : Result A) : Outcome A :=
  match m with
  | Ok a => Built a
  | Raise e => Fails (Library e)
  end.

(** An operand that has to be an [int]. *)
Definition as_int (v : PyVal) : Outcome Z :=
  match v with
  | PInt z => Built z
  | _ => Fails TypeError
  end.

(** [s.replace(old, new)] for a non-empty [old]: the occurrences of [old]
    are found from the left and do not overlap; [skip] counts the
    characters of an occurrence still to be passed over. *)
Fixpoint replace_from (old new : string) (skip : nat) (s : string) : string :=
  match s with
  | EmptyString => EmptyString
  | String a s' =>
      match skip with
      | S k => replace_from old new k s'
      | 0 =>
          if String.prefix old s
          then new +:+ replace_from old new (String.length old - 1) s'
          else String a (replace_from old new 0 s')
      end
  end.

Definition replace (old new s : string) : string := replace_from old new 0 s.

(** [dt.isoformat()] of a UTC [datetime]: the microseconds are printed
    unless they are 0. *)
Definition isoformat (dt : datetime) : string :=
  format_date dt +:+ "T" +:+ zfill 2 (pretty (hour dt))
    +:+ ":" +:+ zfill 2 (pretty (minute dt))
    +:+ ":" +:+ zfill 2 (pretty (second dt))
    +:+ (if decide (microsecond dt = 0%N) then ""
         else "." +:+ zfill 6 (pretty (microsecond dt)))
    +:+ "+00:00".

(** [dt.isoformat().replace("+00:00", "Z")] *)
Definition iso_z (dt : datetime) : string := replace "+00:00" "Z" (isoformat dt).

(** A record as [build_records] emits it; [er_extra_metadata] is [None] when
    the record has no such key. *)
Record ExportRecord := {
  er_url : PyVal;
  er_title : PyVal;
  er_timestamp : string;
  er_domain : string;
  er_visit_count : PyVal;
  er_typed_count : PyVal;
  er_hidden : PyVal;
  er_last_visit_time : option string;
  er_from_visit : PyVal;
  er_transition_type : string;
  er_transition_qualifiers : list string;
  er_transition_raw : PyVal;
  er_visit_id : PyVal;
  er_url_id : PyVal;
  er_visit_time_raw : PyVal;
  er_last_visit_time_raw : PyVal;
  er_extra_metadata : option (gmap string PyVal) }.

(** The keys of the dict literal [record]. *)
Definition record_keys : list string :=
  [ "url"; "title"; "timestamp"; "domain"; "visit_count"; "typed_count";
    "hidden"; "last_visit_time"; "from_visit"; "transition_type";
    "transition_qualifiers"; "transition_raw"; "visit_id"; "url_id";
    "visit_time_raw"; "last_visit_time_raw" ].

(** [for c in cols: key = f"{prefix}{c}"; if key not in record and key in r:
    extra[key] = r[key]] *)
Fixpoint extra_loop (prefix : string) (r : Row) (cols : list string)
    (extra : gmap string PyVal) : Outcome (gmap string PyVal) :=
  match cols with
  | [] => mret extra
  | c :: cols' =>
      let key := prefix +:+ c in
      if negb (bool_decide (key ∈ record_keys)) && dict_contains r key
      then v ← lift (dict_getitem r key);
           extra_loop prefix r cols' (<[key := v]> extra)
      else extra_loop prefix r cols' extra
  end.

Section RecordBuilder.
Context {pylib : PyLib}.

(** [chrome_time_to_datetime] and [decode_transition] on a row value. *)
Definition chrome_time_of (v : PyVal) : Outcome datetime :=
  z ← as_int v; lift (chrome_time_to_datetime z).

Definition decode_transition_of (v : PyVal) : Outcome (string * list string) :=
  z ← as_int v; mret (decode_transition z).

(** [extract_domain] on a row value: [urlparse] raises on an [int], and the
    handler turns that into the empty string. *)
Definition extract_domain_of (v : PyVal) : Outcome string :=
  match v with
  | PStr s => lift (extract_domain s)
  | _ => mret ""
  end.

Definition build_record (url_cols visit_cols : list string) (r : Row)
    : Outcome ExportRecord :=
  let url := val_or (row_get r "url_url") (PStr "") in
  let title := val_or (row_get r "url_title") (PStr "") in
  let visit_time_raw := val_or (row_get r "visit_visit_time") (PInt 0) in
  let last_visit_raw := val_or (row_get r "url_last_visit_time") (PInt 0) in
  visit_dt ← chrome_time_of visit_time_raw;
  last_visit_dt ←
    (if val_truthy last_visit_raw
     then dt ← chrome_time_of last_visit_raw; mret (Some dt)
     else mret None);
  let transition_raw := val_or (row_get r "visit_transition") (PInt 0) in
  decoded ← decode_transition_of transition_raw;
  domain ← extract_domain_of url;
  extra ← extra_loop "url_" r url_cols ∅;
  extra ← extra_loop "visit_" r visit_cols extra;
  mret {| er_url := url;
          er_title := title;
          er_timestamp := iso_z visit_dt;
          er_domain := domain;
          er_visit_count := row_get r "url_visit_count";
          er_typed_count := row_get r "url_typed_count";
          er_hidden := row_get r "url_hidden";
          er_last_visit_time := iso_z <$> last_visit_dt;
          er_from_visit := row_get r "visit_from_visit";
          er_transition_type := decoded.1;
          er_transition_qualifiers := decoded.2;
          er_transition_raw := transition_raw;
          er_visit_id := row_get r "visit_id";
          er_url_id := row_get r "url_id";
          er_visit_time_raw := visit_time_raw;
          er_last_visit_time_raw := last_visit_raw;
          er_extra_metadata :=
            if decide (extra = ∅) then None else Some extra |}.

Fixpoint build_records (rows : list Row) (url_cols visit_cols : list string)
    : Outcome (list ExportRecord) :=
  match rows with
  | [] => mret []
  | r :: rows' =>
      record ← build_record url_cols visit_cols r;
      records ← build_records rows' url_cols visit_cols;
      mret (record :: records)
  end.

End RecordBuilder.

(** The record as the later stages read it, when its url and its title are
    strings. *)
Definition as_visit (rec : ExportRecord) : option VisitRecord :=
  match er_url rec, er_title rec, er_transition_raw rec with
  | PStr u, PStr t, PInt z =>
      Some {| url := u; title := t; timestamp := er_timestamp rec;
              domain := er_domain rec;
              transition_type := er_transition_type rec;
              transition_qualifiers := er_transition_qualifiers rec;
              transition_raw := z; source := None |}
  | _, _, _ => None
  end.

(** [k] is the alias [f"{prefix}{c}"] of one of the columns. *)
Definition prefixed (prefix : string) (cols : list string) (k : string)
    : Prop :=
  k ∈ String.append prefix <$> cols.
Global Instance prefixed_dec (prefix : string) (cols : list string)
    (k : string) : Decision (prefixed prefix cols k).
Proof. unfold prefixed. apply _. Defined.

(** No character of [s] is [+] or [Z]. *)
Fixpoint sign_free (s : string) : Prop :=
  match s with
  | EmptyString => True
  | String a s' => a ≠ "+"%char ∧ a ≠ "Z"%char ∧ sign_free s'
  end.

Section RecordBuilderNotions.
Context {pylib : PyLib}.

(** A row value that [chrome_time_to_datetime] turns into a [datetime]. *)
Definition converts (v : PyVal) (dt : datetime) : Prop :=
  ∃ z, v = PInt z ∧ chrome_time_to_datetime z = Ok dt.

(** A row that [build_records] gets through: its visit time, with 0 for a
    missing one, converts; so does its last visit time unless it is missing
    or 0; its transition is no text. *)
Definition row_builds (r : Row) : Prop :=
  (∃ dt, converts (val_or (row_get r "visit_visit_time") (PInt 0)) dt)
  ∧ (val_truthy (row_get r "url_last_visit_time") = true →
     ∃ dt, converts (row_get r "url_last_visit_time") dt)
  ∧ (∀ s, row_get r "visit_transition" = PStr s → s = "").

End RecordBuilderNotions.

(** A row of the join, with the columns of the two tables. *)
Definition sample_url_cols : list string :=
  ["id"; "url"; "title"; "visit_count"; "typed_count"; "last_visit_time";
   "hidden"].

Definition sample_visit_cols : list string :=
  ["id"; "url"; "visit_time"; "from_visit"; "transition"; "segment_id";
   "visit_duration"].

Definition sample_row : Row :=
  list_to_map
    [ ("url_id", PInt 7); ("url_url", PStr "https://A.example/page");
      ("url_title", PNone); ("url_visit_count", PInt 3);
      ("url_typed_count", PInt 0);
      ("url_last_visit_time", PInt 13348576800500000);
      ("url_hidden", PInt 0);
      ("visit_id", PInt 11); ("visit_url", PInt 7);
      ("visit_visit_time", PInt 13348576800000000);
      ("visit_from_visit", PInt 0); ("visit_transition", PInt 0x30000001);
      ("visit_segment_id", PInt 0); ("visit_visit_duration", PInt 0) ]%Z.

Definition sample_instant : datetime :=
  {| year := 2024; month := 1; day := 1; hour := 10; minute := 0;
     second := 0; microsecond := 0 |}.

Definition sample_record : ExportRecord :=
  {| er_url := PStr "https://A.example/page";
     er_title := PStr "";
     er_timestamp := "2024-01-01T10:00:00Z";
     er_domain := "a.example";
     er_visit_count := PInt 3;
     er_typed_count := PInt 0;
     er_hidden := PInt 0;
     er_last_visit_time := Some "2024-01-01T10:00:00.500000Z";
     er_from_visit := PInt 0;
     er_transition_type := "typed";
     er_transition_qualifiers := ["is_redirect"; "from_address_bar"];
     er_transition_raw := PInt 0x30000001;
     er_visit_id := PInt 11;
     er_url_id := PInt 7;
     er_visit_time_raw := PInt 13348576800000000;
     er_last_visit_time_raw := PInt 13348576800500000;
     er_extra_metadata :=
       Some (list_to_map
         [ ("url_url", PStr "https://A.example/page"); ("url_title", PNone);
           ("url_visit_count", PInt 3); ("url_typed_count", PInt 0);
           ("url_last_visit_time", PInt 13348576800500000);
           ("url_hidden", PInt 0); ("visit_url", PInt 7);
           ("visit_visit_time", PInt 13348576800000000);
           ("visit_from_visit", PInt 0);
           ("visit_transition", PInt 0x30000001);
           ("visit_segment_id", PInt 0);
           ("visit_visit_duration", PInt 0) ]) |}%Z.

Definition sample_visit : VisitRecord :=
  {| url := "https://A.example/page"; title := "";
     timestamp := "2024-01-01T10:00:00Z"; domain := "a.example";
     transition_type := "typed";
     transition_qualifiers := ["is_redirect"; "from_address_bar"];
     transition_raw := 0x30000001; source := None |}.

(** * Properties *)

(** ** The result monad *)

Lemma bind_Ok {A B} (m : Result A) (k : A → Result B) (b : B) :
  m ≫= k = Ok b ↔ ∃ a, m = Ok a ∧ k a = Ok b.
Proof.
  destruct m as [a|e]; simpl; split.
  - intros Hk. by exists a.
  - by intros (a' & [= <-] & Hk).
  - intros [=].
  - by intros (a' & [=] & _).
Qed.

Lemma mapM_Ok {A B} (f : A → Result B) (l : list A) (k : list B) :
  mapM f l = Ok k ↔ Forall2 (λ x y, f x = Ok y) l k.
Proof.
  revert k. induction l as [|x l IH]; intros k; simpl.
  - split; [intros [= <-]; constructor | by inversion 1].
  - rewrite bind_Ok. split.
    + intros (y & Hy & Hrest). apply bind_Ok in Hrest as (ys & Hys & [= <-]).
      constructor; [done | by apply IH].
    + inversion 1 as [|? y ? ys Hy Hys]; subst. exists y. split; [done|].
      apply bind_Ok. exists ys. split; [by apply IH | done].
Qed.

(** ** TimestampConverter *)

(** Around 2024 the sum [unix_ts + 11_644_473_600] lies between [2^33] and
    [2^34], where binary64 numbers are [2^-19] s (1.9 microseconds) apart, and
    the product lies between [2^53] and [2^54], where they are the even
    integers: two instants one microsecond apart get the same raw value. *)
Lemma datetime_to_chrome_time_collision :
  datetime_to_chrome_time Sample.instant = Ok 13348576800000000%Z
  ∧ datetime_to_chrome_time Sample.next_instant = Ok 13348576800000000%Z.
Proof. split; vm_compute; reflexivity. Qed.

(** C2: the round trip is not exact.  The instant 2024-01-01T10:00:00.000001Z
    and the instant one microsecond before it are converted to the same raw
    value, so whatever [datetime.fromtimestamp] returns, converting back
    cannot give both instants; with CPython's [fromtimestamp] the round trip
    of 2024-01-01T10:00:00.000001Z returns 2024-01-01T10:00:00Z. *)
Theorem chrome_time_round_trip_not_exact :
  (∀ pylib : PyLib,
     ¬ ((datetime_to_chrome_time Sample.instant
           ≫= chrome_time_to_datetime (pylib := pylib)) = Ok Sample.instant
        ∧ (datetime_to_chrome_time Sample.next_instant
             ≫= chrome_time_to_datetime (pylib := pylib))
          = Ok Sample.next_instant))
  ∧ (datetime_to_chrome_time Sample.next_instant
       ≫= chrome_time_to_datetime (pylib := Py.lib)) = Ok Sample.instant
  ∧ Sample.instant ≠ Sample.next_instant.
Proof.
  destruct datetime_to_chrome_time_collision as [H0 H1].
  split; [|split].
  - intros pylib [Hback0 Hback1]. rewrite H0 in Hback0. rewrite H1 in Hback1.
    rewrite Hback0 in Hback1. discriminate Hback1.
  - rewrite H1. vm_compute. reflexivity.
  - discriminate.
Qed.

(** ** TransitionDecoder *)

Lemma core_is_low_byte (t : Z) : Z.land t 255 = (t `mod` 256)%Z.
Proof. apply (Z.land_ones t 8). lia. Qed.

Lemma core_map_named (i : nat) (name : string) :
  core_names !! i = Some name → core_map !! Z.of_nat i = Some name.
Proof.
  intros Hi. do 11 (destruct i as [|i]; [by injection Hi as <- |]).
  discriminate Hi.
Qed.

Lemma core_map_unknown (c : Z) : (10 < c)%Z → core_map !! c = None.
Proof.
  intros Hc. apply not_elem_of_list_to_map. simpl.
  rewrite !elem_of_cons, elem_of_nil. lia.
Qed.

Lemma core_names_not_unknown (name s : string) :
  name ∈ core_names → name ≠ "unknown_" +:+ s.
Proof.
  unfold core_names. rewrite !elem_of_cons, elem_of_nil.
  intros H; repeat (destruct H as [->|H]; [discriminate|]). done.
Qed.

Lemma category_cases (t : Z) :
  (∃ i name, core_names !! i = Some name ∧ (t `mod` 256)%Z = Z.of_nat i
             ∧ (decode_transition t).1 = name)
  ∨ ((10 < t `mod` 256)%Z
     ∧ (decode_transition t).1 = "unknown_" +:+ pretty (t `mod` 256)%Z).
Proof.
  unfold decode_transition. simpl.
  rewrite core_is_low_byte.
  pose proof (Z.mod_pos_bound t 256 eq_refl) as Hb.
  destruct (decide (t `mod` 256 ≤ 10)%Z) as [Hle|Hgt].
  - left. assert (is_Some (core_names !! Z.to_nat (t `mod` 256))) as [name Hn].
    { apply lookup_lt_is_Some. simpl. lia. }
    exists (Z.to_nat (t `mod` 256)), name. split; [done|]. split; [lia|].
    apply core_map_named in Hn. rewrite Z2Nat.id in Hn by lia. by rewrite Hn.
  - right. split; [lia|]. rewrite core_map_unknown by lia. done.
Qed.

(** C5: for every 32-bit transition code the category is decided by the low
    8 bits: cores 0 to 10 give the eleven fixed names in table order, every
    other core [c] gives [unknown_<c>] with [c] in decimal, and the numeric
    value is preserved (two codes with the same unknown category have the same
    core, and no unknown category collides with a named one). *)
Theorem decode_transition_category (t : Z) :
  (0 ≤ t < 2 ^ 32)%Z →
  let core := (t `mod` 256)%Z in
  (∀ i name, core_names !! i = Some name → core = Z.of_nat i →
     (decode_transition t).1 = name)
  ∧ ((10 < core)%Z → (decode_transition t).1 = "unknown_" +:+ pretty core)
  ∧ (∀ t', (10 < core)%Z →
       (decode_transition t').1 = (decode_transition t).1 →
       (t' `mod` 256)%Z = core).
Proof.
  intros _ core. subst core. split; [|split].
  - intros i name Hi Hcore.
    destruct (category_cases t) as [(j & n & Hj & Hc & ->)|[Hgt _]].
    + assert (i = j) as -> by lia. congruence.
    + apply lookup_lt_Some in Hi. simpl in Hi. lia.
  - intros Hgt. destruct (category_cases t) as [(j & n & Hj & Hc & _)|[_ ->]]; [|done].
    apply lookup_lt_Some in Hj. simpl in Hj. lia.
  - intros t' Hgt Heq.
    destruct (category_cases t) as [(j & n & Hj & Hc & _)|[_ Ht]].
    { apply lookup_lt_Some in Hj. simpl in Hj. lia. }
    rewrite Ht in Heq.
    destruct (category_cases t') as [(j & n & Hj & Hc & Hn)|[_ Ht']].
    + exfalso. rewrite Hn in Heq.
      by eapply core_names_not_unknown; [eapply list_elem_of_lookup_2|].
    + rewrite Ht' in Heq. simplify_eq/=. done.
Qed.

Lemma decode_transition_category_witness :
  (decode_transition 11).1 = "unknown_11"
  ∧ (decode_transition 0x81000008).1 = "reload".
Proof.
  split.
  - apply (proj1 (proj2 (decode_transition_category 11 ltac:(lia)))).
    reflexivity.
  - apply (proj1 (decode_transition_category 0x81000008 ltac:(lia)) 8%nat);
      reflexivity.
Defined.

Lemma append_if_filter (t mask : Z) (q : string) (l : list string) :
  append_if t mask q l
  = l ++ (filter (λ mq, Z.land t mq.1 ≠ 0%Z) [(mask, q)]).*2.
Proof.
  unfold append_if, truthy. rewrite filter_cons, filter_nil. simpl.
  destruct (Z.eqb_spec (Z.land t mask) 0).
  - rewrite decide_False by tauto. by rewrite app_nil_r.
  - by rewrite decide_True.
Qed.

Lemma decode_transition_filter (t : Z) :
  (decode_transition t).2
  = (filter (λ mq, Z.land t mq.1 ≠ 0%Z) qualifier_masks).*2.
Proof.
  unfold decode_transition. cbv zeta. cbn [snd].
  rewrite !append_if_filter.
  unfold qualifier_masks.
  repeat match goal with
         | |- context [filter ?P (?x :: ?y :: ?l)] =>
             change (x :: y :: l) with ([x] ++ y :: l); rewrite (filter_app P [x])
         end.
  rewrite !fmap_app, app_nil_l, <- !app_assoc. reflexivity.
Qed.

Lemma qualifier_set_iff (t : Z) (q : string) :
  q ∈ (decode_transition t).2
  ↔ ∃ mask, (mask, q) ∈ qualifier_masks ∧ Z.land t mask ≠ 0%Z.
Proof.
  rewrite decode_transition_filter, list_elem_of_fmap. split.
  - intros ([mask q'] & -> & Hin). apply list_elem_of_filter in Hin as [Hset Hin].
    by exists mask.
  - intros (mask & Hin & Hset). exists (mask, q). split; [done|].
    by apply list_elem_of_filter.
Qed.

(** C6: for every 32-bit transition code the qualifier list is exactly the
    list of the names whose mask (0x01000000 ... 0x80000000) has a bit in
    common with the code, in the order of the mask table, which is ascending
    in the mask value; a mask is set exactly when its single bit (24 ... 31)
    is set; and the qualifiers of a combination of bits are the union of the
    qualifiers of its parts. *)
Theorem decode_transition_qualifiers (t : Z) :
  (0 ≤ t < 2 ^ 32)%Z →
  (decode_transition t).2
    = (filter (λ mq, Z.land t mq.1 ≠ 0%Z) qualifier_masks).*2
  ∧ StronglySorted Z.lt qualifier_masks.*1
  ∧ (∀ i mq, qualifier_masks !! i = Some mq →
       mq.1 = (2 ^ (24 + Z.of_nat i))%Z
       ∧ (mq.2 ∈ (decode_transition t).2
          ↔ Z.testbit t (24 + Z.of_nat i) = true))
  ∧ (∀ t1 t2 q, t = Z.lor t1 t2 →
       q ∈ (decode_transition t).2
       ↔ q ∈ (decode_transition t1).2 ∨ q ∈ (decode_transition t2).2).
Proof.
  intros _. split; [apply decode_transition_filter|]. split; [|split].
  - simpl. repeat (apply SSorted_cons; [|repeat constructor; lia]).
    constructor.
  - intros i mq Hi.
    assert (mq.1 = (2 ^ (24 + Z.of_nat i))%Z ∧
            ∀ m, (m, mq.2) ∈ qualifier_masks → m = mq.1) as [Hmask Huniq].
    { do 8 (destruct i as [|i];
            [injection Hi as <-; split; [reflexivity|];
             intros m Hm; unfold qualifier_masks in Hm;
             repeat (apply elem_of_cons in Hm as [Hm|Hm]; [by simplify_eq/=|]);
             by apply elem_of_nil in Hm|]).
      discriminate Hi. }
    split; [done|].
    assert (Z.land t mq.1 ≠ 0%Z ↔ Z.testbit t (24 + Z.of_nat i) = true) as Hbit.
    { rewrite Hmask. split.
      - intros Hne. destruct (Z.testbit t (24 + Z.of_nat i)) eqn:Hb; [done|].
        destruct Hne. apply Z.bits_inj'. intros n Hn.
        rewrite Z.land_spec, Z.bits_0.
        destruct (decide (n = 24 + Z.of_nat i)%Z) as [->|Hneq].
        + by rewrite Hb.
        + rewrite Z.pow2_bits_false by lia. apply andb_false_r.
      - intros Hb Hz. apply (f_equal (λ z, Z.testbit z (24 + Z.of_nat i))) in Hz.
        rewrite Z.land_spec, Hb, Z.bits_0, Z.pow2_bits_true in Hz by lia.
        discriminate Hz. }
    rewrite qualifier_set_iff, <- Hbit. split.
    + intros (m & Hin & Hset). by rewrite <- (Huniq m Hin).
    + intros Hset. exists mq.1. split; [|done].
      apply list_elem_of_lookup_2 with i. by destruct mq.
  - intros t1 t2 q ->. rewrite !qualifier_set_iff. split.
    + intros (m & Hin & Hset).
      rewrite Z.land_lor_distr_l in Hset.
      destruct (decide (Z.land t1 m = 0%Z)) as [H1|H1].
      * right. exists m. split; [done|]. intros H2. apply Hset.
        by apply Z.lor_eq_0_iff.
      * left. by exists m.
    + intros [(m & Hin & Hset)|(m & Hin & Hset)]; exists m; (split; [done|]);
        rewrite Z.land_lor_distr_l; intros Hz; apply Z.lor_eq_0_iff in Hz; tauto.
Qed.

Lemma decode_transition_qualifiers_witness :
  (decode_transition 0x81000000).2 = ["chain_start"; "user_gesture"].
Proof.
  rewrite (proj1 (decode_transition_qualifiers 0x81000000 ltac:(lia))).
  reflexivity.
Defined.

(** ** RecordNormalizer: domain and search query *)

Section Normalizer.
Context {pylib : PyLib}.

(** C7: domain extraction never raises: it returns the lower-cased network
    location when the url parses and the empty string when parsing raises. *)
Theorem extract_domain_never_raises (url : string) :
  (∃ d, extract_domain url = Ok d)
  ∧ (∀ p, urlparse url = Ok p →
       extract_domain url = Ok (str_lower (netloc p)))
  ∧ (∀ e, urlparse url = Raise e → extract_domain url = Ok "").
Proof.
  unfold extract_domain. split; [eauto|].
  split; [intros p Hp | intros e He]; by (rewrite Hp || rewrite He).
Qed.

Lemma extract_search_query_parsed (url : string) (p : ParseResult) :
  urlparse url = Ok p →
  extract_search_query url =
    Ok (if search_gate p
        then key ← engine_hosts !! str_lower (netloc p);
             head (default [] (parse_qs (query p) !! key))
        else None).
Proof.
  intros Hp.
  unfold extract_search_query, search_gate, dict_contains, dict_getitem.
  rewrite Hp. simpl.
  destruct (engine_hosts !! str_lower (netloc p)) as [key|]; simpl; [|done].
  destruct (_ || _); simpl; [|done].
  by destruct (parse_qs (query p) !! key) as [[|v vs]|].
Qed.

(** C3, amended: on a url that parses, extraction returns a query exactly
    when the lower-cased host is in the engine table, the lower-cased path
    contains "search" or the host starts with "duckduckgo", and the query
    string carries a value for the engine's parameter; the query returned is
    the first value of that parameter; in every other case the result is
    [None]. *)
Theorem extract_search_query_fires (url : string) (p : ParseResult) :
  urlparse url = Ok p →
  (∃ r, extract_search_query url = Ok r)
  ∧ (∀ q, extract_search_query url = Ok (Some q)
       ↔ search_gate p = true
         ∧ ∃ key values, engine_hosts !! str_lower (netloc p) = Some key
             ∧ parse_qs (query p) !! key = Some (q :: values)).
Proof.
  intros Hp. rewrite (extract_search_query_parsed url p Hp).
  split; [eauto|]. intros q. split.
  - destruct (search_gate p); [|done]. intros [= Hq]. split; [done|].
    destruct (engine_hosts !! _) as [key|]; [|done]. simpl in Hq.
    destruct (parse_qs (query p) !! key) as [[|v vs]|] eqn:Hv; simplify_eq/=.
    by exists key, vs.
  - intros (-> & key & values & -> & Hv). simpl. by rewrite Hv.
Qed.

End Normalizer.

Lemma extract_search_query_fires_witness :
  extract_search_query (pylib := Py.lib)
    "https://www.google.com/search?q=rust&q=go" = Ok (Some "rust").
Proof.
  apply (proj2 (extract_search_query_fires (pylib := Py.lib)
                  "https://www.google.com/search?q=rust&q=go"
                  {| scheme := "https"; netloc := "www.google.com";
                     path := "/search"; params := "";
                     query := "q=rust&q=go"; fragment := "" |}
                  eq_refl) "rust").
  split; [reflexivity|]. exists "q", ["go"]. split; reflexivity.
Defined.

(** The condition of C3 can hold without a query being returned: the url below is
    on an engine host and its path contains "search", but it carries no [q]
    parameter. *)
Lemma extract_search_query_gate_without_query :
  ∃ p, @urlparse Py.lib "https://www.google.com/search" = Ok p
       ∧ search_gate (pylib := Py.lib) p = true
       ∧ extract_search_query (pylib := Py.lib)
           "https://www.google.com/search" = Ok None.
Proof. eexists. repeat split; reflexivity. Qed.

(** A url that [urlparse] rejects makes [extract_search_query] raise, where
    [extract_domain] returns the empty string. *)
Lemma extract_search_query_raises :
  extract_search_query (pylib := Py.lib) "http://[" = Raise ValueError
  ∧ extract_domain (pylib := Py.lib) "http://[" = Ok "".
Proof. split; reflexivity. Qed.

(** ** Counters and ranking *)

Lemma counter_add_keys (k : string) (c : nat) (ctr : Counter) :
  (counter_add k c ctr).*1
  = if decide (k ∈ ctr.*1) then ctr.*1 else ctr.*1 ++ [k].
Proof.
  induction ctr as [|[k' c'] ctr IH]; [done|].
  cbn [counter_add]. rewrite fmap_cons. cbn [fst].
  destruct (decide (k = k')) as [->|Hne].
  - rewrite fmap_cons. cbn [fst].
    by rewrite decide_True by apply list_elem_of_here.
  - rewrite fmap_cons, IH. cbn [fst].
    destruct (decide (k ∈ ctr.*1)) as [Hin|Hnin].
    + by rewrite decide_True by by apply list_elem_of_further.
    + rewrite decide_False; [done|]. rewrite elem_of_cons. tauto.
Qed.

Lemma counter_get_add (k k' : string) (c : nat) (ctr : Counter) :
  counter_get k' (counter_add k c ctr)
  = counter_get k' ctr + (if decide (k = k') then c else 0).
Proof.
  induction ctr as [|[k0 c0] ctr IH]; simpl.
  - destruct (decide (k' = k)), (decide (k = k')); congruence.
  - destruct (decide (k = k0)) as [->|Hne]; simpl.
    + destruct (decide (k' = k0)) as [->|?].
      * by rewrite decide_True.
      * rewrite decide_False by done. lia.
    + destruct (decide (k' = k0)) as [->|?]; [|done].
      rewrite decide_False by done. lia.
Qed.

Lemma counter_get_absent (k : string) (ctr : Counter) :
  k ∉ ctr.*1 → counter_get k ctr = 0.
Proof.
  induction ctr as [|[k' c'] ctr IH]; simpl; [done|].
  rewrite not_elem_of_cons. intros [Hne Hnin].
  rewrite decide_False by done. auto.
Qed.

Lemma elem_of_counter (k : string) (c : nat) (ctr : Counter) :
  NoDup ctr.*1 → (k, c) ∈ ctr ↔ k ∈ ctr.*1 ∧ c = counter_get k ctr.
Proof.
  induction ctr as [|[k' c'] ctr IH].
  - intros _. rewrite fmap_nil, !elem_of_nil. tauto.
  - rewrite fmap_cons. cbn [fst counter_get]. rewrite NoDup_cons.
    intros [Hnin Hnd]. rewrite !elem_of_cons, (IH Hnd).
    destruct (decide (k = k')) as [->|Hne].
    + split.
      * intros [?|[Hin _]]; [simplify_eq; auto | done].
      * intros [_ ->]. by left.
    + split.
      * intros [?|[Hin ->]]; [simplify_eq | auto].
      * intros [[?|Hin] ->]; [done | auto].
Qed.

Lemma filter_nonempty_slots (l : list string) :
  filter (λ s, nonempty s) l = omap truthy_str l.
Proof.
  induction l as [|s l IH]; [done|]. rewrite filter_cons. cbn [omap list_omap].
  unfold truthy_str at 1. destruct (nonempty s); simpl; by rewrite ?IH.
Qed.

Lemma first_seen_lt (k : string) (slots : list (option string)) :
  Some k ∈ slots → first_seen k slots < length slots.
Proof.
  induction slots as [|s slots IH]; simpl.
  - by intros ?%elem_of_nil.
  - destruct (decide (s = Some k)); [lia|].
    rewrite elem_of_cons. intros [?|Hin]; [done|]. specialize (IH Hin). lia.
Qed.

Lemma first_seen_app (k : string) (slots more : list (option string)) :
  first_seen k (slots ++ more)
  = if decide (Some k ∈ slots) then first_seen k slots
    else length slots + first_seen k more.
Proof.
  induction slots as [|s slots IH]; simpl.
  - done.
  - destruct (decide (s = Some k)) as [->|Hne].
    + by rewrite decide_True by apply list_elem_of_here.
    + rewrite IH. destruct (decide (Some k ∈ slots)).
      * by rewrite decide_True by by apply list_elem_of_further.
      * rewrite decide_False; [done|]. rewrite elem_of_cons.
        intros [?|?]; [by apply Hne | done].
Qed.

Lemma times_seen_app (k : string) (slots more : list (option string)) :
  times_seen k (slots ++ more) = times_seen k slots + times_seen k more.
Proof. unfold times_seen. by rewrite filter_app, length_app. Qed.

Lemma StronglySorted_weaken {A} (R R' : A → A → Prop) (l : list A) :
  (∀ a b, a ∈ l → b ∈ l → R a b → R' a b) →
  StronglySorted R l → StronglySorted R' l.
Proof.
  induction l as [|x l IH]; intros Himp; [constructor|].
  rewrite !StronglySorted_cons. intros [Hall Hsorted]. split.
  - rewrite Forall_forall in *. intros y Hy.
    apply Himp; [apply list_elem_of_here | by apply list_elem_of_further | auto].
  - apply IH; [|done]. intros a b Ha Hb.
    apply Himp; by apply list_elem_of_further.
Qed.

Lemma counter_of_snoc (keys : list string) (k : string) :
  counter_of (keys ++ [k]) = counter_add k 1 (counter_of keys).
Proof. unfold counter_of. by rewrite foldl_app. Qed.

Lemma times_seen_singleton (k : string) (s : option string) :
  times_seen k [s] = if decide (s = Some k) then 1 else 0.
Proof.
  unfold times_seen. rewrite filter_cons, filter_nil.
  by destruct (decide (s = Some k)).
Qed.

Lemma first_seen_old (k : string) (slots more : list (option string)) :
  Some k ∈ slots → first_seen k (slots ++ more) = first_seen k slots.
Proof. intros Hin. rewrite first_seen_app. by rewrite decide_True. Qed.

Lemma counter_inv_skip (slots : list (option string)) (ctr : Counter) :
  counter_inv slots ctr → counter_inv (slots ++ [None]) ctr.
Proof.
  intros (Hnd & Hin & Hget & Hsorted). split; [done|]. split; [|split].
  - intros k. rewrite Hin, elem_of_app, list_elem_of_singleton.
    split; [auto | by intros [?|?]].
  - intros k. rewrite Hget, times_seen_app, times_seen_singleton.
    rewrite decide_False by done. lia.
  - eapply StronglySorted_weaken; [|done]. intros a b Ha Hb.
    apply Hin in Ha, Hb. by rewrite !first_seen_old.
Qed.

Lemma counter_inv_add (slots : list (option string)) (ctr : Counter)
    (x : string) :
  counter_inv slots ctr → counter_inv (slots ++ [Some x]) (counter_add x 1 ctr).
Proof.
  intros (Hnd & Hin & Hget & Hsorted).
  assert (∀ k, times_seen k (slots ++ [Some x])
               = counter_get k (counter_add x 1 ctr)) as Hcount.
  { intros k. rewrite times_seen_app, times_seen_singleton, counter_get_add, Hget.
    destruct (decide (x = k)) as [->|Hne].
    - by rewrite decide_True.
    - rewrite decide_False; [done | congruence]. }
  assert (StronglySorted
            (λ a b, first_seen a (slots ++ [Some x])
                    < first_seen b (slots ++ [Some x])) ctr.*1) as Hold.
  { eapply StronglySorted_weaken; [|done]. intros a b Ha Hb.
    apply Hin in Ha, Hb. by rewrite !first_seen_old. }
  unfold counter_inv. rewrite counter_add_keys.
  destruct (decide (x ∈ ctr.*1)) as [Hx|Hx].
  - split; [done|]. split; [|split; [done|done]].
    intros k. rewrite Hin, elem_of_app, list_elem_of_singleton.
    split; [auto|]. intros [?|[= ->]]; [done | by apply Hin].
  - split; [|split; [|split; [done|]]].
    + apply NoDup_app. split; [done|]. split; [|apply NoDup_singleton].
      intros k Hk ->%list_elem_of_singleton. done.
    + intros k. rewrite !elem_of_app, !list_elem_of_singleton, Hin.
      split; (intros [?|?]; [by left | right; congruence]).
    + apply StronglySorted_app. split; [|split; [done | repeat constructor]].
      intros a b Ha ->%list_elem_of_singleton.
      apply Hin in Ha. rewrite first_seen_old by done.
      rewrite first_seen_app, decide_False by by rewrite <- Hin.
      pose proof (first_seen_lt _ _ Ha). lia.
Qed.

Lemma counter_of_inv (slots : list (option string)) :
  counter_inv slots (counter_of (omap id slots)).
Proof.
  induction slots as [|s slots IH] using rev_ind.
  - repeat split; try constructor; by intros ?%elem_of_nil.
  - rewrite omap_app. destruct s as [x|]; simpl.
    + rewrite counter_of_snoc. by apply counter_inv_add.
    + rewrite app_nil_r. by apply counter_inv_skip.
Qed.

Lemma insert_desc_perm (x : string * nat) (l : Counter) :
  insert_desc x l ≡ₚ x :: l.
Proof.
  induction l as [|y l IH]; simpl; [done|].
  destruct (decide (x.2 < y.2)); [|done].
  by rewrite IH, Permutation_swap.
Qed.

Lemma sort_desc_perm (l : Counter) : sort_desc l ≡ₚ l.
Proof.
  induction l as [|x l IH]; simpl; [done|].
  by rewrite insert_desc_perm, IH.
Qed.

(** Inserting an item that was first seen before every item of a ranked list
    keeps the list ranked: it goes before the items of equal count. *)
Lemma insert_desc_sorted (slots : list (option string)) (x : string * nat)
    (l : Counter) :
  StronglySorted (ranks_before slots) l →
  Forall (λ y, first_seen x.1 slots < first_seen y.1 slots) l →
  StronglySorted (ranks_before slots) (insert_desc x l).
Proof.
  induction l as [|y l IH]; simpl; intros Hsorted Hfirst.
  { repeat constructor. }
  apply StronglySorted_cons in Hsorted as [Hy Hl].
  apply Forall_cons in Hfirst as [Hxy Hxl].
  destruct (decide (x.2 < y.2)) as [Hlt|Hge].
  - apply StronglySorted_cons. split; [|by apply IH].
    rewrite insert_desc_perm. constructor; [by left | done].
  - apply StronglySorted_cons. split; [|by apply StronglySorted_cons].
    constructor.
    + unfold ranks_before. destruct (decide (y.2 < x.2)); [by left | right; lia].
    + rewrite Forall_forall in *. intros z Hz.
      specialize (Hy z Hz). specialize (Hxl z Hz). unfold ranks_before in *.
      destruct (decide (z.2 < x.2)); [by left | right; lia].
Qed.

Lemma sort_desc_sorted (slots : list (option string)) (l : Counter) :
  StronglySorted (λ a b, first_seen a slots < first_seen b slots) l.*1 →
  StronglySorted (ranks_before slots) (sort_desc l).
Proof.
  induction l as [|x l IH]; simpl; [constructor|].
  rewrite StronglySorted_cons. intros [Hx Hl].
  apply insert_desc_sorted; [by apply IH|].
  rewrite sort_desc_perm. rewrite Forall_fmap in Hx. done.
Qed.

(** [most_common n] of the counter of a slot sequence is its ranking, cut
    after [n] entries. *)
Lemma most_common_ranked (slots : list (option string)) (n : nat) :
  ranked slots n (most_common n (counter_of (omap id slots))).
Proof.
  destruct (counter_of_inv slots) as (Hnd & Hin & Hget & Hsorted).
  exists (sort_desc (counter_of (omap id slots))). split; [|done].
  split; [|split].
  - by rewrite sort_desc_perm.
  - intros k c. rewrite sort_desc_perm, elem_of_counter, Hin, Hget by done.
    done.
  - by apply sort_desc_sorted.
Qed.

Lemma most_common_ranked_fmap {A} (f : A → option string) (l : list A)
    (n : nat) :
  ranked (f <$> l) n (most_common n (counter_of (omap f l))).
Proof.
  assert (omap f l = omap id (f <$> l)) as ->; [|apply most_common_ranked].
  induction l as [|x l IH]; [done|].
  rewrite fmap_cons. cbn [omap list_omap]. rewrite IH. by destruct (f x).
Qed.

(** ** Aggregator *)

Lemma nonempty_true (s : string) : nonempty s = true ↔ s ≠ "".
Proof. by destruct s. Qed.

Lemma truthy_str_Some (s k : string) :
  truthy_str s = Some k ↔ s = k ∧ k ≠ "".
Proof.
  unfold truthy_str. destruct s; simpl; split; try done.
  - by intros [<- ?].
  - by intros [= <-].
  - by intros [-> _].
Qed.

Lemma sum_list_cons (x : nat) (l : list nat) :
  sum_list (x :: l) = x + sum_list l.
Proof. done. Qed.

Lemma list_incr_sum (l l' : list nat) (i : nat) :
  list_incr l i = Ok l' →
  sum_list l' = sum_list l + 1 ∧ length l' = length l.
Proof.
  unfold list_incr, list_getitem. destruct (l !! i) as [v|] eqn:Hv; [|done].
  simpl. intros [= <-]. split; [|by rewrite length_insert].
  revert i Hv. induction l as [|x l IH]; intros [|i] Hv; simplify_eq/=.
  - lia.
  - rewrite (IH i Hv). lia.
Qed.

Lemma dict_incr_sum (k : string) (counts counts' : list (string * nat)) :
  dict_incr k counts = Ok counts' →
  sum_list counts'.*2 = sum_list counts.*2 + 1 ∧ counts'.*1 = counts.*1.
Proof.
  revert counts'. induction counts as [|[k' c] counts IH]; intros counts';
    cbn [dict_incr]; [done|].
  destruct (decide (k = k')) as [->|Hne].
  - intros [= <-]. rewrite !fmap_cons, !sum_list_cons. cbn [fst snd].
    split; [lia | done].
  - destruct (dict_incr k counts) as [rest|]; [|done].
    intros [= <-]. destruct (IH rest eq_refl) as [Hsum Hkeys].
    rewrite !fmap_cons, !sum_list_cons, Hsum, Hkeys. cbn [fst snd].
    split; [lia | done].
Qed.

Lemma omap_id_Some {A} (l : list A) : omap id (Some <$> l) = l.
Proof.
  induction l as [|x l IH]; [done|].
  rewrite fmap_cons. cbn [omap list_omap]. by rewrite IH.
Qed.

Lemma elem_of_counter_of (k : string) (c : nat) (keys : list string) :
  (k, c) ∈ counter_of keys → k ∈ keys.
Proof.
  intros Hin. destruct (counter_of_inv (Some <$> keys)) as (_ & Hkeys & _).
  rewrite omap_id_Some in Hkeys.
  assert (k ∈ (counter_of keys).*1) as Hk.
  { apply list_elem_of_fmap. by exists (k, c). }
  apply Hkeys, list_elem_of_fmap in Hk as (k' & Heq & Hk). by simplify_eq.
Qed.

Section Aggregator.
Context {pylib : PyLib}.

Lemma hourly_loop_sum (records : list VisitRecord) (hours hours' : list nat) :
  hourly_loop records hours = Ok hours' →
  sum_list hours' = sum_list hours + length records
  ∧ length hours' = length hours.
Proof.
  revert hours. induction records as [|r records IH]; intros hours; simpl.
  - intros [= <-]. split; [lia | done].
  - destruct (record_datetime r) as [dt|]; [|done]. simpl.
    destruct (list_incr hours _) as [hours1|] eqn:Hincr; [|done]. simpl.
    intros Hloop. apply IH in Hloop as [Hsum Hlen].
    apply list_incr_sum in Hincr as [Hsum1 Hlen1]. split; lia.
Qed.

Lemma weekday_loop_sum (records : list VisitRecord)
    (counts counts' : list (string * nat)) :
  weekday_loop records counts = Ok counts' →
  sum_list counts'.*2 = sum_list counts.*2 + length records
  ∧ counts'.*1 = counts.*1.
Proof.
  revert counts. induction records as [|r records IH]; intros counts; simpl.
  - intros [= <-]. split; [lia | done].
  - destruct (record_datetime r) as [dt|]; [|done]. simpl.
    destruct (list_getitem weekday_names _) as [name|]; [|done]. simpl.
    destruct (dict_incr name counts) as [counts1|] eqn:Hincr; [|done]. simpl.
    intros Hloop. apply IH in Hloop as [Hsum Hkeys].
    apply dict_incr_sum in Hincr as [Hsum1 Hkeys1].
    split; [lia | congruence].
Qed.

(** What a successful run of [build_aggregate] has computed. *)
Lemma build_aggregate_Ok (records : list VisitRecord)
    (by_date : gmap string (list VisitRecord))
    (period_start period_end : datetime) (agg : Aggregate) :
  build_aggregate records by_date period_start period_end = Ok agg →
  ∃ queries,
    Forall2 (λ r q, extract_search_query (url r) = Ok q) records queries
    ∧ hourly_distribution records = Ok (agg_hourly_distribution agg)
    ∧ weekday_distribution records = Ok (agg_weekday_distribution agg)
    ∧ agg_total_visits agg = length records
    ∧ agg_unique_urls agg = len_set (url <$> records)
    ∧ agg_top_domains agg
      = most_common 20
          (counter_of (filter (λ d, nonempty d) (domain <$> records)))
    ∧ agg_top_urls agg
      = (λ uc, {| tu_url := uc.1; tu_visit_count := uc.2;
                  tu_title := foldl title_step ∅ records !! uc.1 |})
          <$> most_common 50
                (counter_of (filter (λ u, nonempty u) (url <$> records)))
    ∧ agg_top_search_queries agg
      = most_common 50 (counter_of (omap truthy_query queries)).
Proof.
  unfold build_aggregate. intros Hrun.
  apply bind_Ok in Hrun as (queries & Hq & Hrun).
  apply bind_Ok in Hrun as (hourly & Hh & Hrun).
  apply bind_Ok in Hrun as (weekdays & Hw & [= <-]).
  exists queries. simpl. by apply mapM_Ok in Hq.
Qed.

Lemma query_slots (records : list VisitRecord) (queries : list (option string)) :
  Forall2 (λ r q, extract_search_query (url r) = Ok q) records queries →
  omap truthy_query queries = omap query_slot records.
Proof.
  induction 1 as [|r q records queries Hq _ IH]; [done|].
  cbn [omap list_omap]. unfold query_slot at 1. by rewrite Hq, IH.
Qed.

Lemma omap_fmap_slots (f : VisitRecord → string) (records : list VisitRecord) :
  omap truthy_str (f <$> records) = omap (λ r, truthy_str (f r)) records.
Proof.
  induction records as [|r records IH]; [done|].
  rewrite fmap_cons. cbn [omap list_omap]. by rewrite IH.
Qed.

Lemma top_urls_counts (titles : gmap string string) (l : Counter) :
  (λ tu, (tu_url tu, tu_visit_count tu))
    <$> ((λ uc, {| tu_url := uc.1; tu_visit_count := uc.2;
                   tu_title := titles !! uc.1 |}) <$> l) = l.
Proof.
  induction l as [|[u c] l IH]; [done|]. rewrite !fmap_cons, IH. done.
Qed.

(** C4: in the aggregate of a record sequence, [top_domains], [top_urls]
    and [top_search_queries] are the first 20, 50 and 50 entries of the full
    ranking of the domains, urls and queries of the sequence: every key
    once, with its count over all the records, by descending count, ties
    broken by the position of the first record holding the key. *)
Theorem build_aggregate_ranking (records : list VisitRecord)
    (by_date : gmap string (list VisitRecord))
    (period_start period_end : datetime) (agg : Aggregate) :
  build_aggregate records by_date period_start period_end = Ok agg →
  ranked (domain_slot <$> records) 20 (agg_top_domains agg)
  ∧ ranked (url_slot <$> records) 50
      ((λ tu, (tu_url tu, tu_visit_count tu)) <$> agg_top_urls agg)
  ∧ ranked (query_slot <$> records) 50 (agg_top_search_queries agg)
  ∧ length (agg_top_domains agg) ≤ 20
  ∧ length (agg_top_urls agg) ≤ 50
  ∧ length (agg_top_search_queries agg) ≤ 50.
Proof.
  intros Hrun.
  apply build_aggregate_Ok in Hrun
    as (queries & Hq & _ & _ & _ & _ & -> & -> & ->).
  rewrite !filter_nonempty_slots, !omap_fmap_slots, (query_slots _ _ Hq).
  rewrite top_urls_counts.
  split; [apply (most_common_ranked_fmap domain_slot)|].
  split; [apply (most_common_ranked_fmap url_slot)|].
  split; [apply (most_common_ranked_fmap query_slot)|].
  unfold most_common. rewrite length_fmap, !length_take. lia.
Qed.

Lemma title_step_lookup (records : list VisitRecord)
    (titles : gmap string string) (u : string) :
  u ≠ "" →
  foldl title_step titles records !! u
  = match titles !! u with
    | Some t => Some t
    | None => first_title u records
    end.
Proof.
  intros Hu. revert titles.
  induction records as [|r records IH]; intros titles.
  { simpl. by destruct (titles !! u). }
  cbn [foldl]. rewrite IH. unfold first_title. rewrite filter_cons.
  unfold title_step, setdefault.
  destruct (decide (url r = u ∧ title r ≠ "")) as [[Hurl Ht]|Hno].
  - rewrite (proj2 (nonempty_true (url r))) by congruence.
    rewrite (proj2 (nonempty_true (title r))) by done. simpl.
    rewrite Hurl. destruct (titles !! u) as [t|] eqn:Hl; rewrite ?Hl; [done|].
    by rewrite lookup_insert_eq.
  - destruct (nonempty (url r) && nonempty (title r)) eqn:Hb; [|done].
    apply andb_prop in Hb as [_ Ht%nonempty_true].
    destruct (titles !! url r) eqn:Hl; [done|].
    rewrite lookup_insert_ne; [done|]. intros Hurl. by apply Hno.
Qed.

Lemma first_title_at (u : string) (pre rest : list VisitRecord)
    (r : VisitRecord) :
  url r = u → title r ≠ "" →
  Forall (λ r', url r' = u → title r' = "") pre →
  first_title u (pre ++ r :: rest) = Some (title r).
Proof.
  intros Hurl Ht Hpre. unfold first_title. rewrite filter_app, filter_cons.
  rewrite decide_True by done.
  assert (filter (λ r', url r' = u ∧ title r' ≠ "") pre = []) as ->; [|done].
  induction Hpre as [|r' pre Hr' _ IH]; [done|].
  rewrite filter_cons, decide_False; [done|]. intros [? ?]. auto.
Qed.

(** C8: the title of an entry of [top_urls] is the title of the first record
    of that url, in the order of the record sequence, whose title is not
    empty; the records that follow it do not matter. *)
Theorem build_aggregate_first_title (records : list VisitRecord)
    (by_date : gmap string (list VisitRecord))
    (period_start period_end : datetime) (agg : Aggregate) :
  build_aggregate records by_date period_start period_end = Ok agg →
  ∀ tu, tu ∈ agg_top_urls agg →
    tu_title tu = first_title (tu_url tu) records
    ∧ ∀ pre r rest,
        records = pre ++ r :: rest →
        url r = tu_url tu → title r ≠ "" →
        Forall (λ r', url r' = tu_url tu → title r' = "") pre →
        tu_title tu = Some (title r).
Proof.
  intros Hrun tu Htu.
  assert (tu_title tu = first_title (tu_url tu) records) as Htitle.
  { apply build_aggregate_Ok in Hrun
      as (queries & _ & _ & _ & _ & _ & _ & Htop & _).
    rewrite Htop in Htu. apply list_elem_of_fmap in Htu as ([u c] & -> & Huc).
    cbn [tu_title tu_url fst snd]. rewrite title_step_lookup.
    { by rewrite lookup_empty. }
    apply subseteq_take in Huc. rewrite sort_desc_perm in Huc.
    apply elem_of_counter_of, list_elem_of_filter in Huc as [Hne _].
    by apply nonempty_true, Is_true_true. }
  split; [done|]. intros pre r rest -> Hurl Ht Hpre.
  rewrite Htitle. by apply first_title_at.
Qed.

End Aggregator.

Section Distributions.
Context {pylib : PyLib}.

(** C10: in the aggregate of a record sequence the 24 hourly buckets add up
    to [total_visits], and so do the 7 weekday buckets (Mon ... Sun):
    every record is counted in exactly one bucket of each. *)
Theorem build_aggregate_distributions (records : list VisitRecord)
    (by_date : gmap string (list VisitRecord))
    (period_start period_end : datetime) (agg : Aggregate) :
  build_aggregate records by_date period_start period_end = Ok agg →
  agg_total_visits agg = length records
  ∧ length (agg_hourly_distribution agg) = 24
  ∧ sum_list (agg_hourly_distribution agg) = agg_total_visits agg
  ∧ (agg_weekday_distribution agg).*1 = weekday_names
  ∧ sum_list (agg_weekday_distribution agg).*2 = agg_total_visits agg.
Proof.
  intros Hrun.
  apply build_aggregate_Ok in Hrun as (_ & _ & Hh & Hw & -> & _).
  apply hourly_loop_sum in Hh as [Hhsum Hhlen].
  apply weekday_loop_sum in Hw as [Hwsum Hwkeys].
  rewrite Hhlen, Hhsum, Hwkeys, Hwsum. done.
Qed.

Lemma weekday_lt (dt : datetime) : weekday dt < 7.
Proof.
  unfold weekday.
  pose proof (N.mod_upper_bound (toordinal dt + 6) 7). lia.
Qed.

Lemma hourly_loop_returns (records : list VisitRecord) (hours : list nat) :
  length hours = 24 →
  Forall (λ r, ∃ dt, record_datetime r = Ok dt ∧ (hour dt < 24)%N) records →
  ∃ hours', hourly_loop records hours = Ok hours'.
Proof.
  intros Hlen Hall. revert hours Hlen.
  induction Hall as [|r records (dt & Hdt & Hhour) _ IH]; intros hours Hlen.
  { by eexists. }
  simpl. rewrite Hdt. simpl. unfold list_incr, list_getitem.
  destruct (lookup_lt_is_Some_2 hours (N.to_nat (hour dt))) as [v Hv]; [lia|].
  rewrite Hv. simpl. apply IH. by rewrite length_insert.
Qed.

Lemma dict_incr_returns (k : string) (counts : list (string * nat)) :
  k ∈ counts.*1 → ∃ counts', dict_incr k counts = Ok counts'.
Proof.
  induction counts as [|[k' c] counts IH]; [by intros ?%elem_of_nil|].
  rewrite fmap_cons, elem_of_cons. cbn [fst dict_incr]. intros Hin.
  destruct (decide (k = k')) as [->|Hne]; [by eexists|].
  destruct IH as [rest ->]; [by destruct Hin|]. by eexists.
Qed.

Lemma weekday_loop_returns (records : list VisitRecord)
    (counts : list (string * nat)) :
  counts.*1 = weekday_names →
  Forall (λ r, ∃ dt, record_datetime r = Ok dt) records →
  ∃ counts', weekday_loop records counts = Ok counts'.
Proof.
  intros Hkeys Hall. revert counts Hkeys.
  induction Hall as [|r records (dt & Hdt) _ IH]; intros counts Hkeys.
  { by eexists. }
  simpl. rewrite Hdt. simpl. unfold list_getitem.
  destruct (lookup_lt_is_Some_2 weekday_names (weekday dt)) as [name Hn].
  { pose proof (weekday_lt dt). simpl. lia. }
  rewrite Hn. simpl.
  destruct (dict_incr_returns name counts) as [counts1 Hincr].
  { rewrite Hkeys. by eapply list_elem_of_lookup_2. }
  rewrite Hincr. simpl. apply IH.
  apply dict_incr_sum in Hincr as [_ ->]. done.
Qed.

(** [build_aggregate] returns an aggregate whenever every record has a url
    that [urlparse] accepts and a timestamp that [fromisoformat] accepts. *)
Lemma build_aggregate_returns (records : list VisitRecord)
    (by_date : gmap string (list VisitRecord))
    (period_start period_end : datetime) :
  Forall (λ r, ∃ p, urlparse (url r) = Ok p) records →
  Forall (λ r, ∃ dt, record_datetime r = Ok dt ∧ (hour dt < 24)%N) records →
  ∃ agg, build_aggregate records by_date period_start period_end = Ok agg.
Proof.
  intros Hurls Htimes. unfold build_aggregate.
  assert (∃ queries,
            mapM (λ r, extract_search_query (url r)) records = Ok queries)
    as [queries ->].
  { induction Hurls as [|r records (p & Hp) _ IH]; [by eexists|].
    apply Forall_cons in Htimes as [_ Htimes].
    destruct (IH Htimes) as [qs Hqs].
    eexists. simpl. rewrite (extract_search_query_parsed _ _ Hp). simpl.
    by rewrite Hqs. }
  simpl.
  destruct (hourly_loop_returns records (replicate 24 0)) as [hours Hh];
    [done | done |].
  unfold hourly_distribution. rewrite Hh. simpl.
  destruct (weekday_loop_returns records ((λ n, (n, 0)) <$> weekday_names))
    as [counts Hw]; [done | |].
  { eapply Forall_impl; [exact Htimes|]. intros r (dt & ? & _). by exists dt. }
  unfold weekday_distribution. rewrite Hw. simpl. by eexists.
Qed.

End Distributions.

(** ** MultiSourceMerger: daily buckets *)

Lemma dict_append_lookup {A} (k d : string) (x : A) (m : gmap string (list A)) :
  default [] (dict_append k x m !! d)
  = default [] (m !! d) ++ (if decide (k = d) then [x] else []).
Proof.
  unfold dict_append. destruct (decide (k = d)) as [->|Hne].
  - by rewrite lookup_insert_eq.
  - by rewrite lookup_insert_ne, app_nil_r.
Qed.

Lemma dict_append_nonempty {A} (k : string) (x : A) (m : gmap string (list A)) :
  (∀ d, m !! d ≠ Some []) → ∀ d, dict_append k x m !! d ≠ Some [].
Proof.
  intros Hm d. unfold dict_append. destruct (decide (k = d)) as [->|Hne].
  - rewrite lookup_insert_eq. intros [= Heq]. by destruct (default [] _).
  - by rewrite lookup_insert_ne.
Qed.

Lemma load_payload_lookup (name d : string) (payload : DailyPayload)
    (m : gmap string (list VisitRecord)) :
  default [] (load_payload name m payload !! d)
  = default [] (m !! d)
    ++ (if decide (dp_date payload = d)
        then tag_source name <$> dp_visits payload else []).
Proof.
  unfold load_payload. revert m.
  induction (dp_visits payload) as [|v visits IH]; intros m; simpl.
  { destruct (decide _); by rewrite app_nil_r. }
  rewrite IH, dict_append_lookup.
  destruct (decide (dp_date payload = d)); by rewrite <- ?app_assoc, ?app_nil_r.
Qed.

Lemma load_payload_nonempty (name : string) (payload : DailyPayload)
    (m : gmap string (list VisitRecord)) :
  (∀ d, m !! d ≠ Some []) → ∀ d, load_payload name m payload !! d ≠ Some [].
Proof.
  unfold load_payload. revert m.
  induction (dp_visits payload) as [|v visits IH]; intros m Hm; simpl; [done|].
  by apply IH, dict_append_nonempty.
Qed.

Lemma load_source_lookup (d : string) (src : DailySource)
    (m : gmap string (list VisitRecord)) :
  default [] (load_source m src !! d)
  = default [] (m !! d) ++ tagged_visits d [src].
Proof.
  unfold load_source, tagged_visits. destruct src as [name [files|]]; simpl.
  2:{ by rewrite app_nil_r. }
  rewrite app_nil_r. revert m.
  induction files as [|payload files IH]; intros m; simpl.
  { by rewrite app_nil_r. }
  by rewrite IH, load_payload_lookup, <- app_assoc.
Qed.

Lemma load_source_nonempty (src : DailySource)
    (m : gmap string (list VisitRecord)) :
  (∀ d, m !! d ≠ Some []) → ∀ d, load_source m src !! d ≠ Some [].
Proof.
  unfold load_source. destruct src as [name [files|]]; simpl; [|done].
  revert m. induction files as [|payload files IH]; intros m Hm; simpl; [done|].
  by apply IH, load_payload_nonempty.
Qed.

Lemma tagged_visits_cons (d : string) (src : DailySource)
    (sources : list DailySource) :
  tagged_visits d (src :: sources)
  = tagged_visits d [src] ++ tagged_visits d sources.
Proof. unfold tagged_visits. simpl. by rewrite app_nil_r. Qed.

(** The dict that [merge_daily] builds holds, per date, the concatenated
    source-tagged record list of that date, and nothing for the other dates. *)
Lemma merge_daily_by_date (sources : list DailySource) (d : string)
    (visits : list VisitRecord) :
  foldl load_source ∅ sources !! d = Some visits
  ↔ visits = tagged_visits d sources ∧ visits ≠ [].
Proof.
  assert (∀ m, (∀ d, m !! d ≠ Some []) →
    (∀ d, default [] (foldl load_source m sources !! d)
          = default [] (m !! d) ++ tagged_visits d sources)
    ∧ (∀ d, foldl load_source m sources !! d ≠ Some [])) as Hgen.
  { induction sources as [|src sources IH]; intros m Hm; cbn [foldl].
    { split; [|done]. intros d'. unfold tagged_visits. simpl.
      by rewrite app_nil_r. }
    destruct (IH (load_source m src)) as [Hl Hne];
      [by apply load_source_nonempty|].
    split; [|done]. intros d'.
    by rewrite (tagged_visits_cons d' src sources), Hl, load_source_lookup,
      app_assoc. }
  destruct (Hgen ∅) as [Hl Hne]; [intros d'; by rewrite lookup_empty|].
  specialize (Hl d). specialize (Hne d). rewrite lookup_empty in Hl. simpl in Hl.
  destruct (foldl load_source ∅ sources !! d) as [vs|]; simpl in Hl.
  - split; [intros [= <-]; split; congruence | intros [-> _]; congruence].
  - split; [done | intros [-> Hvs]; by rewrite <- Hl in Hvs].
Qed.

Lemma elem_of_sorted_items {A} (m : gmap string A) (k : string) (x : A) :
  (k, x) ∈ sorted_items m ↔ m !! k = Some x.
Proof.
  unfold sorted_items. by rewrite merge_sort_Permutation, elem_of_map_to_list.
Qed.

(** The summary lines of [merge_daily]: one per date that has visits. *)
Lemma merge_daily_summary (sources : list DailySource) (s : DailySummary) :
  s ∈ (merge_daily sources).1
  ↔ tagged_visits (ds_date s) sources ≠ []
    ∧ ds_visits s = length (tagged_visits (ds_date s) sources)
    ∧ ds_unique_urls s = merged_unique_urls (tagged_visits (ds_date s) sources).
Proof.
  unfold merge_daily. cbn [fst]. rewrite list_elem_of_fmap. split.
  - intros ([d visits] & -> & Hin). cbn [ds_date ds_visits ds_unique_urls fst snd].
    apply elem_of_sorted_items, merge_daily_by_date in Hin as [<- Hne]. done.
  - intros (Hne & Hv & Hu). exists (ds_date s, tagged_visits (ds_date s) sources).
    split.
    + destruct s as [d v u]. cbn in *. by rewrite Hv, Hu.
    + by apply elem_of_sorted_items, merge_daily_by_date.
Qed.

Lemma length_filter_split {A} (P : A → Prop) `{!∀ x, Decision (P x)}
    (l : list A) :
  length l = length (filter P l) + length (filter (λ x, ¬ P x) l).
Proof. by rewrite <- length_app, filter_app_complement. Qed.

Lemma merged_unique_urls_split (X : string) (visits : list VisitRecord) :
  X ≠ "" → (∃ v, v ∈ visits ∧ url v = X) →
  merged_unique_urls visits
  = 1 + merged_unique_urls (filter (λ v, url v ≠ X) visits).
Proof.
  intros HX (v & Hv & Hurl). unfold merged_unique_urls, len_set.
  assert (list_to_set (filter (λ u, nonempty u) (url <$> visits))
          = ({[ X ]} : gset string)
            ∪ list_to_set (filter (λ u, nonempty u)
                             (url <$> filter (λ v, url v ≠ X) visits))) as ->.
  { apply set_eq. intros u.
    rewrite elem_of_union, elem_of_singleton, !elem_of_list_to_set,
      !list_elem_of_filter, !list_elem_of_fmap.
    split.
    - intros [Hu (w & -> & Hw)].
      destruct (decide (url w = X)) as [?|Hne]; [by left | right].
      split; [done|]. exists w. split; [done|]. by apply list_elem_of_filter.
    - intros [->|[Hu (w & -> & Hw)]].
      + split; [by apply Is_true_true, nonempty_true | by exists v].
      + split; [done|]. exists w. split; [done|].
        by apply list_elem_of_filter in Hw as [_ ?]. }
  rewrite size_union, size_singleton; [done|].
  apply disjoint_singleton_l. rewrite elem_of_list_to_set, list_elem_of_filter,
    list_elem_of_fmap.
  intros [_ (w & -> & Hw)]. by apply list_elem_of_filter in Hw as [? _].
Qed.

(** C9: the per-date line of the merged daily output is computed from the
    concatenated, source-tagged record list of the date.  When a url [X] has,
    on date [d], exactly one visit under source [A] and one under source [B],
    the line of [d] exists, is the only line of that date, counts these two
    visits as 2 in [visits] and as 1 in [unique_urls], next to what the
    other visits of the date count for. *)
Theorem merge_daily_unique_urls (sources : list DailySource) (d X A B : string)
    (vA vB : VisitRecord) :
  X ≠ "" → A ≠ B →
  filter (λ v, url v = X) (tagged_visits d sources) ≡ₚ [vA; vB] →
  source vA = Some A → source vB = Some B →
  let visits := tagged_visits d sources in
  let others := filter (λ v, url v ≠ X) visits in
  ∃ s, s ∈ (merge_daily sources).1 ∧ ds_date s = d
       ∧ (∀ s', s' ∈ (merge_daily sources).1 → ds_date s' = d → s' = s)
       ∧ ds_visits s = length visits
       ∧ ds_unique_urls s = merged_unique_urls visits
       ∧ ds_visits s = 2 + length others
       ∧ ds_unique_urls s = 1 + merged_unique_urls others.
Proof.
  intros HX _ Hperm _ _. cbv zeta.
  set (visits := tagged_visits d sources) in *.
  set (others := filter (λ v, url v ≠ X) visits).
  assert (vA ∈ visits ∧ url vA = X) as [HvA HurlA].
  { assert (vA ∈ filter (λ v, url v = X) visits) as Hin.
    { rewrite Hperm. apply list_elem_of_here. }
    by apply list_elem_of_filter in Hin as [? ?]. }
  exists {| ds_date := d; ds_visits := length visits;
            ds_unique_urls := merged_unique_urls visits |}.
  split; [|split; [done|split; [|split; [done|split; [done|split]]]]].
  - apply merge_daily_summary. cbn. split; [|done].
    fold visits. intros Hnil. rewrite Hnil in HvA.
    by apply elem_of_nil in HvA.
  - intros [d' v' u'] Hs' Hd'. cbn in Hd'. subst d'.
    apply merge_daily_summary in Hs' as (_ & Hv & Hu). cbn in Hv, Hu.
    by rewrite Hv, Hu.
  - cbn. rewrite (length_filter_split (λ v, url v = X) visits).
    fold others. by rewrite Hperm.
  - cbn. apply merged_unique_urls_split; [done|]. by exists vA.
Qed.

(** ** MultiSourceMerger: the merged aggregate *)

Lemma merge_top_url_unique (items : list TopUrl) (url_counts : Counter)
    (url_to_title : gmap string string) (unique_urls : gset string) :
  (foldl merge_top_url (url_counts, url_to_title, unique_urls) items).2
  = unique_urls ∪ list_to_set (filter (λ u, nonempty u) (tu_url <$> items)).
Proof.
  revert url_counts url_to_title unique_urls.
  induction items as [|item items IH]; intros uc ut uu.
  { cbn. by rewrite union_empty_r_L. }
  cbn [foldl]. rewrite fmap_cons, filter_cons. unfold merge_top_url at 2.
  destruct (nonempty (tu_url item)); simpl.
  - by rewrite IH, (assoc_L (∪)), (comm_L (∪) uu).
  - by rewrite IH.
Qed.

Lemma merge_file_unique (st : MergeState) (data : Aggregate) :
  ms_unique_urls (merge_file st data)
  = ms_unique_urls st
    ∪ list_to_set (filter (λ u, nonempty u) (tu_url <$> agg_top_urls data)).
Proof.
  unfold merge_file.
  pose proof (merge_top_url_unique (agg_top_urls data) (ms_url_counts st)
                (ms_url_to_title st) (ms_unique_urls st)) as Hu.
  destruct (foldl merge_top_url _ _) as [[uc ut] uu]. done.
Qed.

Lemma merge_files_unique (files : list Aggregate) (st : MergeState) :
  ms_unique_urls (foldl merge_file st files)
  = ms_unique_urls st
    ∪ list_to_set (filter (λ u, nonempty u)
                     (tu_url <$> (files ≫= agg_top_urls))).
Proof.
  revert st. induction files as [|data files IH]; intros st.
  { cbn. by rewrite union_empty_r_L. }
  cbn [foldl]. rewrite IH, merge_file_unique.
  by rewrite bind_cons, fmap_app, filter_app, list_to_set_app_L, (assoc_L (∪)).
Qed.

Lemma merge_sources_unique (sources : list (list Aggregate)) (st : MergeState) :
  ms_unique_urls (foldl (λ st files, foldl merge_file st files) st sources)
  = ms_unique_urls st ∪ list_to_set (listed_urls sources).
Proof.
  unfold listed_urls. revert st.
  induction sources as [|files sources IH]; intros st.
  { cbn. by rewrite union_empty_r_L. }
  cbn [foldl concat]. rewrite IH, merge_files_unique.
  by rewrite bind_app, fmap_app, filter_app, list_to_set_app_L, (assoc_L (∪)).
Qed.

Lemma counter_of_keys (keys : list string) :
  NoDup (counter_of keys).*1 ∧ ∀ u, u ∈ (counter_of keys).*1 ↔ u ∈ keys.
Proof.
  destruct (counter_of_inv (Some <$> keys)) as (Hnd & Hkeys & _).
  rewrite omap_id_Some in Hnd, Hkeys. split; [done|].
  intros u. rewrite Hkeys, list_elem_of_fmap. split.
  - intros (u' & Heq & Hin). by simplify_eq.
  - intros Hin. by exists u.
Qed.

Section MergedAggregate.
Context {pylib : PyLib}.

(** The urls listed in [top_urls] are urls of the records; they are all of
    them when the records have at most 50 distinct non-empty urls. *)
Lemma top_urls_listed (records : list VisitRecord)
    (by_date : gmap string (list VisitRecord))
    (period_start period_end : datetime) (agg : Aggregate) :
  build_aggregate records by_date period_start period_end = Ok agg →
  (∀ u, u ∈ tu_url <$> agg_top_urls agg → u ∈ seen_urls records)
  ∧ (len_set (seen_urls records) ≤ 50 →
     ∀ u, u ∈ seen_urls records → u ∈ tu_url <$> agg_top_urls agg).
Proof.
  intros Hrun.
  apply build_aggregate_Ok in Hrun
    as (queries & _ & _ & _ & _ & _ & _ & -> & _).
  fold (seen_urls records).
  destruct (counter_of_keys (seen_urls records)) as [Hnd Hkeys].
  rewrite <- list_fmap_compose.
  assert (∀ l : Counter,
            (tu_url ∘ (λ uc, {| tu_url := uc.1; tu_visit_count := uc.2;
                tu_title := foldl title_step ∅ records !! uc.1 |})) <$> l
            = l.*1) as Hfst.
  { intros l. by apply list_fmap_ext. }
  rewrite Hfst. unfold most_common. rewrite fmap_take. split.
  - intros u Hu%subseteq_take. rewrite sort_desc_perm in Hu. by apply Hkeys.
  - intros Hsize u Hu. rewrite take_ge.
    + rewrite sort_desc_perm. by apply Hkeys.
    + rewrite sort_desc_perm. unfold len_set in Hsize.
      rewrite <- (size_list_to_set (C := gset string)) by done.
      assert ((list_to_set (counter_of (seen_urls records)).*1 : gset string)
              = list_to_set (seen_urls records)) as ->; [|done].
      apply set_eq. intros k. by rewrite !elem_of_list_to_set.
Qed.

(** C1, amended: the merged [unique_urls] is the number of distinct
    non-empty urls listed in the [top_urls] of the source aggregates, each
    url counted once whatever the number of sources that list it.  When
    every source aggregate was built from records with at most 50 distinct
    non-empty urls, this is the number of distinct non-empty urls over the
    records of all the sources. *)
Theorem merge_aggregate_unique_urls (sources : list (list Aggregate))
    (daily_summary : list DailySummary) :
  m_unique_urls (merge_aggregate sources daily_summary)
    = len_set (listed_urls sources)
  ∧ ∀ recs : list (list VisitRecord),
      Forall2 (λ agg records,
                 (∃ by_date period_start period_end,
                    build_aggregate records by_date period_start period_end
                    = Ok agg)
                 ∧ len_set (seen_urls records) ≤ 50)
              (concat sources) recs →
      m_unique_urls (merge_aggregate sources daily_summary)
      = len_set (seen_urls (concat recs)).
Proof.
  assert (m_unique_urls (merge_aggregate sources daily_summary)
          = len_set (listed_urls sources)) as Hlisted.
  { unfold merge_aggregate. cbn [m_unique_urls].
    rewrite merge_sources_unique. cbn [ms_unique_urls merge_init].
    by rewrite union_empty_l_L. }
  split; [done|]. intros recs Hall. rewrite Hlisted. unfold len_set.
  f_equal. apply set_eq. intros u. rewrite !elem_of_list_to_set.
  unfold listed_urls, seen_urls.
  induction Hall as [|agg records aggs recs [(bd & ps & pe & Hrun) Hcap] _ IH].
  { done. }
  destruct (top_urls_listed _ _ _ _ _ Hrun) as [Hsub Hsup].
  specialize (Hsup Hcap).
  rewrite bind_cons, concat_cons, !fmap_app, !filter_app, !elem_of_app, IH.
  assert (u ∈ filter (λ u, nonempty u) (tu_url <$> agg_top_urls agg)
          ↔ u ∈ seen_urls records) as ->; [|done].
  rewrite list_elem_of_filter. split.
  - intros [_ Hu]. by apply Hsub.
  - intros Hu. split; [|by apply Hsup].
    by apply list_elem_of_filter in Hu as [? _].
Qed.

End MergedAggregate.

(** ** The scripts on the sample inputs *)

Lemma sample_aggregate :
  build_aggregate (pylib := Py.lib) Sample.records
    (group_by_date Sample.records) Sample.period_start Sample.period_end
  = Ok Sample.aggregate.
Proof. vm_compute. reflexivity. Defined.

Lemma build_aggregate_ranking_witness :
  build_aggregate (pylib := Py.lib) Sample.records
    (group_by_date Sample.records) Sample.period_start Sample.period_end
  = Ok Sample.aggregate
  ∧ ranked (domain_slot <$> Sample.records) 20
      [("z.example", 2); ("a.example", 2); ("search.brave.com", 1)].
Proof.
  split; [exact sample_aggregate|].
  exact (proj1 (build_aggregate_ranking (pylib := Py.lib) Sample.records
                  (group_by_date Sample.records) Sample.period_start
                  Sample.period_end Sample.aggregate sample_aggregate)).
Defined.

Lemma build_aggregate_first_title_witness :
  let tu := {| tu_url := "https://a.example/"; tu_visit_count := 2;
               tu_title := Some "A first" |} in
  tu ∈ agg_top_urls Sample.aggregate
  ∧ tu_title tu = first_title (tu_url tu) Sample.records.
Proof.
  intros tu.
  assert (tu ∈ agg_top_urls Sample.aggregate) as Hin.
  { apply list_elem_of_further, list_elem_of_here. }
  split; [exact Hin|].
  exact (proj1 (build_aggregate_first_title (pylib := Py.lib) Sample.records
                  (group_by_date Sample.records) Sample.period_start
                  Sample.period_end Sample.aggregate sample_aggregate tu Hin)).
Defined.

Lemma build_aggregate_distributions_witness :
  sum_list (agg_hourly_distribution Sample.aggregate) = 5
  ∧ sum_list (agg_weekday_distribution Sample.aggregate).*2 = 5.
Proof.
  destruct (build_aggregate_distributions (pylib := Py.lib) Sample.records
              (group_by_date Sample.records) Sample.period_start
              Sample.period_end Sample.aggregate sample_aggregate)
    as (Htotal & _ & Hhours & _ & Hdays).
  rewrite Hhours, Hdays. split; reflexivity.
Defined.

Lemma merge_daily_unique_urls_witness :
  ∃ s, s ∈ (merge_daily Sample.daily_sources).1
       ∧ ds_date s = "2024-01-01" ∧ ds_visits s = 3 ∧ ds_unique_urls s = 2.
Proof.
  destruct (merge_daily_unique_urls Sample.daily_sources "2024-01-01"
              "https://x.example/" "vivaldi" "chrome"
              (tag_source "vivaldi"
                 (Sample.visit "https://x.example/" "X" "2024-01-01T10:00:00Z"))
              (tag_source "chrome"
                 (Sample.visit "https://x.example/" "X" "2024-01-01T12:00:00Z")))
    as (s & Hin & Hdate & _ & _ & _ & Hvisits & Hunique).
  - discriminate.
  - discriminate.
  - vm_compute. reflexivity.
  - reflexivity.
  - reflexivity.
  - exists s. split; [exact Hin|]. split; [exact Hdate|].
    split; [exact Hvisits | exact Hunique].
Defined.

Lemma merge_aggregate_unique_urls_witness :
  m_unique_urls (merge_aggregate [[Sample.aggregate]] []) = 3
  ∧ len_set (seen_urls Sample.records) = 3.
Proof.
  pose proof (proj2 (merge_aggregate_unique_urls (pylib := Py.lib)
                       [[Sample.aggregate]] []) [Sample.records]) as Hall.
  split; [|vm_compute; reflexivity].
  rewrite Hall.
  - vm_compute. reflexivity.
  - constructor; [|constructor]. split.
    + exists (group_by_date Sample.records), Sample.period_start,
        Sample.period_end. exact sample_aggregate.
    + vm_compute. lia.
Defined.

(** With one source that saw 51 distinct urls, the merged [unique_urls] is
    50: the source's aggregate lists only its 50 top urls. *)
Lemma merge_aggregate_unique_urls_capped :
  ∃ agg,
    build_aggregate (pylib := Py.lib) Sample.many_records
      (group_by_date Sample.many_records) Sample.period_start Sample.period_end
    = Ok agg
    ∧ agg_unique_urls agg = 51
    ∧ len_set (seen_urls Sample.many_records) = 51
    ∧ m_unique_urls (merge_aggregate [[agg]] []) = 50.
Proof.
  eexists. split; [vm_compute; reflexivity|].
  repeat split; vm_compute; reflexivity.
Qed.

(** * Further properties of the scripts *)

(** ** Dicts of lists and [sorted(d.items())] *)

Global Instance key_le_total {A} : Total (@key_le A).
Proof. intros a b. unfold key_le. apply (total String.le). Qed.

Global Instance key_le_trans {A} : Transitive (@key_le A).
Proof. intros a b c. unfold key_le. apply transitivity. Qed.

Lemma sorted_items_perm {A} (d : gmap string A) :
  sorted_items d ≡ₚ map_to_list d.
Proof. apply merge_sort_Permutation. Qed.

Lemma sorted_items_NoDup {A} (d : gmap string A) : NoDup (sorted_items d).*1.
Proof. rewrite sorted_items_perm. apply NoDup_fst_map_to_list. Qed.

(** The items come out by strictly ascending key. *)
Lemma sorted_items_sorted {A} (d : gmap string A) :
  StronglySorted (λ a b, str_lt a.1 b.1) (sorted_items d).
Proof.
  pose proof (sorted_items_NoDup d) as Hnd.
  assert (StronglySorted key_le (sorted_items d)) as Hs.
  { apply StronglySorted_merge_sort; apply _. }
  induction Hs as [|a l Hl IH Ha]; [constructor|].
  rewrite fmap_cons in Hnd. apply NoDup_cons in Hnd as [Hnin Hnd].
  constructor; [by apply IH|].
  rewrite Forall_forall in *. intros b Hb. split; [by apply Ha|].
  intros Heq. apply Hnin. rewrite Heq. by apply list_elem_of_fmap_2.
Qed.

Lemma map_to_list_dict_append {A} (k : string) (x : A)
    (d : gmap string (list A)) :
  concat (map_to_list (dict_append k x d)).*2
  ≡ₚ x :: concat (map_to_list d).*2.
Proof.
  unfold dict_append. destruct (d !! k) as [vs|] eqn:Hk; simpl.
  - rewrite <- (insert_delete_eq d k (vs ++ [x])).
    rewrite map_to_list_insert by apply lookup_delete_eq.
    rewrite <- (map_to_list_delete d k vs Hk).
    rewrite !fmap_cons. simpl.
    rewrite <- app_assoc. simpl.
    by rewrite <- Permutation_middle.
  - rewrite map_to_list_insert by done. by rewrite fmap_cons.
Qed.

Lemma sum_list_length_concat {A} (l : list (list A)) :
  sum_list (length <$> l) = length (concat l).
Proof.
  induction l as [|x l IH]; [done|].
  rewrite fmap_cons, sum_list_cons, IH. simpl. by rewrite length_app.
Qed.

(** ** DailyGrouper: [group_by_date] and [build_daily_files] *)

Lemma group_by_date_lookup (records : list VisitRecord)
    (m : gmap string (list VisitRecord)) :
  (∀ d, m !! d ≠ Some []) →
  (∀ d, default [] (foldl (λ by_date r, dict_append (record_date r) r by_date)
                          m records !! d)
        = default [] (m !! d) ++ filter (λ r, record_date r = d) records)
  ∧ (∀ d, foldl (λ by_date r, dict_append (record_date r) r by_date)
                m records !! d ≠ Some [])
  ∧ concat (map_to_list (foldl (λ by_date r, dict_append (record_date r) r by_date)
                               m records)).*2
    ≡ₚ concat (map_to_list m).*2 ++ records.
Proof.
  revert m. induction records as [|r records IH]; intros m Hm; cbn [foldl].
  { split; [|split; [done|]].
    - intros d. by rewrite filter_nil, app_nil_r.
    - by rewrite app_nil_r. }
  destruct (IH (dict_append (record_date r) r m)) as (Hl & Hne & Hperm).
  { by apply dict_append_nonempty. }
  split; [|split; [done|]].
  - intros d. rewrite Hl, dict_append_lookup.
    rewrite filter_cons. destruct (decide (record_date r = d)).
    + by rewrite <- app_assoc.
    + by rewrite app_nil_r.
  - rewrite Hperm, map_to_list_dict_append.
    by rewrite <- Permutation_middle.
Qed.

Lemma group_by_date_Some (records : list VisitRecord) (d : string)
    (visits : list VisitRecord) :
  group_by_date records !! d = Some visits
  ↔ visits = filter (λ r, record_date r = d) records ∧ visits ≠ [].
Proof.
  destruct (group_by_date_lookup records ∅) as (Hl & Hne & _).
  { intros d'. by rewrite lookup_empty. }
  specialize (Hl d). specialize (Hne d). rewrite lookup_empty in Hl.
  simpl in Hl. unfold group_by_date.
  change (λ by_date r, dict_append (String.substring 0 10 (timestamp r)) r by_date)
    with (λ by_date r, dict_append (record_date r) r by_date).
  destruct (foldl _ ∅ records !! d) as [vs|]; simpl in Hl.
  - split; [intros [= <-]; split; congruence | intros [-> _]; congruence].
  - split; [done | intros [-> Hvs]; by rewrite <- Hl in Hvs].
Qed.

(** X1. [group_by_date] files every record under the first ten characters of
    its timestamp: the bucket of a date is the list of the records of that date,
    in the order of the input, and a date without records has no bucket. *)
Theorem group_by_date_buckets (records : list VisitRecord) (d : string)
    (visits : list VisitRecord) :
  group_by_date records !! d = Some visits
  ↔ visits = filter (λ r, record_date r = d) records ∧ visits ≠ [].
Proof. apply group_by_date_Some. Qed.

Lemma daily_files_partition (records : list VisitRecord) :
  let out := build_daily_files (group_by_date records) in
  StronglySorted str_lt (dp_date <$> out.2)
  ∧ Forall (λ p, dp_visits p = filter (λ r, record_date r = dp_date p) records
                 ∧ dp_visits p ≠ []
                 ∧ dp_total_visits p = length (dp_visits p)
                 ∧ dp_unique_urls p = len_set (url <$> dp_visits p)) out.2
  ∧ concat (dp_visits <$> out.2) ≡ₚ records
  ∧ out.1 = (λ p, {| ds_date := dp_date p; ds_visits := dp_total_visits p;
                     ds_unique_urls := dp_unique_urls p |}) <$> out.2
  ∧ sum_list (ds_visits <$> out.1) = length records.
Proof.
  unfold build_daily_files. cbn [fst snd].
  set (items := sorted_items (group_by_date records)).
  assert (concat items.*2 ≡ₚ records) as Hperm.
  { unfold items. rewrite sorted_items_perm.
    destruct (group_by_date_lookup records ∅) as (_ & _ & Hp).
    { intros d'. by rewrite lookup_empty. }
    rewrite map_to_list_empty in Hp. exact Hp. }
  split; [|split; [|split; [|split]]].
  - rewrite <- list_fmap_compose.
    apply (StronglySorted_fmap _ (λ a b, str_lt a.1 b.1) str_lt); [done|].
    apply sorted_items_sorted.
  - apply Forall_fmap, Forall_forall. intros [d vs] Hin. cbn.
    apply elem_of_sorted_items, group_by_date_Some in Hin as [-> Hne].
    done.
  - rewrite <- list_fmap_compose. exact Hperm.
  - rewrite <- list_fmap_compose. by apply list_fmap_ext.
  - rewrite <- list_fmap_compose.
    rewrite (list_fmap_ext _ (length ∘ snd) items) by done.
    rewrite list_fmap_compose, sum_list_length_concat.
    by apply Permutation_length.
Qed.

(** X2. The per-date files written for the buckets of a record sequence come
    by strictly ascending date; each holds the records of its date in input
    order, with their number as [total_visits] and the number of distinct urls
    as [unique_urls]; together they hold every record exactly once, so the
    [visits] of the summary lines add up to the number of records. *)
Theorem build_daily_files_partition (records : list VisitRecord) :
  let out := build_daily_files (group_by_date records) in
  StronglySorted str_lt (dp_date <$> out.2)
  ∧ Forall (λ p, dp_visits p = filter (λ r, record_date r = dp_date p) records
                 ∧ dp_visits p ≠ []
                 ∧ dp_total_visits p = length (dp_visits p)
                 ∧ dp_unique_urls p = len_set (url <$> dp_visits p)) out.2
  ∧ concat (dp_visits <$> out.2) ≡ₚ records
  ∧ out.1 = (λ p, {| ds_date := dp_date p; ds_visits := dp_total_visits p;
                     ds_unique_urls := dp_unique_urls p |}) <$> out.2
  ∧ sum_list (ds_visits <$> out.1) = length records.
Proof. apply daily_files_partition. Qed.

(** ** Aggregator: the two histograms *)

Lemma list_incr_lookup (l l' : list nat) (i h : nat) :
  list_incr l i = Ok l' →
  l' !! h = (λ c, if decide (h = i) then c + 1 else c) <$> l !! h.
Proof.
  unfold list_incr, list_getitem. destruct (l !! i) as [v|] eqn:Hv; [|done].
  simpl. intros [= <-]. destruct (decide (h = i)) as [->|Hne].
  - rewrite list_lookup_insert_eq by by eapply lookup_lt_Some.
    by rewrite Hv.
  - rewrite list_lookup_insert_ne by done. by destruct (l !! h).
Qed.

Lemma dict_incr_at (k : string) (counts : list (string * nat)) (i : nat) :
  NoDup counts.*1 → counts.*1 !! i = Some k →
  dict_incr k counts = Ok (alter (λ kc, (kc.1, kc.2 + 1)) i counts).
Proof.
  revert i. induction counts as [|[k' c] counts IH]; intros i Hnd Hi; [done|].
  rewrite fmap_cons in Hnd, Hi. apply NoDup_cons in Hnd as [Hnin Hnd].
  cbn [dict_incr]. destruct i as [|i]; simpl in Hi.
  - injection Hi as ->. by rewrite decide_True.
  - rewrite decide_False.
    + by rewrite (IH i Hnd Hi).
    + intros ->. apply Hnin. by eapply list_elem_of_lookup_2.
Qed.

Section Histograms.
Context {pylib : PyLib}.

Lemma hourly_loop_lookup (records : list VisitRecord) (hours hours' : list nat)
    (h : nat) :
  hourly_loop records hours = Ok hours' →
  hours' !! h
  = (λ c, c + length (filter (λ r, record_hour r = Some h) records))
      <$> hours !! h.
Proof.
  revert hours. induction records as [|r records IH]; intros hours; simpl.
  - intros [= <-]. destruct (hours !! h); simpl; f_equal; lia.
  - destruct (record_datetime r) as [dt|] eqn:Hdt; [|done]. simpl.
    assert (record_hour r = Some (N.to_nat (hour dt))) as Hrh.
    { unfold record_hour. by rewrite Hdt. }
    rewrite filter_cons, Hrh.
    destruct (list_incr hours _) as [hours1|] eqn:Hincr; [|done]. simpl.
    intros Hloop. rewrite (IH _ Hloop), (list_incr_lookup _ _ _ h Hincr).
    destruct (hours !! h) as [c|]; [|done]. simpl. f_equal.
    destruct (decide (h = N.to_nat (hour dt))) as [->|Hne].
    + rewrite decide_True by done. simpl. lia.
    + rewrite decide_False by congruence. done.
Qed.

(** X4. [hourly_distribution] returns 24 buckets, and bucket [h] holds the
    number of records whose timestamp has hour [h]. *)
Theorem hourly_distribution_buckets (records : list VisitRecord)
    (hours : list nat) :
  hourly_distribution records = Ok hours →
  length hours = 24
  ∧ ∀ h, h < 24 →
      hours !! h
      = Some (length (filter (λ r, record_hour r = Some h) records)).
Proof.
  unfold hourly_distribution. intros Hrun. split.
  - apply hourly_loop_sum in Hrun as [_ ->]. by rewrite length_replicate.
  - intros h Hh. rewrite (hourly_loop_lookup _ _ _ h Hrun).
    by rewrite lookup_replicate_2.
Qed.

Lemma weekday_loop_lookup (records : list VisitRecord)
    (counts counts' : list (string * nat)) (i : nat) (name : string) :
  counts.*1 = weekday_names → weekday_names !! i = Some name →
  weekday_loop records counts = Ok counts' →
  counts' !! i
  = (λ kc, (kc.1, kc.2 + length (filter (λ r, record_weekday r = Some i) records)))
      <$> counts !! i.
Proof.
  intros Hkeys Hname. revert counts Hkeys.
  induction records as [|r records IH]; intros counts Hkeys; simpl.
  - intros [= <-]. destruct (counts !! i) as [[k c]|]; simpl; [|done].
    do 2 f_equal. lia.
  - destruct (record_datetime r) as [dt|] eqn:Hdt; [|done]. simpl.
    assert (record_weekday r = Some (weekday dt)) as Hrw.
    { unfold record_weekday. by rewrite Hdt. }
    rewrite filter_cons, Hrw.
    unfold list_getitem.
    destruct (weekday_names !! weekday dt) as [day|] eqn:Hday; [|done]. simpl.
    rewrite (dict_incr_at day counts (weekday dt)).
    2:{ rewrite Hkeys. by vm_compute; repeat constructor;
          rewrite ?elem_of_cons, ?elem_of_nil; intuition discriminate. }
    2:{ by rewrite Hkeys. }
    simpl. intros Hloop.
    assert ((alter (λ kc : string * nat, (kc.1, kc.2 + 1)) (weekday dt) counts).*1
            = weekday_names) as Hkeys'.
    { rewrite <- Hkeys. clear. generalize (weekday dt).
      induction counts as [|[k c] counts IH]; intros [|j]; try done.
      cbn [alter list_alter]. by rewrite !fmap_cons, IH. }
    rewrite (IH _ Hkeys' Hloop).
    destruct (decide (i = weekday dt)) as [->|Hne].
    + rewrite list_lookup_alter_eq. destruct (counts !! weekday dt) as [[k c]|];
        simpl; [|done]. rewrite decide_True by done. simpl. do 2 f_equal. lia.
    + rewrite list_lookup_alter_ne by done.
      destruct (counts !! i) as [[k c]|]; simpl; [|done].
      rewrite decide_False by congruence. done.
Qed.

(** X5. [weekday_distribution] returns the seven days Mon ... Sun in that
    order, and the entry of day number [i] holds the number of records whose
    timestamp falls on weekday [i] (Monday is 0). *)
Theorem weekday_distribution_buckets (records : list VisitRecord)
    (counts : list (string * nat)) :
  weekday_distribution records = Ok counts →
  counts.*1 = weekday_names
  ∧ ∀ i name, weekday_names !! i = Some name →
      counts !! i
      = Some (name,
              length (filter (λ r, record_weekday r = Some i) records)).
Proof.
  unfold weekday_distribution. intros Hrun. split.
  - by apply weekday_loop_sum in Hrun as [_ ->].
  - intros i name Hname.
    assert (((λ n : string, (n, 0)) <$> weekday_names).*1 = weekday_names)
      as Hkeys by done.
    rewrite (weekday_loop_lookup _ _ _ i name Hkeys Hname Hrun).
    rewrite list_lookup_fmap, Hname. done.
Qed.

End Histograms.

(** ** Aggregator: when [build_aggregate] returns *)

Section AggregateRuns.
Context {pylib : PyLib}.

Lemma extract_search_query_Ok_inv (u : string) (q : option string) :
  extract_search_query u = Ok q → ∃ p, urlparse u = Ok p.
Proof.
  unfold extract_search_query. destruct (urlparse u) as [p|]; [eauto|done].
Qed.

Lemma hourly_loop_Ok_inv (records : list VisitRecord) (hours hours' : list nat) :
  hourly_loop records hours = Ok hours' →
  Forall (λ r, ∃ dt, record_datetime r = Ok dt
                     ∧ N.to_nat (hour dt) < length hours) records.
Proof.
  revert hours. induction records as [|r records IH]; intros hours; simpl.
  { constructor. }
  destruct (record_datetime r) as [dt|] eqn:Hdt; [|done]. simpl.
  destruct (list_incr hours _) as [hours1|] eqn:Hincr; [|done]. simpl.
  intros Hloop. constructor.
  - exists dt. split; [done|]. unfold list_incr, list_getitem in Hincr.
    destruct (hours !! N.to_nat (hour dt)) eqn:Hl; [|done].
    by eapply lookup_lt_Some.
  - apply list_incr_sum in Hincr as [_ <-]. by apply IH.
Qed.

(** X6. [build_aggregate] returns an aggregate exactly when [urlparse]
    accepts the url of every record and [fromisoformat] accepts the timestamp
    of every record (with an hour below 24); a single record that fails
    either makes the whole call raise. *)
Theorem build_aggregate_returns_iff (records : list VisitRecord)
    (by_date : gmap string (list VisitRecord))
    (period_start period_end : datetime) :
  (∃ agg, build_aggregate records by_date period_start period_end = Ok agg)
  ↔ Forall (λ r, (∃ p, urlparse (url r) = Ok p)
                 ∧ ∃ dt, record_datetime r = Ok dt ∧ (hour dt < 24)%N)
           records.
Proof.
  split.
  - intros [agg Hrun].
    apply build_aggregate_Ok in Hrun as (queries & Hq & Hh & _).
    apply hourly_loop_Ok_inv in Hh. rewrite length_replicate in Hh.
    rewrite Forall_forall in *. intros r Hr. split.
    + apply list_elem_of_lookup in Hr as [i Hi].
      destruct (Forall2_lookup_l _ _ _ _ _ Hq Hi) as (q & _ & Hx).
      by eapply extract_search_query_Ok_inv.
    + destruct (Hh r Hr) as (dt & Hdt & Hlt). exists dt. split; [done | lia].
  - intros Hall. apply build_aggregate_returns.
    + eapply Forall_impl; [exact Hall|]. by intros r [? _].
    + eapply Forall_impl; [exact Hall|]. by intros r [_ ?].
Qed.

(** X3. When [build_aggregate] is given the buckets of its own records, as
    [main] does, its [daily_summary] is the summary that [build_daily_files]
    returns for them, by strictly ascending date, and the [visits] of its
    lines add up to [total_visits]. *)
Theorem build_aggregate_daily_summary (records : list VisitRecord)
    (period_start period_end : datetime) (agg : Aggregate) :
  build_aggregate records (group_by_date records) period_start period_end
    = Ok agg →
  agg_daily_summary agg = (build_daily_files (group_by_date records)).1
  ∧ StronglySorted str_lt (ds_date <$> agg_daily_summary agg)
  ∧ sum_list (ds_visits <$> agg_daily_summary agg) = agg_total_visits agg.
Proof.
  intros Hrun.
  assert (agg_daily_summary agg = (build_daily_files (group_by_date records)).1
          ∧ agg_total_visits agg = length records) as [Hsum Htotal].
  { unfold build_aggregate in Hrun.
    apply bind_Ok in Hrun as (queries & _ & Hrun).
    apply bind_Ok in Hrun as (hourly & _ & Hrun).
    apply bind_Ok in Hrun as (weekdays & _ & [= <-]). done. }
  destruct (daily_files_partition records) as (Hsorted & _ & _ & Heq & Hlen).
  rewrite Hsum, Htotal. split; [done|]. split; [|done].
  rewrite Heq, <- list_fmap_compose. exact Hsorted.
Qed.

End AggregateRuns.

(** ** MultiSourceMerger: the fields that add up *)

Lemma foldl_concat {A B} (f : A → B → A) (ls : list (list B)) (a : A) :
  foldl (λ a l, foldl f a l) a ls = foldl f a (concat ls).
Proof.
  revert a. induction ls as [|l ls IH]; intros a; [done|].
  cbn [foldl concat]. by rewrite IH, foldl_app.
Qed.

Lemma counter_get_foldl_add (k : string) (items : list (string * nat))
    (ctr : Counter) :
  counter_get k (foldl (λ ctr item, counter_add item.1 item.2 ctr) ctr items)
  = counter_get k ctr + weight_of k items.
Proof.
  revert ctr. induction items as [|[k' c] items IH]; intros ctr.
  { cbn. lia. }
  cbn [foldl]. rewrite IH, counter_get_add. unfold weight_of.
  rewrite filter_cons. cbn [fst snd].
  destruct (decide (k' = k)) as [->|Hne].
  - rewrite fmap_cons, sum_list_cons. cbn [snd]. lia.
  - lia.
Qed.

Lemma merge_hourly_lookup (hourly dist : list nat) (i : nat) :
  merge_hourly hourly dist !! i
  = (λ h, h + (if decide (i < 24) then default 0 (dist !! i) else 0))
      <$> hourly !! i.
Proof.
  unfold merge_hourly. induction dist as [|v dist IH] using rev_ind.
  { cbn [imap foldl]. rewrite lookup_nil.
    destruct (hourly !! i); simpl; [|done]. f_equal.
    destruct (decide (i < 24)); simpl; lia. }
  rewrite imap_app, foldl_app. cbn [imap foldl fst snd].
  rewrite Nat.add_0_r.
  destruct (decide (length dist < 24)) as [Hlt|Hge].
  - destruct (decide (i = length dist)) as [->|Hne].
    + rewrite list_lookup_alter_eq, IH.
      destruct (hourly !! length dist) as [h|]; simpl; [|done]. f_equal.
      rewrite !decide_True by done.
      rewrite lookup_ge_None_2 by done. rewrite lookup_app_r by done.
      rewrite Nat.sub_diag. simpl. lia.
    + rewrite list_lookup_alter_ne by done. rewrite IH.
      destruct (hourly !! i) as [h|]; simpl; [|done]. do 2 f_equal.
      destruct (decide (i < 24)); [|done]. f_equal.
      destruct (decide (i < length dist)).
      * by rewrite lookup_app_l.
      * rewrite lookup_ge_None_2 by lia.
        rewrite lookup_ge_None_2; [done|]. rewrite length_app. simpl. lia.
  - rewrite IH. destruct (hourly !! i) as [h|]; simpl; [|done]. do 2 f_equal.
    destruct (decide (i < 24)); [|done]. f_equal. by rewrite lookup_app_l by lia.
Qed.

Lemma merge_hourly_length (hourly dist : list nat) :
  length (merge_hourly hourly dist) = length hourly.
Proof.
  unfold merge_hourly. generalize (imap pair dist). intros l. revert hourly.
  induction l as [|[j v] l IH]; intros hourly; [done|].
  cbn [foldl fst snd]. rewrite IH.
  destruct (decide (j < 24)); [by rewrite length_alter | done].
Qed.

Lemma merge_file_fields (st : MergeState) (data : Aggregate) :
  ms_total_visits (merge_file st data)
    = ms_total_visits st + agg_total_visits data
  ∧ ms_periods (merge_file st data) = ms_periods st ++ [agg_period data]
  ∧ ms_hourly (merge_file st data)
    = merge_hourly (ms_hourly st) (agg_hourly_distribution data)
  ∧ ms_domain_counts (merge_file st data)
    = foldl (λ ctr item, counter_add item.1 item.2 ctr)
            (ms_domain_counts st) (agg_top_domains data)
  ∧ ms_weekday_counts (merge_file st data)
    = foldl (λ ctr item, counter_add item.1 item.2 ctr)
            (ms_weekday_counts st) (agg_weekday_distribution data)
  ∧ ms_top_search_queries (merge_file st data)
    = foldl merge_query (ms_top_search_queries st)
            (agg_top_search_queries data).
Proof.
  unfold merge_file. by destruct (foldl merge_top_url _ _) as [[uc ut] uu].
Qed.

Lemma merge_files_additive (aggs : list Aggregate) (st : MergeState) :
  ms_total_visits (foldl merge_file st aggs)
    = ms_total_visits st + sum_list (agg_total_visits <$> aggs)
  ∧ ms_periods (foldl merge_file st aggs)
    = ms_periods st ++ (agg_period <$> aggs)
  ∧ length (ms_hourly (foldl merge_file st aggs)) = length (ms_hourly st)
  ∧ (∀ i, i < 24 →
       ms_hourly (foldl merge_file st aggs) !! i
       = (λ h, h + sum_list ((λ a, default 0 (agg_hourly_distribution a !! i))
                               <$> aggs)) <$> ms_hourly st !! i)
  ∧ (∀ day, counter_get day (ms_weekday_counts (foldl merge_file st aggs))
            = counter_get day (ms_weekday_counts st)
              + sum_list ((λ a, weight_of day (agg_weekday_distribution a))
                            <$> aggs)).
Proof.
  revert st. induction aggs as [|data aggs IH]; intros st.
  { cbn. rewrite app_nil_r. repeat split; try lia.
    intros i _. destruct (ms_hourly st !! i); simpl; [f_equal; lia | done]. }
  cbn [foldl]. destruct (IH (merge_file st data)) as (Ht & Hp & Hlen & Hh & Hw).
  destruct (merge_file_fields st data) as (Ht1 & Hp1 & Hh1 & _ & Hw1 & _).
  rewrite !fmap_cons, !sum_list_cons.
  split; [lia|]. split; [by rewrite Hp, Hp1, <- app_assoc|].
  split; [by rewrite Hlen, Hh1, merge_hourly_length|]. split.
  - intros i Hi. rewrite (Hh i Hi), Hh1, merge_hourly_lookup.
    destruct (ms_hourly st !! i) as [h|]; simpl; [|done]. f_equal.
    rewrite decide_True by done. symmetry. apply Nat.add_assoc.
  - intros day. rewrite Hw, Hw1, counter_get_foldl_add.
    rewrite ?fmap_cons, ?sum_list_cons. lia.
Qed.

(** X7. In the merged aggregate, [total_visits] is the sum of the sources'
    [total_visits]; there are 24 hourly buckets and bucket [i] is the sum of
    the sources' buckets [i] (a missing bucket counts 0, buckets from 24 on
    are ignored); the count of a weekday is the sum of the sources' counts of
    that day; [periods] lists the non-empty periods in merge order; and
    [daily_summary] is the summary handed over by [merge_daily]. *)
Theorem merge_aggregate_additive (sources : list (list Aggregate))
    (daily_summary : list DailySummary) :
  let merged := merge_aggregate sources daily_summary in
  let aggs := concat sources in
  m_total_visits merged = sum_list (agg_total_visits <$> aggs)
  ∧ length (m_hourly_distribution merged) = 24
  ∧ (∀ i, i < 24 →
       m_hourly_distribution merged !! i
       = Some (sum_list ((λ a, default 0 (agg_hourly_distribution a !! i))
                           <$> aggs)))
  ∧ (∀ day, counter_get day (m_weekday_distribution merged)
            = sum_list ((λ a, weight_of day (agg_weekday_distribution a))
                          <$> aggs))
  ∧ m_periods merged = filter (λ p, nonempty p) (agg_period <$> aggs)
  ∧ m_daily_summary merged = daily_summary.
Proof.
  intros merged aggs. subst merged. unfold merge_aggregate.
  cbn [m_total_visits m_hourly_distribution m_weekday_distribution m_periods
       m_daily_summary].
  rewrite foldl_concat. fold aggs.
  destruct (merge_files_additive aggs merge_init) as (Ht & Hp & Hlen & Hh & Hw).
  rewrite Ht, Hp, Hlen. cbn [merge_init ms_total_visits ms_periods ms_hourly
    ms_weekday_counts] in *.
  split; [done|]. split; [by rewrite length_replicate|]. split.
  - intros i Hi. rewrite (Hh i Hi), lookup_replicate_2 by done. done.
  - split; [|done]. intros day. by rewrite Hw.
Qed.

(** ** MultiSourceMerger: re-ranking and titles *)

Lemma weight_of_app (k : string) (items more : list (string * nat)) :
  weight_of k (items ++ more) = weight_of k items + weight_of k more.
Proof.
  unfold weight_of. rewrite filter_app, fmap_app.
  induction (filter _ items).*2 as [|x l IH]; [done|].
  cbn [app]. rewrite !sum_list_cons, IH. lia.
Qed.

Lemma weight_of_singleton (k : string) (it : string * nat) :
  weight_of k [it] = if decide (it.1 = k) then it.2 else 0.
Proof.
  unfold weight_of. rewrite filter_cons, filter_nil.
  destruct (decide (it.1 = k)); [|done]. cbn. lia.
Qed.

Lemma elem_of_Some_fmap (k : string) (l : list string) :
  Some k ∈ Some <$> l ↔ k ∈ l.
Proof.
  rewrite list_elem_of_fmap. split.
  - intros (k' & Heq & Hin). by simplify_eq.
  - intros Hin. by exists k.
Qed.

Lemma merged_inv_add (items : list (string * nat)) (ctr : Counter)
    (it : string * nat) :
  merged_inv items ctr →
  merged_inv (items ++ [it]) (counter_add it.1 it.2 ctr).
Proof.
  intros (Hnd & Hin & Hget & Hsorted). unfold merged_inv.
  rewrite !fmap_app. cbn [fmap list_fmap].
  assert (∀ k, counter_get k (counter_add it.1 it.2 ctr)
               = weight_of k (items ++ [it])) as Hcount.
  { intros k. by rewrite counter_get_add, weight_of_app, weight_of_singleton, Hget. }
  assert (StronglySorted
            (λ a b, first_seen a ((Some <$> items.*1) ++ [Some it.1])
                    < first_seen b ((Some <$> items.*1) ++ [Some it.1]))
            ctr.*1) as Hold.
  { eapply StronglySorted_weaken; [|done]. intros a b Ha Hb.
    apply Hin, elem_of_Some_fmap in Ha. apply Hin, elem_of_Some_fmap in Hb.
    by rewrite !first_seen_old. }
  rewrite counter_add_keys.
  destruct (decide (it.1 ∈ ctr.*1)) as [Hx|Hx].
  - split; [done|]. split; [|split; [done|done]].
    intros k. rewrite Hin, elem_of_app, list_elem_of_singleton.
    split; [auto|]. intros [?| ->]; [done | by apply Hin].
  - split; [|split; [|split; [done|]]].
    + apply NoDup_app. split; [done|]. split; [|apply NoDup_singleton].
      intros k Hk ->%list_elem_of_singleton. done.
    + intros k. by rewrite !elem_of_app, Hin.
    + apply StronglySorted_app. split; [|split; [done | repeat constructor]].
      intros a b Ha ->%list_elem_of_singleton.
      apply Hin, elem_of_Some_fmap in Ha. rewrite first_seen_old by done.
      rewrite first_seen_app, decide_False.
      * pose proof (first_seen_lt _ _ Ha). lia.
      * rewrite elem_of_Some_fmap. by rewrite <- Hin.
Qed.

Lemma merged_inv_foldl (items : list (string * nat)) :
  merged_inv items (foldl (λ ctr item, counter_add item.1 item.2 ctr) [] items).
Proof.
  induction items as [|it items IH] using rev_ind.
  - repeat split; try constructor; by intros ?%elem_of_nil.
  - rewrite foldl_app. cbn [foldl]. by apply merged_inv_add.
Qed.

(** [most_common n] of a counter to which items were added in order is the
    merged ranking of the items, cut after [n] entries. *)
Lemma most_common_merged (items : list (string * nat)) (n : nat) :
  ∃ full, merged_ranking items full
    ∧ most_common n (foldl (λ ctr item, counter_add item.1 item.2 ctr) [] items)
      = take n full.
Proof.
  destruct (merged_inv_foldl items) as (Hnd & Hin & Hget & Hsorted).
  eexists. split; [|reflexivity]. split; [|split].
  - by rewrite sort_desc_perm.
  - intros k c. rewrite sort_desc_perm, elem_of_counter, Hin, Hget by done.
    done.
  - by apply sort_desc_sorted.
Qed.

Lemma foldl_merge_query (items : list (string * nat)) (ctr : Counter) :
  foldl merge_query ctr items
  = foldl (λ ctr item, counter_add item.1 item.2 ctr) ctr (query_items items).
Proof.
  unfold query_items. revert ctr.
  induction items as [|it items IH]; intros ctr; [done|].
  cbn [foldl]. rewrite IH, filter_cons. unfold merge_query.
  by destruct (nonempty it.1).
Qed.

Lemma foldl_merge_top_url (items : list TopUrl) (url_counts : Counter)
    (url_to_title : gmap string string) (unique_urls : gset string) :
  (foldl merge_top_url (url_counts, url_to_title, unique_urls) items).1.1
  = foldl (λ ctr item, counter_add item.1 item.2 ctr) url_counts
          (url_items items).
Proof.
  unfold url_items. revert url_counts url_to_title unique_urls.
  induction items as [|item items IH]; intros uc ut uu; [done|].
  cbn [foldl]. rewrite fmap_cons, filter_cons. cbn [fst snd].
  unfold merge_top_url at 2. destruct (nonempty (tu_url item)); simpl.
  - by rewrite IH.
  - by rewrite IH.
Qed.

Lemma foldl_merge_top_url_title (items : list TopUrl) (url_counts : Counter)
    (url_to_title : gmap string string) (unique_urls : gset string)
    (u : string) :
  u ≠ "" →
  (foldl merge_top_url (url_counts, url_to_title, unique_urls) items).1.2 !! u
  = match url_to_title !! u with
    | Some t => Some t
    | None => listed_title u items
    end.
Proof.
  intros Hu. unfold listed_title. revert url_counts url_to_title unique_urls.
  induction items as [|item items IH]; intros uc ut uu.
  { cbn. by destruct (ut !! u). }
  cbn [foldl omap list_omap]. unfold merge_top_url at 2, title_for at 1.
  destruct (nonempty (tu_url item)) eqn:Hne; simpl.
  - rewrite IH. destruct (decide (tu_url item = u)) as [Heq|Hneq].
    + destruct (tu_title item) as [t|]; [|done].
      destruct (nonempty t); [|done]. simpl.
      unfold setdefault. rewrite Heq.
      destruct (ut !! u) eqn:Hl; rewrite ?Hl; [done|].
      by rewrite lookup_insert_eq.
    + destruct (tu_title item) as [t|]; [|done].
      destruct (nonempty t); [|done]. unfold setdefault.
      destruct (ut !! tu_url item); [done|]. by rewrite lookup_insert_ne.
  - rewrite IH. destruct (decide (tu_url item = u)) as [Heq|Hneq]; [|done].
    rewrite Heq in Hne. by apply nonempty_true in Hu; rewrite Hu in Hne.
Qed.

Lemma merge_file_urls (st : MergeState) (data : Aggregate) :
  (ms_url_counts (merge_file st data),
   ms_url_to_title (merge_file st data),
   ms_unique_urls (merge_file st data))
  = foldl merge_top_url
      (ms_url_counts st, ms_url_to_title st, ms_unique_urls st)
      (agg_top_urls data).
Proof.
  unfold merge_file. by destruct (foldl merge_top_url _ _) as [[uc ut] uu].
Qed.

Lemma merge_files_counters (aggs : list Aggregate) (st : MergeState) :
  ms_domain_counts (foldl merge_file st aggs)
    = foldl (λ ctr item, counter_add item.1 item.2 ctr)
            (ms_domain_counts st) (aggs ≫= agg_top_domains)
  ∧ ms_top_search_queries (foldl merge_file st aggs)
    = foldl merge_query (ms_top_search_queries st)
            (aggs ≫= agg_top_search_queries)
  ∧ (ms_url_counts (foldl merge_file st aggs),
     ms_url_to_title (foldl merge_file st aggs),
     ms_unique_urls (foldl merge_file st aggs))
    = foldl merge_top_url
        (ms_url_counts st, ms_url_to_title st, ms_unique_urls st)
        (aggs ≫= agg_top_urls).
Proof.
  revert st. induction aggs as [|data aggs IH]; intros st; [done|].
  cbn [foldl]. destruct (IH (merge_file st data)) as (Hd & Hq & Hu).
  destruct (merge_file_fields st data) as (_ & _ & _ & Hd1 & _ & Hq1).
  rewrite !bind_cons, !foldl_app, Hd, Hq, Hu, Hd1, Hq1, merge_file_urls.
  done.
Qed.

(** X8. The merged [top_domains], [top_urls] and [top_search_queries] are
    the first 20, 50 and 50 entries of the ranking of the merged counts: every
    key listed by a source once, with the sum of the counts the sources list
    for it, by descending sum, ties broken by the first place the key is listed
    at, going through the sources in merge order and through each list from
    its top.  Entries with an empty url or an empty query are not counted. *)
Theorem merge_aggregate_ranking (sources : list (list Aggregate))
    (daily_summary : list DailySummary) :
  let merged := merge_aggregate sources daily_summary in
  let aggs := concat sources in
  (∃ full, merged_ranking (aggs ≫= agg_top_domains) full
           ∧ m_top_domains merged = take 20 full)
  ∧ (∃ full, merged_ranking (url_items (aggs ≫= agg_top_urls)) full
             ∧ (λ tu, (tu_url tu, tu_visit_count tu)) <$> m_top_urls merged
               = take 50 full)
  ∧ (∃ full, merged_ranking (query_items (aggs ≫= agg_top_search_queries)) full
             ∧ m_top_search_queries merged = take 50 full).
Proof.
  intros merged aggs. subst merged. unfold merge_aggregate.
  cbn [m_top_domains m_top_urls m_top_search_queries].
  rewrite foldl_concat. fold aggs.
  destruct (merge_files_counters aggs merge_init) as (Hd & Hq & Hu).
  apply (f_equal (λ x, x.1.1)) in Hu. cbn [fst snd] in Hu.
  rewrite Hd, Hq, Hu, foldl_merge_query, foldl_merge_top_url, top_urls_counts.
  cbn [merge_init ms_domain_counts ms_top_search_queries ms_url_counts].
  split; [apply most_common_merged|]. split; apply most_common_merged.
Qed.

(** X9. The title of an entry of the merged [top_urls] is the first
    non-empty title that any source lists for that url, going through the
    sources in merge order; a title listed later never replaces it. *)
Theorem merge_aggregate_first_title (sources : list (list Aggregate))
    (daily_summary : list DailySummary) (tu : TopUrl) :
  tu ∈ m_top_urls (merge_aggregate sources daily_summary) →
  tu_title tu = listed_title (tu_url tu) (concat sources ≫= agg_top_urls).
Proof.
  unfold merge_aggregate. cbn [m_top_urls]. rewrite foldl_concat.
  set (aggs := concat sources).
  destruct (merge_files_counters aggs merge_init) as (_ & _ & Hu).
  pose proof (f_equal (λ x, x.1.1) Hu) as Hcounts.
  pose proof (f_equal (λ x, x.1.2) Hu) as Htitles.
  cbn [fst snd] in Hcounts, Htitles. rewrite Hcounts, Htitles.
  cbn [merge_init ms_url_counts ms_url_to_title ms_unique_urls].
  intros ([u c] & -> & Huc)%list_elem_of_fmap. cbn [tu_title tu_url fst].
  rewrite foldl_merge_top_url_title.
  { by rewrite lookup_empty. }
  apply subseteq_take in Huc. rewrite sort_desc_perm in Huc.
  rewrite foldl_merge_top_url in Huc.
  destruct (merged_inv_foldl (url_items (aggs ≫= agg_top_urls)))
    as (_ & Hkeys & _).
  assert (u ∈ (url_items (aggs ≫= agg_top_urls)).*1) as Hin.
  { apply Hkeys, list_elem_of_fmap. by exists (u, c). }
  apply list_elem_of_fmap in Hin as ([u' c'] & -> & Hin).
  apply list_elem_of_filter in Hin as [Hne _]. cbn in Hne.
  by apply nonempty_true, Is_true_true.
Qed.

(** ** MultiSourceMerger: the merged daily files *)

Lemma load_payload_perm (name : string) (payload : DailyPayload)
    (m : gmap string (list VisitRecord)) :
  concat (map_to_list (load_payload name m payload)).*2
  ≡ₚ concat (map_to_list m).*2 ++ (tag_source name <$> dp_visits payload).
Proof.
  unfold load_payload. revert m.
  induction (dp_visits payload) as [|v visits IH]; intros m; cbn [foldl].
  { by rewrite app_nil_r. }
  rewrite IH, map_to_list_dict_append, fmap_cons.
  by rewrite <- Permutation_middle.
Qed.

Lemma load_files_length (name : string) (files : list DailyPayload)
    (m : gmap string (list VisitRecord)) :
  length (concat (map_to_list (foldl (load_payload name) m files)).*2)
  = length (concat (map_to_list m).*2) + length (files ≫= dp_visits).
Proof.
  revert m. induction files as [|payload files IH]; intros m; cbn [foldl].
  { cbn. lia. }
  rewrite IH, load_payload_perm, bind_cons, !length_app, length_fmap. lia.
Qed.

Lemma load_source_length (src : DailySource)
    (m : gmap string (list VisitRecord)) :
  length (concat (map_to_list (load_source m src)).*2)
  = length (concat (map_to_list m).*2)
    + length (default [] src.2 ≫= dp_visits).
Proof.
  unfold load_source. destruct src as [name [files|]]; cbn [fst snd default].
  - apply load_files_length.
  - cbn. lia.
Qed.

Lemma load_sources_length (sources : list DailySource)
    (m : gmap string (list VisitRecord)) :
  length (concat (map_to_list (foldl load_source m sources)).*2)
  = length (concat (map_to_list m).*2) + length (input_visits sources).
Proof.
  unfold input_visits. revert m.
  induction sources as [|src sources IH]; intros m; cbn [foldl].
  { cbn. lia. }
  rewrite IH, load_source_length, bind_cons, !length_app.
  rewrite <- Nat.add_assoc. reflexivity.
Qed.

Lemma tagged_visits_source (d : string) (sources : list DailySource)
    (v : VisitRecord) :
  v ∈ tagged_visits d sources →
  ∃ name files payload v0,
    (name, Some files) ∈ sources ∧ payload ∈ files ∧ dp_date payload = d
    ∧ v0 ∈ dp_visits payload ∧ v = tag_source name v0.
Proof.
  unfold tagged_visits. intros Hv.
  apply list_elem_of_bind in Hv as ([name files] & Hv & Hsrc).
  apply list_elem_of_bind in Hv as (payload & Hv & Hp). cbn [fst snd] in *.
  destruct files as [files|]; [|by apply elem_of_nil in Hp]. simpl in Hp.
  destruct (decide (dp_date payload = d)) as [Hd|]; [|by apply elem_of_nil in Hv].
  apply list_elem_of_fmap in Hv as (v0 & -> & Hv0).
  by exists name, files, payload, v0.
Qed.

(** X10. The merged per-date files come by strictly ascending date.  The file
    of a date holds the visits that the sources' files give for that date,
    source after source and file after file in the order they are read, each
    visit tagged with the name of its source; [total_visits] is their number
    and [unique_urls] the number of their distinct non-empty urls.  No visit is
    lost or duplicated: the [visits] of the summary lines add up to the number
    of visits read, and a source without a [daily] directory adds nothing. *)
Theorem merge_daily_payloads (sources : list DailySource) :
  let out := merge_daily sources in
  StronglySorted str_lt (dp_date <$> out.2)
  ∧ Forall (λ p, dp_visits p = tagged_visits (dp_date p) sources
                 ∧ dp_visits p ≠ []
                 ∧ dp_total_visits p = length (dp_visits p)
                 ∧ dp_unique_urls p = merged_unique_urls (dp_visits p)
                 ∧ Forall (λ v, ∃ name, source v = Some name
                                        ∧ name ∈ sources.*1) (dp_visits p))
           out.2
  ∧ out.1 = (λ p, {| ds_date := dp_date p; ds_visits := dp_total_visits p;
                     ds_unique_urls := dp_unique_urls p |}) <$> out.2
  ∧ sum_list (ds_visits <$> out.1) = length (input_visits sources).
Proof.
  unfold merge_daily. cbn [fst snd].
  set (items := sorted_items (foldl load_source ∅ sources)).
  split; [|split; [|split]].
  - rewrite <- list_fmap_compose.
    apply (StronglySorted_fmap _ (λ a b, str_lt a.1 b.1) str_lt); [done|].
    apply sorted_items_sorted.
  - apply Forall_fmap, Forall_forall. intros [d vs] Hin. cbn.
    apply elem_of_sorted_items, merge_daily_by_date in Hin as [-> Hne].
    repeat split; try done. apply Forall_forall. intros v Hv.
    apply tagged_visits_source in Hv
      as (name & files & payload & v0 & Hsrc & _ & _ & _ & ->).
    exists name. split; [done|]. apply list_elem_of_fmap.
    by exists (name, Some files).
  - rewrite <- list_fmap_compose. by apply list_fmap_ext.
  - rewrite <- list_fmap_compose.
    rewrite (list_fmap_ext _ (length ∘ snd) items) by done.
    rewrite list_fmap_compose, sum_list_length_concat.
    unfold items. rewrite sorted_items_perm, load_sources_length.
    by rewrite map_to_list_empty.
Qed.

(** ** TransitionDecoder: the bits that matter *)

Lemma land_lxor_irrelevant (t m mask : Z) :
  Z.land m 0xFF0000FF = 0%Z → Z.land mask 0xFF0000FF = mask →
  Z.land (Z.lxor t m) mask = Z.land t mask.
Proof.
  intros Hm Hmask. apply Z.bits_inj'. intros n _.
  rewrite !Z.land_spec, Z.lxor_spec.
  apply (f_equal (λ z, Z.testbit z n)) in Hm, Hmask.
  rewrite Z.land_spec, Z.bits_0 in Hm. rewrite Z.land_spec in Hmask.
  destruct (Z.testbit mask n); [|by rewrite !andb_false_r].
  simpl in Hmask. rewrite Hmask, andb_true_r in Hm. by rewrite Hm, xorb_false_r.
Qed.

(** X11. Only the low 8 bits and the bits 24 to 31 of a transition value
    matter: changing any other bit changes neither the category nor the
    qualifiers.  No qualifier is listed twice. *)
Theorem decode_transition_relevant_bits (t m : Z) :
  Z.land m 0xFF0000FF = 0%Z →
  decode_transition (Z.lxor t m) = decode_transition t
  ∧ NoDup (decode_transition t).2.
Proof.
  intros Hm. split.
  - unfold decode_transition, append_if.
    by rewrite !(land_lxor_irrelevant t m) by done.
  - rewrite decode_transition_filter.
    assert ((filter (λ mq, Z.land t mq.1 ≠ 0%Z) qualifier_masks).*2
            `sublist_of` qualifier_masks.*2) as Hsub.
    { apply fmap_sublist, sublist_filter. }
    refine (sublist_NoDup _ _ _ Hsub).
    unfold qualifier_masks. cbn.
    repeat (apply NoDup_cons; split;
            [rewrite ?elem_of_cons, elem_of_nil; intuition discriminate|]).
    apply NoDup_nil_2.
Qed.

Lemma decode_transition_relevant_bits_witness :
  decode_transition 0x81ABCD08 = decode_transition 0x81000008.
Proof.
  apply (proj1 (decode_transition_relevant_bits 0x81000008 0x00ABCD00 eq_refl)).
Defined.

(** ** RecordNormalizer: how extraction fails *)

Section ExtractionErrors.
Context {pylib : PyLib}.

(** X12. [extract_search_query] has no exception handler: it raises exactly
    when [urlparse] raises, with the same exception; the lookups
    [engine_hosts[host]] and [params[key][0]] never raise. *)
Theorem extract_search_query_raises_iff (u : string) (e : Exn) :
  extract_search_query u = Raise e ↔ urlparse u = Raise e.
Proof.
  split.
  - intros Hraise. destruct (urlparse u) as [p|e'] eqn:Hp.
    + rewrite (extract_search_query_parsed u p Hp) in Hraise. discriminate.
    + unfold extract_search_query in Hraise. rewrite Hp in Hraise.
      simpl in Hraise. by inversion Hraise.
  - intros Hp. unfold extract_search_query. rewrite Hp. reflexivity.
Qed.

End ExtractionErrors.

(** ** The further properties on the sample inputs *)

Lemma build_aggregate_daily_summary_witness :
  build_aggregate (pylib := Py.lib) Sample.records
    (group_by_date Sample.records) Sample.period_start Sample.period_end
  = Ok Sample.aggregate
  ∧ sum_list (ds_visits <$> agg_daily_summary Sample.aggregate)
    = agg_total_visits Sample.aggregate.
Proof.
  split; [exact sample_aggregate|].
  exact (proj2 (proj2 (build_aggregate_daily_summary (pylib := Py.lib)
                         Sample.records Sample.period_start Sample.period_end
                         Sample.aggregate sample_aggregate))).
Defined.

Lemma sample_hourly :
  hourly_distribution (pylib := Py.lib) Sample.records
  = Ok (agg_hourly_distribution Sample.aggregate).
Proof. vm_compute. reflexivity. Defined.

Lemma sample_weekdays :
  weekday_distribution (pylib := Py.lib) Sample.records
  = Ok (agg_weekday_distribution Sample.aggregate).
Proof. vm_compute. reflexivity. Defined.

Lemma hourly_distribution_buckets_witness :
  hourly_distribution (pylib := Py.lib) Sample.records
  = Ok (agg_hourly_distribution Sample.aggregate)
  ∧ agg_hourly_distribution Sample.aggregate !! 9
    = Some (length (filter (λ r, record_hour (pylib := Py.lib) r = Some 9)
                      Sample.records)).
Proof.
  split; [exact sample_hourly|].
  apply (proj2 (hourly_distribution_buckets (pylib := Py.lib) Sample.records
                  (agg_hourly_distribution Sample.aggregate) sample_hourly)).
  lia.
Defined.

Lemma weekday_distribution_buckets_witness :
  weekday_distribution (pylib := Py.lib) Sample.records
  = Ok (agg_weekday_distribution Sample.aggregate)
  ∧ agg_weekday_distribution Sample.aggregate !! 1
    = Some ("Tue",
            length (filter (λ r, record_weekday (pylib := Py.lib) r = Some 1)
                      Sample.records)).
Proof.
  split; [exact sample_weekdays|].
  apply (proj2 (weekday_distribution_buckets (pylib := Py.lib) Sample.records
                  (agg_weekday_distribution Sample.aggregate)
                  sample_weekdays)).
  reflexivity.
Defined.

Lemma merge_aggregate_first_title_witness :
  let later := {| tu_url := "https://a.example/"; tu_visit_count := 1;
                  tu_title := Some "A later" |} in
  let other := {| agg_period := ""; agg_total_visits := 1;
                  agg_unique_urls := 1; agg_top_domains := [];
                  agg_top_urls := [later]; agg_daily_summary := [];
                  agg_hourly_distribution := [];
                  agg_weekday_distribution := [];
                  agg_top_search_queries := [] |} in
  let tu := {| tu_url := "https://a.example/"; tu_visit_count := 3;
               tu_title := Some "A first" |} in
  tu ∈ m_top_urls (merge_aggregate [[Sample.aggregate]; [other]] [])
  ∧ tu_title tu
    = listed_title (tu_url tu)
        (concat [[Sample.aggregate]; [other]] ≫= agg_top_urls).
Proof.
  intros later other tu.
  assert (tu ∈ m_top_urls (merge_aggregate [[Sample.aggregate]; [other]] []))
    as Hin.
  { vm_compute. apply list_elem_of_here. }
  split; [exact Hin|].
  exact (merge_aggregate_first_title [[Sample.aggregate]; [other]] [] tu Hin).
Defined.

(** ** LlmInput: what the exporter writes per date *)

Section LlmExporterFacts.
Context {order : SetOrder}.

(** X13. [build_llm_input], given the buckets of a record sequence, writes one
    entry per date that has records, by strictly ascending date, as the
    per-date files come.  The entry of a date lists every non-empty url and
    every non-empty title of the records of that date once, and its
    [top_domains] are the first 10 names of the ranking of the domains of
    those records by number of visits that day. *)
Theorem build_llm_input_days (records : list VisitRecord) :
  let out := build_llm_input (group_by_date records) in
  le_date <$> out
  = Some <$> (dp_date <$> (build_daily_files (group_by_date records)).2)
  ∧ StronglySorted str_lt (omap le_date out)
  ∧ Forall (λ e, ∃ d,
        le_date e = Some d
        ∧ let visits := filter (λ r, record_date r = d) records in
          visits ≠ []
          ∧ NoDup (le_urls_visited e)
          ∧ (∀ u, u ∈ le_urls_visited e ↔ u ≠ "" ∧ u ∈ url <$> visits)
          ∧ NoDup (le_titles e)
          ∧ (∀ t, t ∈ le_titles e ↔ t ≠ "" ∧ t ∈ title <$> visits)
          ∧ ∃ top, ranked (domain_slot <$> visits) 10 top
                   ∧ le_top_domains e = top.*1) out.
Proof.
  unfold build_llm_input, build_daily_files. cbn [fst snd].
  set (items := sorted_items (group_by_date records)).
  assert (∀ (f : string * list VisitRecord → LlmEntry),
            (∀ dv, le_date (f dv) = Some dv.1) →
            omap le_date (f <$> items) = items.*1) as Homap.
  { intros f Hf. induction items as [|dv items IH]; [done|].
    rewrite !fmap_cons. cbn [omap list_omap]. by rewrite Hf, IH. }
  split; [|split].
  - rewrite <- !list_fmap_compose. by apply list_fmap_ext.
  - rewrite Homap by done.
    apply (StronglySorted_fmap _ (λ a b, str_lt a.1 b.1) str_lt); [done|].
    apply sorted_items_sorted.
  - apply Forall_fmap, Forall_forall. intros [d vs] Hin. cbn.
    apply elem_of_sorted_items, group_by_date_Some in Hin as [-> Hne].
    exists d. split; [done|]. split; [done|].
    split; [apply list_of_set_NoDup|]. split.
    { intros u. rewrite list_of_set_elem, list_elem_of_filter.
      split; (intros [Hu Hin]; split; [|done]); by destruct u. }
    split; [apply list_of_set_NoDup|]. split.
    { intros t. rewrite list_of_set_elem, list_elem_of_filter.
      split; (intros [Ht Hin]; split; [|done]); by destruct t. }
    eexists. split; [|reflexivity].
    rewrite filter_nonempty_slots.
    assert (∀ l : list VisitRecord,
              omap truthy_str (domain <$> l) = omap domain_slot l) as ->.
    { intros l. induction l as [|r l IH]; [done|].
      rewrite fmap_cons. cbn [omap list_omap]. by rewrite IH. }
    exact (most_common_ranked_fmap domain_slot _ 10).
Qed.

End LlmExporterFacts.

(** ** LlmInput: merging the sources *)

Lemma llm_load_sources_flat (sources : list (option (list LlmEntry)))
    (acc : gmap string LlmBucket) :
  foldl llm_load_source acc sources
  = foldl llm_load_entry acc (llm_entries sources).
Proof.
  unfold llm_entries. revert acc.
  induction sources as [|src sources IH]; intros acc; [done|].
  cbn [foldl]. rewrite IH. change (mbind ?f (src :: sources))
    with (f src ++ mbind f sources).
  rewrite foldl_app. by destruct src.
Qed.

Lemma llm_load_entry_lookup (acc : gmap string LlmBucket) (e : LlmEntry)
    (d : string) :
  llm_load_entry acc e !! d
  = if decide (le_date e = Some d ∧ d ≠ "")
    then Some (llm_bucket_add (default llm_bucket_new (acc !! d)) e)
    else acc !! d.
Proof.
  unfold llm_load_entry. destruct (le_date e) as [date|].
  - destruct (nonempty date) eqn:Hne.
    + apply nonempty_true in Hne. destruct (decide (date = d)) as [->|Hneq].
      * rewrite decide_True by done. by rewrite lookup_insert_eq.
      * rewrite decide_False by (intros [[= ?] _]; done).
        by rewrite lookup_insert_ne.
    + rewrite decide_False; [done|]. intros [[= ->] Hd].
      by apply nonempty_true in Hd; congruence.
  - rewrite decide_False; [done|]. by intros [? _].
Qed.

(** The bucket of a date after loading entries: that of the entries of the
    date, added in order. *)
Lemma llm_load_entries_lookup (entries : list LlmEntry)
    (acc : gmap string LlmBucket) (d : string) :
  foldl llm_load_entry acc entries !! d
  = if decide (d = "" ∨ dated d entries = []) then acc !! d
    else Some (foldl llm_bucket_add (default llm_bucket_new (acc !! d))
                     (dated d entries)).
Proof.
  revert acc. induction entries as [|e entries IH]; intros acc.
  { cbn [foldl]. rewrite decide_True; [done|by right]. }
  cbn [foldl]. rewrite IH, llm_load_entry_lookup. clear IH. unfold dated.
  rewrite filter_cons.
  destruct (decide (d = "")) as [->|Hd].
  { rewrite !decide_True by (by left).
    rewrite decide_False; [done|]. by intros [_ ?]. }
  destruct (decide (le_date e = Some d)) as [He|He].
  - rewrite (decide_True (P := _ ∧ _)) by done.
    rewrite (decide_False (P := d = "" ∨ _ :: _ = [])); [|by intros [?|?]].
    cbn [default foldl].
    destruct (decide (d = "" ∨ _ = [])) as [[?|Hnil]|Hnn]; [done| |done].
    by rewrite Hnil.
  - rewrite (decide_False (P := _ ∧ _)); [done|]. by intros [? _].
Qed.

Lemma llm_bucket_add_all (entries : list LlmEntry) (b : LlmBucket) :
  let b' := foldl llm_bucket_add b entries in
  (∀ u, u ∈ lb_urls b'
        ↔ u ∈ lb_urls b ∨ ∃ e, e ∈ entries ∧ u ∈ le_urls_visited e)
  ∧ (∀ t, t ∈ lb_titles b'
          ↔ t ∈ lb_titles b ∨ ∃ e, e ∈ entries ∧ t ∈ le_titles e)
  ∧ lb_domains b'
    = foldl (λ ctr d, counter_add d 1 ctr) (lb_domains b)
            (entries ≫= le_top_domains).
Proof.
  revert b. induction entries as [|e entries IH]; intros b; cbn [foldl].
  { split; [|split; [|done]]; intros x; split; auto.
    all: intros [?|(e & []%elem_of_nil & _)]; done. }
  destruct (IH (llm_bucket_add b e)) as (Hu & Ht & Hd).
  split; [|split].
  - intros u. rewrite Hu. cbn [llm_bucket_add lb_urls].
    rewrite elem_of_union, elem_of_list_to_set. split.
    + intros [[?|?]|(e' & ? & ?)]; [by left| |].
      * right. exists e. split; [apply list_elem_of_here|done].
      * right. exists e'. split; [by apply list_elem_of_further|done].
    + intros [?|(e' & [->|?]%elem_of_cons & ?)]; [by left; left|by left; right|].
      right. by exists e'.
  - intros t. rewrite Ht. cbn [llm_bucket_add lb_titles].
    rewrite elem_of_union, elem_of_list_to_set. split.
    + intros [[?|?]|(e' & ? & ?)]; [by left| |].
      * right. exists e. split; [apply list_elem_of_here|done].
      * right. exists e'. split; [by apply list_elem_of_further|done].
    + intros [?|(e' & [->|?]%elem_of_cons & ?)]; [by left; left|by left; right|].
      right. by exists e'.
  - rewrite Hd. cbn [llm_bucket_add lb_domains].
    change (mbind ?f (e :: entries)) with (f e ++ mbind f entries).
    by rewrite foldl_app.
Qed.

Lemma sorted_set_spec (s : gset string) :
  StronglySorted str_lt (sorted_set s) ∧ ∀ x, x ∈ sorted_set s ↔ x ∈ s.
Proof.
  unfold sorted_set. split.
  - assert (NoDup (merge_sort String.le (elements s))) as Hnd.
    { rewrite merge_sort_Permutation. apply NoDup_elements. }
    assert (StronglySorted String.le (merge_sort String.le (elements s)))
      as Hs.
    { apply StronglySorted_merge_sort; apply _. }
    induction Hs as [|a l Hl IH Ha]; [constructor|].
    apply NoDup_cons in Hnd as [Hnin Hnd].
    constructor; [by apply IH|].
    rewrite Forall_forall in *. intros b Hb. split; [by apply Ha|].
    by intros ->.
  - intros x. by rewrite merge_sort_Permutation, elem_of_elements.
Qed.

(** The entry that [merge_llm_input] writes for a date. *)
Lemma merge_llm_input_entry (sources : list (option (list LlmEntry)))
    (e : LlmEntry) :
  e ∈ merge_llm_input sources
  ↔ ∃ d, d ≠ "" ∧ dated d (llm_entries sources) ≠ []
         ∧ e = let b := foldl llm_bucket_add llm_bucket_new
                              (dated d (llm_entries sources)) in
               {| le_date := Some d;
                  le_urls_visited := sorted_set (lb_urls b);
                  le_titles := sorted_set (lb_titles b);
                  le_top_domains := (most_common 10 (lb_domains b)).*1 |}.
Proof.
  unfold merge_llm_input. rewrite list_elem_of_fmap. split.
  - intros ([d b] & -> & Hin). apply elem_of_sorted_items in Hin.
    rewrite llm_load_sources_flat, llm_load_entries_lookup in Hin.
    rewrite lookup_empty in Hin.
    destruct (decide _) as [|Hn]; [done|]. injection Hin as <-.
    exists d. split; [tauto|]. split; [tauto|]. done.
  - intros (d & Hd & Hne & ->). eexists (d, _). split; [reflexivity|].
    apply elem_of_sorted_items.
    rewrite llm_load_sources_flat, llm_load_entries_lookup, lookup_empty.
    rewrite decide_False by tauto. done.
Qed.

(** X14. [merge_llm_input] writes one entry per non-empty date that some
    entry of some source carries, by strictly ascending date; entries without
    a date are dropped.  The [urls_visited] and the [titles] of a date are in
    strictly ascending order, so without repetition, and hold what the
    entries of that date list, whichever the source. *)
Theorem merge_llm_input_days (sources : list (option (list LlmEntry))) :
  let out := merge_llm_input sources in
  let entries := llm_entries sources in
  StronglySorted str_lt (omap le_date out)
  ∧ (∀ d, Some d ∈ le_date <$> out ↔ d ≠ "" ∧ dated d entries ≠ [])
  ∧ Forall (λ e, ∃ d,
        le_date e = Some d
        ∧ StronglySorted str_lt (le_urls_visited e)
        ∧ (∀ u, u ∈ le_urls_visited e
                ↔ ∃ e', e' ∈ dated d entries ∧ u ∈ le_urls_visited e')
        ∧ StronglySorted str_lt (le_titles e)
        ∧ (∀ t, t ∈ le_titles e
                ↔ ∃ e', e' ∈ dated d entries ∧ t ∈ le_titles e')) out.
Proof.
  intros out entries. subst out entries. split; [|split].
  - unfold merge_llm_input.
    set (items := sorted_items _).
    assert (omap le_date
              ((λ db : string * LlmBucket,
                  {| le_date := Some db.1;
                     le_urls_visited := sorted_set (lb_urls db.2);
                     le_titles := sorted_set (lb_titles db.2);
                     le_top_domains := (most_common 10 (lb_domains db.2)).*1 |})
                 <$> items) = items.*1) as ->.
    { induction items as [|db items IH]; [done|].
      rewrite !fmap_cons. cbn [omap list_omap le_date]. by rewrite IH. }
    apply (StronglySorted_fmap _ (λ a b, str_lt a.1 b.1) str_lt); [done|].
    apply sorted_items_sorted.
  - intros d. rewrite list_elem_of_fmap. split.
    + intros (e & Hd & (d' & Hne & Hdated & ->)%merge_llm_input_entry).
      cbn in Hd. by injection Hd as ->.
    + intros [Hne Hdated]. eexists. split; [|apply merge_llm_input_entry].
      2: { exists d. split; [done|]. split; [done|reflexivity]. }
      done.
  - apply Forall_forall.
    intros e (d & Hne & Hdated & ->)%merge_llm_input_entry.
    exists d. cbv zeta. cbn [le_date le_urls_visited le_titles].
    destruct (llm_bucket_add_all (dated d (llm_entries sources))
                llm_bucket_new)
      as (Hu & Ht & _).
    split; [done|]. split; [apply sorted_set_spec|]. split.
    { intros u. rewrite (proj2 (sorted_set_spec _)), Hu.
      cbn [llm_bucket_new lb_urls]. rewrite elem_of_empty. tauto. }
    split; [apply sorted_set_spec|].
    intros t. rewrite (proj2 (sorted_set_spec _)), Ht.
    cbn [llm_bucket_new lb_titles]. rewrite elem_of_empty. tauto.
Qed.

(** X15. The merged [top_domains] of a date rank a domain by the number of
    times the entries of that date list it, not by visits: the first 10
    names of that ranking, ties in the order of first listing. *)
Theorem merge_llm_input_top_domains (sources : list (option (list LlmEntry)))
    (e : LlmEntry) (d : string) :
  e ∈ merge_llm_input sources → le_date e = Some d →
  ∃ top,
    ranked (Some <$> (dated d (llm_entries sources) ≫= le_top_domains)) 10 top
    ∧ le_top_domains e = top.*1.
Proof.
  intros (d' & Hne & Hdated & ->)%merge_llm_input_entry [= ->].
  cbv zeta. cbn [le_top_domains].
  destruct (llm_bucket_add_all (dated d (llm_entries sources)) llm_bucket_new)
    as (_ & _ & ->).
  eexists. split; [|reflexivity].
  pose proof (most_common_ranked
                (Some <$> (dated d (llm_entries sources) ≫= le_top_domains))
                10) as Hr.
  by rewrite omap_id_Some in Hr.
Qed.

Lemma sample_llm_merge : sample_llm_merged ∈ merge_llm_input sample_llm_sources.
Proof. vm_compute. apply list_elem_of_here. Defined.

Lemma merge_llm_input_top_domains_witness :
  sample_llm_merged ∈ merge_llm_input sample_llm_sources
  ∧ ∃ top,
      ranked (Some <$> (dated "2024-01-01" (llm_entries sample_llm_sources)
                        ≫= le_top_domains)) 10 top
      ∧ le_top_domains sample_llm_merged = top.*1.
Proof.
  split; [exact sample_llm_merge|].
  exact (merge_llm_input_top_domains sample_llm_sources sample_llm_merged
           "2024-01-01" sample_llm_merge eq_refl).
Defined.

(** ** RecordNormalizer: [build_records] *)

Lemma bind_Built {A B} (m : Outcome A) (k : A → Outcome B) (b : B) :
  m ≫= k = Built b ↔ ∃ a, m = Built a ∧ k a = Built b.
Proof.
  destruct m as [a|e]; simpl.
  - split; [by exists a | by intros (a' & [= <-] & ?)].
  - split; [done | by intros (a' & ? & ?)].
Qed.

(** The only record key that is the alias of a [urls] column is [url_id];
    those of a [visits] column are [visit_count], [visit_id] and
    [visit_time_raw]. *)
Lemma url_alias_record_key (c : string) :
  "url_" +:+ c ∈ record_keys ↔ c = "id".
Proof.
  unfold record_keys. split.
  - rewrite !elem_of_cons, elem_of_nil. intros Hin. cbv [String.append] in Hin.
    repeat (destruct Hin as [Hin|Hin]; [by simplify_eq|]). done.
  - intros ->. do 13 apply list_elem_of_further. apply list_elem_of_here.
Qed.

Lemma visit_alias_record_key (c : string) :
  "visit_" +:+ c ∈ record_keys ↔ c ∈ ["count"; "id"; "time_raw"].
Proof.
  unfold record_keys. split.
  - rewrite !elem_of_cons, !elem_of_nil. intros Hin. cbv [String.append] in Hin.
    repeat (destruct Hin as [Hin|Hin];
            [simplify_eq; try done; tauto|]). done.
  - intros Hc. rewrite !elem_of_cons, elem_of_nil in Hc.
    destruct Hc as [->|[->|[->|[]]]].
    + do 4 apply list_elem_of_further. apply list_elem_of_here.
    + do 12 apply list_elem_of_further. apply list_elem_of_here.
    + do 14 apply list_elem_of_further. apply list_elem_of_here.
Qed.

(** The loop never raises; it copies the row's value for every alias that is
    no record key and leaves the other entries alone. *)
Lemma extra_loop_lookup (prefix : string) (r : Row) (cols : list string)
    (extra : gmap string PyVal) :
  ∃ extra',
    extra_loop prefix r cols extra = Built extra'
    ∧ ∀ k, extra' !! k
           = if decide (prefixed prefix cols k ∧ (k ∉ record_keys)
                        ∧ is_Some (r !! k))
             then r !! k else extra !! k.
Proof.
  revert extra. induction cols as [|c cols IH]; intros extra.
  { exists extra. split; [done|]. intros k.
    rewrite decide_False; [done|]. by intros [[]%elem_of_nil _]. }
  cbn [extra_loop].
  assert (∀ k, prefixed prefix (c :: cols) k
               ↔ k = prefix +:+ c ∨ prefixed prefix cols k) as Hpre.
  { intros k. unfold prefixed. by rewrite fmap_cons, elem_of_cons. }
  destruct (negb _ && _) eqn:Htest.
  - apply andb_true_iff in Htest as [Hkey Hin].
    apply negb_true_iff, bool_decide_eq_false in Hkey.
    unfold dict_contains in Hin. apply bool_decide_eq_true in Hin.
    destruct Hin as [v Hv]. unfold dict_getitem. rewrite Hv.
    cbn [lift mbind Outcome_bind].
    destruct (IH (<[prefix +:+ c := v]> extra)) as (extra' & Hrun & Hl).
    exists extra'. split; [done|]. intros k. rewrite Hl.
    destruct (decide (prefixed prefix cols k ∧ _ ∧ _)) as [Hc|Hc].
    + rewrite decide_True; [done|]. rewrite Hpre. tauto.
    + destruct (decide (k = prefix +:+ c)) as [->|Hne].
      * rewrite lookup_insert_eq, decide_True; [done|].
        rewrite Hpre. split; [by left|]. split; [done|by exists v].
      * rewrite lookup_insert_ne by done.
        rewrite decide_False; [done|]. rewrite Hpre. tauto.
  - destruct (IH extra) as (extra' & Hrun & Hl).
    exists extra'. split; [done|]. intros k. rewrite Hl.
    apply andb_false_iff in Htest.
    destruct (decide (prefixed prefix cols k ∧ _ ∧ _)) as [Hc|Hc].
    + rewrite decide_True; [done|]. rewrite Hpre. tauto.
    + rewrite decide_False; [done|]. rewrite Hpre.
      intros ([->|?] & Hkey & Hin); [|tauto].
      destruct Htest as [Ht|Ht].
      * apply negb_false_iff, bool_decide_eq_true in Ht. done.
      * unfold dict_contains in Ht. apply bool_decide_eq_false in Ht. done.
Qed.

Lemma alias_record_key (url_cols visit_cols : list string) (k : string) :
  prefixed "url_" url_cols k ∨ prefixed "visit_" visit_cols k →
  k ∈ record_keys
  ↔ k ∈ ["url_id"; "visit_count"; "visit_id"; "visit_time_raw"].
Proof.
  intros Hk. split.
  - destruct Hk as [(c & -> & _)%list_elem_of_fmap|(c & -> & _)%list_elem_of_fmap].
    + intros ->%url_alias_record_key. apply list_elem_of_here.
    + intros Hc%visit_alias_record_key.
      rewrite !elem_of_cons, elem_of_nil in Hc.
      destruct Hc as [->|[->|[->|[]]]].
      * apply list_elem_of_further, list_elem_of_here.
      * do 2 apply list_elem_of_further. apply list_elem_of_here.
      * do 3 apply list_elem_of_further. apply list_elem_of_here.
  - intros Hin. rewrite !elem_of_cons, elem_of_nil in Hin.
    destruct Hin as [->|[->|[->|[->|[]]]]].
    + do 13 apply list_elem_of_further. apply list_elem_of_here.
    + do 4 apply list_elem_of_further. apply list_elem_of_here.
    + do 12 apply list_elem_of_further. apply list_elem_of_here.
    + do 14 apply list_elem_of_further. apply list_elem_of_here.
Qed.

Section RecordBuilderFacts.
Context {pylib : PyLib}.

Lemma build_records_Forall2 (rows : list Row) (url_cols visit_cols : list string)
    (records : list ExportRecord) :
  build_records rows url_cols visit_cols = Built records
  ↔ Forall2 (λ r rec, build_record url_cols visit_cols r = Built rec)
            rows records.
Proof.
  revert records. induction rows as [|r rows IH]; intros records.
  - cbn [build_records]. split.
    + intros [= <-]. constructor.
    + intros ->%Forall2_nil_inv_l. done.
  - cbn [build_records]. rewrite bind_Built. split.
    + intros (rec & Hrec & (recs & Hrecs & [= <-])%bind_Built).
      constructor; [done|]. by apply IH.
    + intros (rec & recs & Hrec & Hrecs & ->)%Forall2_cons_inv_l.
      exists rec. split; [done|]. apply bind_Built. exists recs.
      split; [by apply IH|done].
Qed.

(** The extra metadata that a row gets. *)
Lemma build_record_extra (url_cols visit_cols : list string) (r : Row)
    (rec : ExportRecord) :
  build_record url_cols visit_cols r = Built rec →
  er_extra_metadata rec ≠ Some ∅
  ∧ ∀ k v, default ∅ (er_extra_metadata rec) !! k = Some v
           ↔ r !! k = Some v
             ∧ (prefixed "url_" url_cols k ∨ prefixed "visit_" visit_cols k)
             ∧ k ∉ ["url_id"; "visit_count"; "visit_id"; "visit_time_raw"].
Proof.
  unfold build_record.
  intros (visit_dt & _ & Hrun)%bind_Built.
  apply bind_Built in Hrun as (last_visit_dt & _ & Hrun).
  apply bind_Built in Hrun as (decoded & _ & Hrun).
  apply bind_Built in Hrun as (dom & _ & Hrun).
  apply bind_Built in Hrun as (extra1 & Hextra1 & Hrun).
  apply bind_Built in Hrun as (extra2 & Hextra2 & [= <-]).
  cbn [er_extra_metadata].
  destruct (extra_loop_lookup "url_" r url_cols ∅) as (x1 & Hx1 & Hl1).
  rewrite Hextra1 in Hx1. injection Hx1 as <-.
  destruct (extra_loop_lookup "visit_" r visit_cols extra1)
    as (x2 & Hx2 & Hl2).
  rewrite Hextra2 in Hx2. injection Hx2 as <-.
  split; [destruct (decide (extra2 = ∅)); congruence|].
  intros k v.
  assert (default ∅ (if decide (extra2 = ∅) then None else Some extra2)
          = extra2) as ->.
  { by destruct (decide (extra2 = ∅)) as [->|]. }
  rewrite Hl2, Hl1, lookup_empty.
  pose proof (alias_record_key url_cols visit_cols k) as Hkeys.
  destruct (decide (prefixed "visit_" visit_cols k ∧ _ ∧ _)) as [Hv|Hv].
  { split; [|tauto]. intros Hk. split; [done|]. split; [tauto|].
    rewrite <- Hkeys; tauto. }
  destruct (decide (prefixed "url_" url_cols k ∧ _ ∧ _)) as [Hu|Hu].
  { split; [|tauto]. intros Hk. split; [done|]. split; [tauto|].
    rewrite <- Hkeys; tauto. }
  split; [done|]. intros (Hk & Hpre & Hkey).
  rewrite <- Hkeys in Hkey by done.
  assert (is_Some (r !! k)) by by exists v. tauto.
Qed.

(** X16. The [extra_metadata] of a record holds the row's value for every
    column alias [url_<c>] and [visit_<c>] that the row has, except for the
    four aliases that are also keys of the record: [url_id], [visit_count],
    [visit_id] and [visit_time_raw].  So the columns that the record shows
    under another name, such as [url_url] and [visit_visit_time], are
    repeated there.  The key is left out when nothing is to be held. *)
Theorem build_records_extra_metadata (rows : list Row)
    (url_cols visit_cols : list string) (records : list ExportRecord)
    (i : nat) (r : Row) (rec : ExportRecord) :
  build_records rows url_cols visit_cols = Built records →
  rows !! i = Some r → records !! i = Some rec →
  er_extra_metadata rec ≠ Some ∅
  ∧ ∀ k v, default ∅ (er_extra_metadata rec) !! k = Some v
           ↔ r !! k = Some v
             ∧ (prefixed "url_" url_cols k ∨ prefixed "visit_" visit_cols k)
             ∧ k ∉ ["url_id"; "visit_count"; "visit_id"; "visit_time_raw"].
Proof.
  intros Hrun%build_records_Forall2 Hr Hrec.
  apply (build_record_extra url_cols visit_cols r).
  exact (Forall2_lookup_lr _ _ _ _ _ _ Hrun Hr Hrec).
Qed.

End RecordBuilderFacts.

(** ** RecordNormalizer: the timestamps *)

Lemma append_nil_l (b : string) : "" +:+ b = b.
Proof. done. Qed.

Lemma append_cons (a : ascii) (s b : string) :
  String a s +:+ b = String a (s +:+ b).
Proof. done. Qed.

Lemma length_append (a b : string) :
  String.length (a +:+ b) = String.length a + String.length b.
Proof.
  induction a as [|c a IH]; [done|].
  rewrite append_cons. simpl. by rewrite IH.
Qed.

Lemma substring_append (a b : string) :
  String.substring 0 (String.length a) (a +:+ b) = a.
Proof.
  induction a as [|c a IH].
  - simpl. by destruct b.
  - rewrite append_cons. simpl. by rewrite IH.
Qed.

Lemma sign_free_app (a b : string) :
  sign_free a → sign_free b → sign_free (a +:+ b).
Proof.
  intros Ha Hb. induction a as [|c a IH]; [done|].
  rewrite append_cons. destruct Ha as (? & ? & ?). by repeat split; auto.
Qed.

Lemma sign_free_pretty_go (x : N) (s : string) :
  sign_free s → sign_free (pretty_N_go x s).
Proof.
  revert s. induction (N.lt_wf_0 x) as [x _ IH]; intros s Hs.
  destruct (decide (x = 0%N)) as [->|Hx]; [by rewrite pretty_N_go_0|].
  rewrite pretty_N_go_step by lia. apply IH.
  - apply N.div_lt; lia.
  - split; [|split; [|done]]; unfold pretty_N_char; by repeat case_match.
Qed.

Lemma sign_free_pretty (n : N) : sign_free (pretty n).
Proof.
  unfold pretty, pretty_N. case_decide; [done|].
  by apply sign_free_pretty_go.
Qed.

Lemma zfill_unfold (k : nat) (s : string) :
  zfill k s
  = String.string_of_list_ascii (replicate (k - String.length s) "0"%char)
    +:+ s.
Proof. done. Qed.

Lemma sign_free_zfill (k : nat) (s : string) :
  sign_free s → sign_free (zfill k s).
Proof.
  intros Hs. rewrite zfill_unfold. apply sign_free_app; [|done].
  induction (k - String.length s) as [|n IH]; [done|]. by repeat split.
Qed.

Lemma length_zfill (k : nat) (s : string) :
  String.length s ≤ k → String.length (zfill k s) = k.
Proof.
  intros Hs. rewrite zfill_unfold, length_append.
  assert (∀ n, String.length
                 (String.string_of_list_ascii (replicate n "0"%char)) = n)
    as ->.
  { intros n. induction n as [|n IH]; [done|]. simpl. by rewrite IH. }
  lia.
Qed.

Lemma length_pretty_go (k : nat) (x : N) (s : string) :
  (x < 10 ^ N.of_nat k)%N →
  String.length (pretty_N_go x s) ≤ String.length s + k.
Proof.
  revert x s. induction k as [|k IH]; intros x s Hx.
  - assert (x = 0%N) as -> by (simpl in Hx; lia).
    rewrite pretty_N_go_0. lia.
  - destruct (decide (x = 0%N)) as [->|Hpos].
    { rewrite pretty_N_go_0. lia. }
    rewrite pretty_N_go_step by lia.
    etrans; [apply IH|simpl; lia].
    apply N.Div0.div_lt_upper_bound.
    by rewrite Nat2N.inj_succ, N.pow_succ_r' in Hx.
Qed.

Lemma length_pretty (k : nat) (n : N) :
  0 < k → (n < 10 ^ N.of_nat k)%N → String.length (pretty n) ≤ k.
Proof.
  intros Hk Hn. unfold pretty, pretty_N. case_decide; [simpl; lia|].
  by apply (length_pretty_go k n "").
Qed.

Lemma sign_free_format_date (dt : datetime) : sign_free (format_date dt).
Proof.
  unfold format_date.
  repeat (apply sign_free_app;
          [first [by apply sign_free_zfill, sign_free_pretty | by repeat split]|]).
  by apply sign_free_zfill, sign_free_pretty.
Qed.

Lemma length_format_date (dt : datetime) :
  (year dt < 10000 ∧ month dt < 100 ∧ day dt < 100)%N →
  String.length (format_date dt) = 10.
Proof.
  intros (Hy & Hm & Hd). unfold format_date. rewrite !length_append.
  rewrite (length_zfill 4), !(length_zfill 2); [done|..].
  - by apply length_pretty; [lia|].
  - by apply length_pretty; [lia|].
  - by apply length_pretty; [lia|].
Qed.

(** Neither replacement touches a stretch without [+] and [Z]. *)
Lemma replace_sign_free (a rest : string) :
  sign_free a →
  replace_from "+00:00" "Z" 0 (a +:+ rest)
  = a +:+ replace_from "+00:00" "Z" 0 rest.
Proof.
  intros Ha. induction a as [|c a IH]; [done|].
  destruct Ha as (Hplus & _ & Ha). rewrite !append_cons.
  cbn [replace_from]. rewrite <- (append_cons c a rest).
  assert (String.prefix "+00:00" (String c a +:+ rest) = false) as ->.
  { rewrite append_cons. cbn [String.prefix].
    destruct (Ascii.ascii_dec "+"%char c) as [Heq|]; [|done].
    by rewrite Heq in Hplus. }
  by rewrite IH.
Qed.

Lemma str_replace_sign_free (a rest : string) :
  sign_free a →
  str_replace "Z" "+00:00" (a +:+ rest)
  = a +:+ str_replace "Z" "+00:00" rest.
Proof.
  intros Ha. induction a as [|c a IH]; [done|].
  destruct Ha as (_ & HZ & Ha). rewrite !append_cons.
  cbn [str_replace]. rewrite decide_False by done. by rewrite IH.
Qed.

(** The stretch of [isoformat] before the offset. *)
Lemma isoformat_split (dt : datetime) :
  ∃ rest, sign_free rest
          ∧ isoformat dt = format_date dt +:+ rest +:+ "+00:00"
          ∧ iso_z dt = format_date dt +:+ rest +:+ "Z".
Proof.
  assert (∀ a b c : string, (a +:+ b) +:+ c = a +:+ b +:+ c) as Hassoc.
  { intros a b c. induction a as [|x a IH]; [done|].
    by rewrite !append_cons, IH. }
  exists ("T" +:+ zfill 2 (pretty (hour dt))
          +:+ ":" +:+ zfill 2 (pretty (minute dt))
          +:+ ":" +:+ zfill 2 (pretty (second dt))
          +:+ (if decide (microsecond dt = 0%N) then ""
               else "." +:+ zfill 6 (pretty (microsecond dt)))).
  assert (sign_free
            ("T" +:+ zfill 2 (pretty (hour dt))
             +:+ ":" +:+ zfill 2 (pretty (minute dt))
             +:+ ":" +:+ zfill 2 (pretty (second dt))
             +:+ (if decide (microsecond dt = 0%N) then ""
                  else "." +:+ zfill 6 (pretty (microsecond dt))))) as Hrest.
  { repeat (apply sign_free_app;
            [first [by apply sign_free_zfill, sign_free_pretty
                   | by repeat split]|]).
    destruct (decide _); [done|].
    apply sign_free_app; [by repeat split|].
    by apply sign_free_zfill, sign_free_pretty. }
  split; [done|].
  assert (isoformat dt
          = format_date dt
            +:+ ("T" +:+ zfill 2 (pretty (hour dt))
                 +:+ ":" +:+ zfill 2 (pretty (minute dt))
                 +:+ ":" +:+ zfill 2 (pretty (second dt))
                 +:+ (if decide (microsecond dt = 0%N) then ""
                      else "." +:+ zfill 6 (pretty (microsecond dt))))
            +:+ "+00:00") as Hiso.
  { unfold isoformat. by rewrite !Hassoc. }
  split; [done|].
  unfold iso_z, replace. rewrite Hiso.
  rewrite (replace_sign_free (format_date dt)) by apply sign_free_format_date.
  by rewrite replace_sign_free.
Qed.

Lemma iso_z_round_trip (dt : datetime) :
  str_replace "Z" "+00:00" (iso_z dt) = isoformat dt.
Proof.
  destruct (isoformat_split dt) as (rest & Hrest & -> & ->).
  rewrite (str_replace_sign_free (format_date dt))
    by apply sign_free_format_date.
  by rewrite str_replace_sign_free.
Qed.

Lemma iso_z_date (dt : datetime) :
  (year dt < 10000 ∧ month dt < 100 ∧ day dt < 100)%N →
  String.substring 0 10 (iso_z dt) = format_date dt.
Proof.
  intros Hdt. destruct (isoformat_split dt) as (rest & _ & _ & ->).
  rewrite <- (length_format_date dt Hdt) at 1. apply substring_append.
Qed.

Lemma val_or_truthy (v : PyVal) :
  val_truthy (val_or v (PInt 0)) = val_truthy v
  ∧ (val_truthy v = true → val_or v (PInt 0) = v)
  ∧ (val_truthy v = false → val_or v (PInt 0) = PInt 0).
Proof. unfold val_or. destruct (val_truthy v) eqn:Hv; by rewrite ?Hv. Qed.

Section RecordTimestamps.
Context {pylib : PyLib}.

Lemma chrome_time_of_Built (v : PyVal) (dt : datetime) :
  chrome_time_of v = Built dt ↔ converts v dt.
Proof.
  unfold chrome_time_of, converts. split.
  - intros (z & Hz & Hdt)%bind_Built. exists z.
    destruct v; try done. injection Hz as ->.
    by destruct (chrome_time_to_datetime z) as [dt'|]; simplify_eq/=.
  - intros (z & -> & Hdt). simpl. by rewrite Hdt.
Qed.

Lemma converts_fun (v : PyVal) (dt dt' : datetime) :
  converts v dt → converts v dt' → dt = dt'.
Proof. intros (z & -> & Hz) (z' & [= <-] & Hz'). congruence. Qed.

(** What a record holds of the two times and the transition of its row. *)
Lemma build_record_times (url_cols visit_cols : list string) (r : Row)
    (rec : ExportRecord) :
  build_record url_cols visit_cols r = Built rec →
  er_visit_time_raw rec = val_or (row_get r "visit_visit_time") (PInt 0)
  ∧ er_last_visit_time_raw rec
    = val_or (row_get r "url_last_visit_time") (PInt 0)
  ∧ er_transition_raw rec = val_or (row_get r "visit_transition") (PInt 0)
  ∧ (∃ dt, converts (er_visit_time_raw rec) dt ∧ er_timestamp rec = iso_z dt)
  ∧ (if val_truthy (er_last_visit_time_raw rec)
     then ∃ dt, converts (er_last_visit_time_raw rec) dt
                ∧ er_last_visit_time rec = Some (iso_z dt)
     else er_last_visit_time rec = None)
  ∧ ∃ z, er_transition_raw rec = PInt z
         ∧ (er_transition_type rec, er_transition_qualifiers rec)
           = decode_transition z.
Proof.
  unfold build_record.
  intros (visit_dt & Hvisit & Hrun)%bind_Built.
  apply bind_Built in Hrun as (last_visit_dt & Hlast & Hrun).
  apply bind_Built in Hrun as (decoded & Hdec & Hrun).
  apply bind_Built in Hrun as (dom & _ & Hrun).
  apply bind_Built in Hrun as (extra1 & _ & Hrun).
  apply bind_Built in Hrun as (extra2 & _ & [= <-]).
  cbn [er_visit_time_raw er_last_visit_time_raw er_transition_raw
       er_timestamp er_last_visit_time er_transition_type
       er_transition_qualifiers].
  split; [done|]. split; [done|]. split; [done|]. split; [|split].
  - exists visit_dt. split; [|done]. by apply chrome_time_of_Built.
  - destruct (val_truthy (val_or (row_get r "url_last_visit_time") (PInt 0))).
    + apply bind_Built in Hlast as (dt & Hdt & [= <-]).
      exists dt. split; [|done]. by apply chrome_time_of_Built.
    + by injection Hlast as <-.
  - unfold decode_transition_of in Hdec.
    apply bind_Built in Hdec as (z & Hz & [= <-]). exists z.
    split; [|by destruct (decode_transition z)].
    by destruct (val_or (row_get r "visit_transition") (PInt 0));
      simplify_eq/=.
Qed.

Lemma build_records_elem (rows : list Row) (url_cols visit_cols : list string)
    (records : list ExportRecord) (rec : ExportRecord) :
  build_records rows url_cols visit_cols = Built records → rec ∈ records →
  ∃ r, r ∈ rows ∧ build_record url_cols visit_cols r = Built rec.
Proof.
  intros Hrun%build_records_Forall2 (i & Hi)%list_elem_of_lookup_1.
  destruct (Forall2_lookup_r _ _ _ _ _ Hrun Hi) as (r & Hr & Hrec).
  exists r. split; [|done]. by eapply list_elem_of_lookup_2.
Qed.

(** X17. The timestamp of a record is the ISO form of the instant of its
    visit time with the offset [+00:00] written as [Z], and putting the
    offset back, as the histograms do before parsing, gives exactly that ISO
    form again; so a record is counted under the hour and the weekday of its
    visit in UTC.  The last visit time is written the same way, and is null
    exactly when the row holds none or 0. *)
Theorem build_records_timestamps (rows : list Row)
    (url_cols visit_cols : list string) (records : list ExportRecord)
    (rec : ExportRecord) :
  build_records rows url_cols visit_cols = Built records → rec ∈ records →
  (∃ dt, converts (er_visit_time_raw rec) dt
         ∧ str_replace "Z" "+00:00" (er_timestamp rec) = isoformat dt
         ∧ ∀ v, as_visit rec = Some v
                → record_datetime v = fromisoformat (isoformat dt))
  ∧ match er_last_visit_time rec with
    | Some t =>
        er_last_visit_time_raw rec ≠ PInt 0
        ∧ ∃ dt, converts (er_last_visit_time_raw rec) dt
                ∧ str_replace "Z" "+00:00" t = isoformat dt
    | None => er_last_visit_time_raw rec = PInt 0
    end.
Proof.
  intros Hrun Hrec.
  destruct (build_records_elem _ _ _ _ _ Hrun Hrec) as (r & _ & Hbuild).
  apply build_record_times
    in Hbuild as (_ & Hraw & _ & (dt & Hdt & Hts) & Hlast & _).
  split.
  - exists dt. split; [done|]. rewrite Hts. split; [apply iso_z_round_trip|].
    intros v Hv. unfold as_visit in Hv.
    destruct (er_url rec), (er_title rec), (er_transition_raw rec);
      try done.
    injection Hv as <-. unfold record_datetime. cbn [timestamp].
    by rewrite Hts, iso_z_round_trip.
  - rewrite Hraw in *.
    destruct (val_or_truthy (row_get r "url_last_visit_time"))
      as (Htruthy & _ & Hfalse).
    destruct (val_truthy (val_or _ _)) eqn:Ht.
    + destruct Hlast as (dt' & Hdt' & ->). split.
      * intros Heq. by rewrite Heq in Ht.
      * exists dt'. split; [done|apply iso_z_round_trip].
    + rewrite Hlast. apply Hfalse. by rewrite <- Htruthy.
Qed.

(** X18. The first ten characters of the timestamp, under which
    [group_by_date] files a record, are the date of the visit in UTC. *)
Theorem build_records_date (rows : list Row)
    (url_cols visit_cols : list string) (records : list ExportRecord)
    (rec : ExportRecord) (dt : datetime) (v : VisitRecord) :
  build_records rows url_cols visit_cols = Built records → rec ∈ records →
  converts (er_visit_time_raw rec) dt →
  (year dt < 10000 ∧ month dt < 100 ∧ day dt < 100)%N →
  as_visit rec = Some v →
  record_date v = format_date dt.
Proof.
  intros Hrun Hrec Hconv Hdt Hv.
  destruct (build_records_elem _ _ _ _ _ Hrun Hrec) as (r & _ & Hbuild).
  apply build_record_times
    in Hbuild as (_ & _ & _ & (dt' & Hdt' & Hts) & _).
  rewrite <- (converts_fun _ _ _ Hconv Hdt') in Hts.
  unfold as_visit in Hv.
  destruct (er_url rec), (er_title rec), (er_transition_raw rec); try done.
  injection Hv as <-. unfold record_date. cbn [timestamp].
  rewrite Hts. by apply iso_z_date.
Qed.

Lemma build_record_builds (url_cols visit_cols : list string) (r : Row) :
  (∃ rec, build_record url_cols visit_cols r = Built rec) ↔ row_builds r.
Proof.
  unfold row_builds.
  destruct (val_or_truthy (row_get r "url_last_visit_time"))
    as (Hlt & Hltrue & Hlfalse).
  split.
  - intros (rec & Hbuild).
    apply build_record_times
      in Hbuild as (Hv & Hl & Ht & (dt & Hdt & _) & Hlast & (z & Hz & _)).
    rewrite Hv in Hdt. rewrite Hl in Hlast. rewrite Ht in Hz.
    split; [by exists dt|]. split.
    + intros Htrue. rewrite Hlt, Htrue in Hlast.
      rewrite Hltrue in Hlast by done.
      destruct Hlast as (dt' & Hdt' & _). by exists dt'.
    + intros s Hs. rewrite Hs in Hz. unfold val_or in Hz. simpl in Hz.
      by destruct s.
  - intros ((dt & Hdt) & Hlast & Htrans). unfold build_record.
    apply chrome_time_of_Built in Hdt as ->. cbn [mbind Outcome_bind].
    assert (∃ last,
              (if val_truthy (val_or (row_get r "url_last_visit_time") (PInt 0))
               then dt ← chrome_time_of
                         (val_or (row_get r "url_last_visit_time") (PInt 0));
                    mret (Some dt)
               else mret None) = Built last) as (last & ->).
    { rewrite Hlt. destruct (val_truthy (row_get r "url_last_visit_time"))
        eqn:Htruthy; [|by eexists].
      destruct (Hlast eq_refl) as (dt' & Hdt').
      rewrite Hltrue by done.
      apply chrome_time_of_Built in Hdt' as ->. by eexists. }
    cbn [mbind Outcome_bind].
    assert (∃ z, val_or (row_get r "visit_transition") (PInt 0) = PInt z)
      as (z & ->).
    { unfold val_or. destruct (row_get r "visit_transition") as [|z|s] eqn:Hs.
      - by exists 0%Z.
      - simpl. destruct (truthy z); by eexists.
      - rewrite (Htrans s eq_refl). by exists 0%Z. }
    cbn [decode_transition_of as_int mbind Outcome_bind mret Outcome_ret].
    assert (∃ dom, extract_domain_of (val_or (row_get r "url_url") (PStr ""))
                   = Built dom) as (dom & ->).
    { destruct (val_or (row_get r "url_url") (PStr "")) as [|z'|s];
        cbn [extract_domain_of];
        [eexists; reflexivity..|].
      unfold extract_domain. eexists. reflexivity. }
    cbn [mbind Outcome_bind].
    destruct (extra_loop_lookup "url_" r url_cols ∅) as (x1 & -> & _).
    cbn [mbind Outcome_bind].
    destruct (extra_loop_lookup "visit_" r visit_cols x1) as (x2 & -> & _).
    cbn [mbind Outcome_bind]. by eexists.
Qed.

(** X19. [build_records] returns, with one record per row, exactly when
    every row has a visit time that converts (a missing, null or 0 one
    counting as 0), a last visit time that converts unless it is missing,
    null or 0, and a transition that is not a non-empty text.  Neither the
    url, the title, the domain nor the extra metadata can make it fail. *)
Theorem build_records_returns_iff (rows : list Row)
    (url_cols visit_cols : list string) :
  ((∃ records, build_records rows url_cols visit_cols = Built records)
   ↔ Forall row_builds rows)
  ∧ ∀ records, build_records rows url_cols visit_cols = Built records
               → length records = length rows.
Proof.
  split.
  - induction rows as [|r rows IH]; cbn [build_records].
    { split; [constructor|by eexists]. }
    rewrite Forall_cons, <- IH, <- (build_record_builds url_cols visit_cols).
    split.
    + intros (records & (rec & Hrec & (recs & Hrecs & _)%bind_Built)%bind_Built).
      split; by eexists.
    + intros ((rec & ->) & (recs & ->)). by eexists.
  - intros records Hrun%build_records_Forall2.
    symmetry. by eapply Forall2_length.
Qed.

End RecordTimestamps.

(** ** The record builder on the sample row *)

Lemma sample_build :
  build_records (pylib := Py.lib) [sample_row] sample_url_cols
    sample_visit_cols
  = Built [sample_record].
Proof. vm_compute. reflexivity. Defined.

Lemma sample_converts :
  converts (pylib := Py.lib) (er_visit_time_raw sample_record) sample_instant.
Proof. exists 13348576800000000%Z. split; [done|]. vm_compute. reflexivity. Defined.

Lemma build_records_extra_metadata_witness :
  default ∅ (er_extra_metadata sample_record) !! "visit_visit_time"
  = Some (PInt 13348576800000000)
  ∧ default ∅ (er_extra_metadata sample_record) !! "url_id" ≠ Some (PInt 7).
Proof.
  destruct (build_records_extra_metadata (pylib := Py.lib) [sample_row]
              sample_url_cols sample_visit_cols [sample_record] 0 sample_row
              sample_record sample_build eq_refl eq_refl) as [_ Hextra].
  split.
  - apply Hextra. split; [vm_compute; reflexivity|]. split.
    + right. apply (bool_decide_unpack _). vm_compute. exact I.
    + apply (bool_decide_unpack _). vm_compute. exact I.
  - intros (_ & _ & Hkey)%Hextra. apply Hkey, list_elem_of_here.
Defined.

Lemma build_records_timestamps_witness :
  er_timestamp sample_record = "2024-01-01T10:00:00Z"
  ∧ ∃ dt, converts (pylib := Py.lib) (er_visit_time_raw sample_record) dt
          ∧ str_replace "Z" "+00:00" (er_timestamp sample_record)
            = isoformat dt.
Proof.
  split; [done|].
  destruct (build_records_timestamps (pylib := Py.lib) [sample_row]
              sample_url_cols sample_visit_cols [sample_record] sample_record
              sample_build (list_elem_of_here _ _))
    as [(dt & Hdt & Hiso & _) _].
  by exists dt.
Defined.

Lemma build_records_date_witness :
  as_visit sample_record = Some sample_visit
  ∧ record_date sample_visit = format_date sample_instant.
Proof.
  split; [done|].
  apply (build_records_date (pylib := Py.lib) [sample_row] sample_url_cols
           sample_visit_cols [sample_record] sample_record sample_instant
           sample_visit sample_build (list_elem_of_here _ _) sample_converts).
  - vm_compute. done.
  - done.
Defined.
